(** * Herd leaderboard server: ingestion, likes, profile and leaderboard

    A shallow embedding of [src/server/index.ts] (upload, demo load, likes,
    profile, artist leaderboard) and of the later server bundled in
    [src/server/db.ts] (schema of [initDb], [syncAllUsersFromFiles]).

    The relational engine is modelled by tables kept as lists in insertion
    order together with the constraints that [initDb] declares (primary
    keys, [UNIQUE], [NOT NULL], [REFERENCES], [VARCHAR(n)], [INTEGER]).
    A query that the engine rejects is a thrown error of [pool.query]; the
    handlers' [try]/[catch] blocks are modelled as written.  A [SELECT]
    without [ORDER BY] returns its rows in table order and examines every
    row of its table.

    Two conversions belong to the engine's version and settings and are
    left open: the reading of a text as a [TIMESTAMP] and the reading of
    a text as an [INTEGER].  They are the members of the class
    [Pg.Engine]; every statement below holds for every engine, and the
    sample runs at the end use an engine that reads the timestamps of the
    exports.

    Requests are handled one at a time.  An element of an export is an
    object or [null]; the fields of an entry are texts or [null], and
    [ms_played] is a number or [null].  A character is one [ascii], and
    no text holds a NUL character.  A run returns, besides the store, the
    trace of the insert statements it sent and of the errors it logged.

    Layout: [Js] (string, number and array helpers), [Pg] (tables and
    statements), [Server] and [Handlers] (the handlers and the startup
    runs), [Client], then the vocabulary of the statements, sample
    inputs, the proofs, and the statements at sample inputs. *)

From Stdlib Require Import ZArith List String Ascii Bool Lia.
From Stdlib Require Floats.SpecFloat.
From stdpp Require Import base list strings sorting.

Local Open Scope Z_scope.
Local Open Scope list_scope.

(* ================================================================== *)
(** * JavaScript string helpers used by the server *)
(* ================================================================== *)

Module Js.

(** A character of the model is one [ascii] (a code point below 256). *)

Definition startsWith (p s : string) : bool := String.prefix p s.

Fixpoint includes (needle hay : string) : bool :=
  String.prefix needle hay ||
  match hay with
  | EmptyString => false
  | String _ hay' => includes needle hay'
  end.

Definition endsWith (suf s : string) : bool :=
  let n := String.length s in
  let k := String.length suf in
  (k <=? n)%nat && String.eqb (String.substring (n - k) k s) suf.

(** [s.slice(0, n)] on a string. *)
Definition slice0 (n : nat) (s : string) : string := String.substring 0 n s.

(** WhiteSpace and LineTerminator code points below 256 ([String.prototype.trim]). *)
Definition is_space (c : ascii) : bool :=
  let n := nat_of_ascii c in
  ((9 <=? n) && (n <=? 13) || (n =? 32) || (n =? 160))%nat.

Fixpoint trimStart (s : string) : string :=
  match s with
  | EmptyString => EmptyString
  | String c s' => if is_space c then trimStart s' else s
  end.

(** Drops the trailing white space: the result of the recursive call is
    empty exactly when everything after [c] is white space. *)
Fixpoint trimEnd (s : string) : string :=
  match s with
  | EmptyString => EmptyString
  | String c s' =>
      match trimEnd s' with
      | EmptyString => if is_space c then EmptyString else String c EmptyString
      | t => String c t
      end
  end.

Definition trim (s : string) : string := trimEnd (trimStart s).

(** [s.replace(/_/g, ' ')] *)
Fixpoint replace_underscores (s : string) : string :=
  match s with
  | EmptyString => EmptyString
  | String c s' =>
      String (if Ascii.eqb c "_" then " "%char else c) (replace_underscores s')
  end.

(** The regular expression dot matches everything but a line terminator. *)
Definition is_line_terminator (c : ascii) : bool :=
  let n := nat_of_ascii c in ((n =? 10) || (n =? 13))%nat.

(** The lazy group [(.+?)] followed by a literal [lit]: the shortest
    non-empty run of dot characters after which [lit] starts. *)
Fixpoint lazy_group (lit : string) (acc s : string) : option string :=
  match s with
  | EmptyString => None
  | String c s' =>
      if is_line_terminator c then None
      else
        let acc' := String.append acc (String c EmptyString) in
        if String.prefix lit s' then Some acc' else lazy_group lit acc' s'
  end.

(** [file.match(/^User_(.+?)_Streaming_History_Audio/)], returning the
    capture group [match[1]]. *)
Definition match_user_file (file : string) : option string :=
  if String.prefix "User_" file
  then lazy_group "_Streaming_History_Audio" EmptyString
         (String.substring 5 (String.length file - 5) file)
  else None.

Definition is_digit (c : ascii) : bool :=
  let n := nat_of_ascii c in ((48 <=? n) && (n <=? 57))%nat.

Fixpoint digits_value (acc : N) (s : string) : option N :=
  match s with
  | EmptyString => Some acc
  | String c s' =>
      if is_digit c
      then digits_value (acc * 10 + (N_of_ascii c - 48))%N s'
      else None
  end.

(** An array index in the sense of ECMAScript: the canonical decimal
    spelling of an integer below [2^32 - 1].  [Object.entries] lists such
    keys first, in ascending numeric order. *)
Definition array_index (s : string) : option N :=
  match s with
  | EmptyString => None
  | String c s' =>
      if Ascii.eqb c "0" && negb (String.eqb s' EmptyString) then None
      else
        match digits_value 0%N s with
        | Some n => if (n <? 4294967295)%N then Some n else None
        | None => None
        end
  end.

(** Property names without an underscore that an object literal inherits
    from [Object.prototype]; all of them are functions. *)
Definition inherited_names : list string :=
  ["constructor"; "toString"; "toLocaleString"; "valueOf";
   "hasOwnProperty"; "isPrototypeOf"; "propertyIsEnumerable"].

Definition is_inherited (k : string) : bool :=
  existsb (String.eqb k) inherited_names.

(** [arr.slice(start, end)] for [0 <= start <= end]. *)
Definition slice {A} (start stop : nat) (l : list A) : list A :=
  take (stop - start) (drop start l).

(** A JSON number as the validator and the driver use it: an integer, or
    a number that is no integer.  Of the latter only the sign is used:
    the driver spells it with a fraction or an exponent, which no
    [INTEGER] column reads. *)
Inductive Number :=
| Integer (z : Z)
| Fraction (positive : bool).

(** The Number nearest to an integer (binary64, ties to even): what
    [parseInt] returns for the decimal spelling of an integer of up to 20
    digits. *)
Definition to_double (n : Z) : SpecFloat.spec_float :=
  SpecFloat.binary_normalize 53 1024 n 0 false.

(** [Math.round]: the integer nearest to a finite Number, halves upwards,
    computed exactly.  For NaN and the infinities, which [JSON.stringify]
    spells [null], the model returns 0. *)
Definition Math_round (x : SpecFloat.spec_float) : Z :=
  match x with
  | SpecFloat.S754_finite s m e =>
      let v := if s then Z.neg m else Z.pos m in
      if 0 <=? e then v * 2 ^ e
      else (2 * v + 2 ^ (- e)) / 2 ^ (1 - e)
  | _ => 0
  end.

(** [Math.round(parseInt(text) / d)] for the decimal spelling [text] of
    the integer [n] and an integer [d] other than 0: the two operands are
    Numbers and the quotient is the Number nearest to the exact one. *)
Definition round_div (n d : Z) : Z :=
  Math_round (SpecFloat.SFdiv 53 1024 (to_double n) (to_double d)).

End Js.

(* ================================================================== *)
(** * The relational engine: tables of [initDb] and the statements used *)
(* ================================================================== *)

Module Pg.

(** ** Text comparison *)

Definition lower_char (c : ascii) : ascii :=
  let n := nat_of_ascii c in
  if ((65 <=? n) && (n <=? 90))%nat then ascii_of_nat (n + 32) else c.

Fixpoint lower (s : string) : string :=
  match s with
  | EmptyString => EmptyString
  | String c s' => String (lower_char c) (lower s')
  end.

(** The outcomes of the engine's [MatchText]: a match, no match at this
    position, no match at this or any later position of the text, and the
    error [LIKE pattern must not end with escape character]. *)
Inductive LikeResult :=
| LIKE_TRUE
| LIKE_FALSE
| LIKE_ABORT
| LIKE_ERROR.

Fixpoint only_percent (p : string) : bool :=
  match p with
  | EmptyString => true
  | String c p' => Ascii.eqb c "%" && only_percent p'
  end.

(** The search that follows a [%]: the text positions whose character is
    the first literal of the rest of the pattern are tried in turn, with
    [rest] for what follows that character, until an attempt says
    something else than [LIKE_FALSE]. *)
Fixpoint scan (firstpat : ascii) (rest : string -> LikeResult) (t : string) : LikeResult :=
  match t with
  | EmptyString => LIKE_ABORT
  | String d t' =>
      if Ascii.eqb d firstpat then
        match rest t' with
        | LIKE_FALSE => scan firstpat rest t'
        | matched => matched
        end
      else scan firstpat rest t'
  end.

(** [MatchText] of the engine ([like_match.c]): [%] stands for any run of
    characters, [_] for one character, a backslash makes the next pattern
    character literal.  [after_percent] is the part of the loop that
    follows a [%]: further [%] and [_] are passed over, then the text is
    searched.  A backslash that ends the pattern raises the error when
    the match comes to it with text left to compare, or when the search
    after a [%] starts with it. *)
Fixpoint MatchText (p t : string) {struct p} : LikeResult :=
  match p, t with
  | EmptyString, EmptyString => LIKE_TRUE
  | EmptyString, String _ _ => LIKE_FALSE
  | String _ _, EmptyString => if only_percent p then LIKE_TRUE else LIKE_ABORT
  | String c p', String d t' =>
      if Ascii.eqb c "\" then
        match p' with
        | EmptyString => LIKE_ERROR
        | String e p'' => if Ascii.eqb e d then MatchText p'' t' else LIKE_FALSE
        end
      else if Ascii.eqb c "%" then after_percent p' t
      else if Ascii.eqb c "_" then MatchText p' t'
      else if Ascii.eqb c d then MatchText p' t' else LIKE_FALSE
  end
with after_percent (p t : string) {struct p} : LikeResult :=
  match p with
  | EmptyString => LIKE_TRUE
  | String c p' =>
      if Ascii.eqb c "%" then after_percent p' t
      else if Ascii.eqb c "_" then
        match t with
        | EmptyString => LIKE_ABORT
        | String _ t' => after_percent p' t'
        end
      else if Ascii.eqb c "\" then
        match p' with
        | EmptyString => LIKE_ERROR
        | String e p'' => scan e (MatchText p'') t
        end
      else scan c (MatchText p') t
  end.

(** [text LIKE pattern] is true. *)
Definition like (p s : string) : bool :=
  match MatchText p s with
  | LIKE_TRUE => true
  | _ => false
  end.

(** [text LIKE pattern] raises the error. *)
Definition like_raises (p s : string) : bool :=
  match MatchText p s with
  | LIKE_ERROR => true
  | _ => false
  end.

(** [text ILIKE pattern]: both sides are folded to lower case (the ASCII
    letters in the model), then matched. *)
Definition ilike (text pattern : string) : bool := like (lower pattern) (lower text).

Definition ilike_raises (text pattern : string) : bool :=
  like_raises (lower pattern) (lower text).

(** ** Rows *)

Record User := {
  u_id : Z;
  u_username : string;
  u_avatar : string }.

Record StreamRow := {
  sh_user_id : Z;
  sh_ts : option string;
  sh_track_name : option string;
  sh_artist_name : option string;
  sh_album_name : option string;
  sh_ms_played : option Z;
  sh_spotify_track_uri : option string;
  sh_platform : option string }.

Record Comment := {
  c_id : Z;
  c_user_id : Z;
  c_artist_name : string;
  c_content : string;
  c_likes : Z }.

Record CommentLike := {
  cl_comment_id : Z;
  cl_user_id : Z }.

(** The database: one list per table, in insertion order, and the
    sequence behind [users.id SERIAL] (its last value).  The [id] and
    [created_at] columns of [streaming_history] and [comment_likes] are
    read by no statement of the server and are left out. *)
Record Db := {
  users : list User;
  users_id_seq : Z;
  streaming_history : list StreamRow;
  comments : list Comment;
  comment_likes : list CommentLike }.

(** The state after [initDb] on a fresh database. *)
Definition empty_db : Db :=
  {| users := []; users_id_seq := 0; streaming_history := [];
     comments := []; comment_likes := [] |}.

(** ** Column types *)

(** What the engine's version and settings decide: whether a text is read
    as a [TIMESTAMP] (the input of the column [ts]), and which integer a
    text parameter is read as, if any (the input of [INTEGER]). *)
Class Engine := {
  timestamp_in : string -> bool;
  integer_in : string -> option Z }.

Definition fits (n : nat) (s : string) : bool := (String.length s <=? n)%nat.

(** A text without its trailing spaces. *)
Fixpoint rtrim (s : string) : string :=
  match s with
  | EmptyString => EmptyString
  | String c s' =>
      match rtrim s' with
      | EmptyString => if Ascii.eqb c " " then EmptyString else String c EmptyString
      | t => String c t
      end
  end.

(** The assignment of a text to a [VARCHAR(n)] column: a text of at most
    [n] characters is stored as it is; a longer one is cut to [n]
    characters when what is cut off are spaces, and is refused ([None])
    otherwise. *)
Definition varchar (n : nat) (s : string) : option string :=
  if fits n s then Some s
  else if fits n (rtrim s) then Some (String.substring 0 n s)
  else None.

(** The same for a value that may be [NULL]. *)
Definition varchar_opt (n : nat) (o : option string) : option (option string) :=
  match o with
  | Some s => option_map Some (varchar n s)
  | None => Some None
  end.

Definition int4 (n : Z) : bool := (-2147483648 <=? n) && (n <=? 2147483647).

(** The assignment of a number parameter to an [INTEGER] column. *)
Definition integer_opt (o : option Js.Number) : option (option Z) :=
  match o with
  | Some (Js.Integer z) => if int4 z then Some (Some z) else None
  | Some (Js.Fraction _) => None
  | None => Some None
  end.

Definition has_user (d : Db) (id : Z) : bool :=
  existsb (fun u => u_id u =? id) (users d).

Definition has_comment (d : Db) (id : Z) : bool :=
  existsb (fun c => c_id c =? id) (comments d).

(** The eight parameters of one row of
    [INSERT INTO streaming_history (user_id, ts, track_name, artist_name,
    album_name, ms_played, spotify_track_uri, platform)], as the driver
    receives them. *)
Record Values := {
  v_user_id : Z;
  v_ts : option string;
  v_track_name : option string;
  v_artist_name : option string;
  v_album_name : option string;
  v_ms_played : option Js.Number;
  v_spotify_track_uri : option string;
  v_platform : option string }.

Section Rows.
Context {engine : Engine}.

(** The row that the engine makes of the parameters: [ts TIMESTAMP NOT
    NULL] must be a text that reads as a timestamp (the stored row keeps
    the text), the [VARCHAR] columns take their texts as [varchar] says,
    [ms_played INTEGER] takes an integer of its range.  [None]: the engine
    refuses the row. *)
Definition stream_row_in (v : Values) : option StreamRow :=
  match v_ts v with
  | Some t =>
      if timestamp_in t then
        match varchar_opt 500 (v_track_name v), varchar_opt 500 (v_artist_name v),
              varchar_opt 500 (v_album_name v), integer_opt (v_ms_played v),
              varchar_opt 255 (v_spotify_track_uri v), varchar_opt 50 (v_platform v) with
        | Some track, Some artist, Some album, Some ms, Some uri, Some plat =>
            Some {| sh_user_id := v_user_id v; sh_ts := Some t;
                    sh_track_name := track; sh_artist_name := artist;
                    sh_album_name := album; sh_ms_played := ms;
                    sh_spotify_track_uri := uri; sh_platform := plat |}
        | _, _, _, _, _, _ => None
        end
      else None
  | None => None
  end.

End Rows.

Definition add_history (d : Db) (rows : list StreamRow) : Db :=
  {| users := users d; users_id_seq := users_id_seq d;
     streaming_history := streaming_history d ++ rows;
     comments := comments d; comment_likes := comment_likes d |}.

(** ** Statements *)

(** [SELECT id FROM users WHERE username = $1] *)
Definition select_users_by_username (d : Db) (name : string) : list User :=
  List.filter (fun u => String.eqb (u_username u) name) (users d).

(** [SELECT ... FROM users WHERE username ILIKE $1]: the rows that match. *)
Definition select_users_ilike (d : Db) (pattern : string) : list User :=
  List.filter (fun u => ilike (u_username u) pattern) (users d).

(** The statement as the engine runs it: it fails ([None]) when the
    pattern raises the error at a row. *)
Definition query_users_ilike (d : Db) (pattern : string) : option (list User) :=
  if existsb (fun u => ilike_raises (u_username u) pattern) (users d) then None
  else Some (select_users_ilike d pattern).

(** [SELECT * FROM users WHERE id = $1] *)
Definition select_users_by_id (d : Db) (id : Z) : list User :=
  List.filter (fun u => u_id u =? id) (users d).

(** [INSERT INTO users (username, avatar) VALUES ($1, $2) RETURNING id].
    The texts are brought to their columns first: when one of them is
    refused the statement fails before the sequence is asked.  The
    identifier then comes from the sequence, which fails at its maximum
    and otherwise advances, also when the row is refused afterwards: the
    row is refused when the identifier is taken (primary key) or when the
    name, as it would be stored, is taken ([UNIQUE]).  [inl] is the thrown
    error, with the store it leaves. *)
Definition insert_user (d : Db) (name av : string) : Db + (Db * Z) :=
  match varchar 255 name, varchar 50 av with
  | Some name', Some av' =>
      let id := users_id_seq d + 1 in
      if int4 id then
        if negb (has_user d id) &&
           negb (existsb (fun u => String.eqb (u_username u) name') (users d))
        then inr ({| users := users d ++ [{| u_id := id; u_username := name';
                                             u_avatar := av' |}];
                     users_id_seq := id;
                     streaming_history := streaming_history d;
                     comments := comments d; comment_likes := comment_likes d |}, id)
        else inl {| users := users d; users_id_seq := id;
                    streaming_history := streaming_history d;
                    comments := comments d; comment_likes := comment_likes d |}
      else inl d
  | _, _ => inl d
  end.

(** [INSERT INTO users (id, username, avatar) VALUES ($1, $2, $3)
    ON CONFLICT DO NOTHING]: the identifier is given, the sequence is not
    consulted. [None] is the thrown error. *)
Definition insert_user_with_id (d : Db) (id : Z) (name av : string) : option Db :=
  match varchar 255 name, varchar 50 av with
  | Some name', Some av' =>
      if int4 id then
        if has_user d id || existsb (fun u => String.eqb (u_username u) name') (users d)
        then Some d
        else Some {| users := users d ++ [{| u_id := id; u_username := name';
                                             u_avatar := av' |}];
                     users_id_seq := users_id_seq d;
                     streaming_history := streaming_history d;
                     comments := comments d; comment_likes := comment_likes d |}
      else None
  | _, _ => None
  end.

(** [SELECT COUNT( * ) FROM streaming_history WHERE user_id = $1] *)
Definition count_history (d : Db) (id : Z) : nat :=
  length (List.filter (fun r => sh_user_id r =? id) (streaming_history d)).

(** [INSERT INTO streaming_history (...) VALUES (...), (...), ...]: one
    statement, all rows or none.  Every row must reference a user
    ([user_id REFERENCES users(id)]) and be taken by the engine.  [None]
    is the thrown error. *)
Definition insert_streaming_history {engine : Engine} (d : Db) (values : list Values)
    : option Db :=
  if forallb (fun v => has_user d (v_user_id v)) values then
    match mapM stream_row_in values with
    | Some rows => Some (add_history d rows)
    | None => None
    end
  else None.

(** [SELECT COUNT( * ) FROM comment_likes WHERE comment_id = $1] *)
Definition count_likes (d : Db) (cid : Z) : Z :=
  Z.of_nat (length (List.filter (fun l => cl_comment_id l =? cid) (comment_likes d))).

(** [INSERT INTO comment_likes (comment_id, user_id) VALUES ($1, $2)
    ON CONFLICT DO NOTHING]: a pair already present
    ([UNIQUE(comment_id, user_id)]) is left alone; a new pair must
    reference an existing comment and an existing user. *)
Definition insert_comment_like (d : Db) (cid uid : Z) : option Db :=
  if int4 cid && int4 uid then
    if existsb (fun l => (cl_comment_id l =? cid) && (cl_user_id l =? uid)) (comment_likes d)
    then Some d
    else if has_comment d cid && has_user d uid
    then Some {| users := users d; users_id_seq := users_id_seq d;
                 streaming_history := streaming_history d;
                 comments := comments d;
                 comment_likes := comment_likes d ++ [{| cl_comment_id := cid; cl_user_id := uid |}] |}
    else None
  else None.

(** [UPDATE comments SET likes = (SELECT COUNT( * ) FROM comment_likes
    WHERE comment_id = $1) WHERE id = $1] *)
Definition update_comment_likes (d : Db) (cid : Z) : Db :=
  let n := count_likes d cid in
  {| users := users d; users_id_seq := users_id_seq d;
     streaming_history := streaming_history d;
     comments := map (fun c => if c_id c =? cid
                               then {| c_id := c_id c; c_user_id := c_user_id c;
                                       c_artist_name := c_artist_name c;
                                       c_content := c_content c; c_likes := n |}
                               else c) (comments d);
     comment_likes := comment_likes d |}.

(** [SELECT likes FROM comments WHERE id = $1] *)
Definition select_comment_likes (d : Db) (cid : Z) : list Z :=
  map c_likes (List.filter (fun c => c_id c =? cid) (comments d)).

End Pg.

(* ================================================================== *)
(** * The server *)
(* ================================================================== *)

Module Server.
Import Pg.

Definition DEMO_USER_ID : Z := 1.
Definition DEMO_USERNAME : string := "David Stouck".
Definition BATCH_SIZE : nat := 500.

(** ** Input files *)

(** One entry of a streaming-history export, its fields typed as the
    export has them: texts and a number.  A field that is absent or
    [null] is [None]. *)
Record Entry := {
  ts : option string;
  master_metadata_track_name : option string;
  master_metadata_album_artist_name : option string;
  master_metadata_album_album_name : option string;
  ms_played : option Js.Number;
  spotify_track_uri : option string;
  platform : option string }.

(** What [JSON.parse(fs.readFileSync(file, 'utf-8'))] gives: an error (the
    file cannot be read, is not JSON, or is not an array) or the elements
    of the array.  An element is an entry or [null] ([None]); an element
    that is neither an object nor [null] has no fields and counts as an
    entry whose fields are all absent. *)
Inductive FileData :=
| Unreadable
| Parsed (data : list (option Entry)).

(** A file with its name: an uploaded file, or a file of the working
    directory as [fs.readdirSync('.')] lists it. *)
Record File := {
  originalname : string;
  content : FileData }.

(** ** Observable effects *)

(** What a run leaves besides the store: each
    [INSERT INTO streaming_history ... VALUES ...] handed to [pool.query],
    with its rows, whether the engine accepts it or not, and each error
    logged by the [catch] of a file or of a synchronised user. *)
Inductive Event :=
| InsertStatement (values : list Values)
| FileErrorLogged (file : string)
| UserErrorLogged (username : string).

Record Run := {
  run_db : Db;
  run_trace : list Event }.

Definition emit (e : Event) (st : Run) : Run :=
  {| run_db := run_db st; run_trace := run_trace st ++ [e] |}.

Definition start_run (d : Db) : Run := {| run_db := d; run_trace := [] |}.

(** ** Record validator *)

(** Truth value of a string-or-null field. *)
Definition truthy (o : option string) : bool :=
  match o with
  | Some s => negb (String.eqb s EmptyString)
  | None => false
  end.

(** [x > 0] for a number-or-null field. *)
Definition gt_zero (o : option Js.Number) : bool :=
  match o with
  | Some (Js.Integer n) => 0 <? n
  | Some (Js.Fraction positive) => positive
  | None => false
  end.

(** [r.master_metadata_track_name && r.ms_played > 0] *)
Definition is_valid (r : Entry) : bool :=
  truthy (master_metadata_track_name r) && gt_zero (ms_played r).

(** [data.filter(r => r.master_metadata_track_name && r.ms_played > 0)]:
    reading a field of [null] throws a [TypeError] ([None]). *)
Fixpoint validRecords (data : list (option Entry)) : option (list Entry) :=
  match data with
  | [] => Some []
  | None :: _ => None
  | Some r :: rest =>
      match validRecords rest with
      | Some kept => Some (if is_valid r then r :: kept else kept)
      | None => None
      end
  end.

(** ** Batch inserter *)

(** The eight values pushed for one record. *)
Definition values_of (userId : Z) (record : Entry) : Values :=
  {| v_user_id := userId;
     v_ts := ts record;
     v_track_name := master_metadata_track_name record;
     v_artist_name := master_metadata_album_artist_name record;
     v_album_name := master_metadata_album_album_name record;
     v_ms_played := ms_played record;
     v_spotify_track_uri := spotify_track_uri record;
     v_platform := platform record |}.

(** The row of a record whose values are stored as they are. *)
Definition row_of (userId : Z) (record : Entry) : StreamRow :=
  {| sh_user_id := userId;
     sh_ts := ts record;
     sh_track_name := master_metadata_track_name record;
     sh_artist_name := master_metadata_album_artist_name record;
     sh_album_name := master_metadata_album_album_name record;
     sh_ms_played := match ms_played record with
                     | Some (Js.Integer ms) => Some ms
                     | _ => None
                     end;
     sh_spotify_track_uri := spotify_track_uri record;
     sh_platform := platform record |}.

(** [ORDER BY total_ms DESC] of the leaderboard, see below: larger totals
    first, [NULL] before them. *)
Record ArtistTotal := {
  at_user : User;
  at_total_ms : option Z;
  at_song_count : nat }.

Definition total_desc (a b : ArtistTotal) : Prop :=
  match at_total_ms a, at_total_ms b with
  | None, _ => True
  | Some _, None => False
  | Some x, Some y => y <= x
  end.

#[export] Instance total_desc_dec : RelDecision total_desc.
Proof.
  intros a b. unfold total_desc.
  destruct (at_total_ms a), (at_total_ms b); apply _.
Defined.

Section Handlers.
Context {engine : Engine}.

(** [for (let i = 0; i < validRecords.length; i += BATCH_SIZE)]: the loop
    from index [i] on.  The Boolean is [false] when a statement threw.
    [fuel] bounds the number of iterations. *)
Fixpoint insert_batches (fuel i : nat) (records : list Entry) (userId : Z)
    (st : Run) (totalRecords : nat) : Run * nat * bool :=
  match fuel with
  | O => (st, totalRecords, true)
  | S fuel' =>
      if (i <? length records)%nat then
        let batch := Js.slice i (i + BATCH_SIZE) records in
        let values := map (values_of userId) batch in
        let st1 := emit (InsertStatement values) st in
        match insert_streaming_history (run_db st) values with
        | None => (st1, totalRecords, false)
        | Some d' =>
            insert_batches fuel' (i + BATCH_SIZE) records userId
              {| run_db := d'; run_trace := run_trace st1 |}
              (totalRecords + length batch)%nat
        end
      else (st, totalRecords, true)
  end.

(** The body of [for (const file of files) { try { ... } catch (e) { ... } }]
    for one file: parse, validate, insert by batches; an error is logged
    and ends the work on this file.  The three copies of this loop (upload,
    [loadDemoData], [syncAllUsersFromFiles]) differ in their
    [console.log] lines and in the [fs.unlinkSync] of the upload, which
    are not part of the model. *)
Definition process_file (userId : Z) (file : File) (st : Run) (totalRecords : nat)
    : Run * nat :=
  match content file with
  | Unreadable => (emit (FileErrorLogged (originalname file)) st, totalRecords)
  | Parsed data =>
      match validRecords data with
      | None => (emit (FileErrorLogged (originalname file)) st, totalRecords)
      | Some records =>
          match insert_batches (length records) 0 records userId st totalRecords with
          | (st', total', true) => (st', total')
          | (st', total', false) =>
              (emit (FileErrorLogged (originalname file)) st', total')
          end
      end
  end.

Fixpoint process_files (userId : Z) (files : list File) (st : Run) (totalRecords : nat)
    : Run * nat :=
  match files with
  | [] => (st, totalRecords)
  | file :: rest =>
      let '(st', total') := process_file userId file st totalRecords in
      process_files userId rest st' total'
  end.

(** ** [POST /api/upload] *)

(** A multipart request: [req.files] is the array of its files. *)
Record UploadRequest := {
  body_username : option string;
  uuid : string;
  files : list File }.

Inductive UploadResponse :=
| UploadOk (userId : Z) (recordsImported : nat)
| UploadServerError.

(** [req.body.username || `User_${uuidv4().slice(0, 8)}`]; [uuid] is what
    [uuidv4()] returned while this request was handled: a request that is
    sent again comes with another draw. *)
Definition upload_username (req : UploadRequest) : string :=
  match body_username req with
  | Some s => if truthy (Some s) then s
              else String.append "User_" (Js.slice0 8 (uuid req))
  | None => String.append "User_" (Js.slice0 8 (uuid req))
  end.

(** The user of the upload: the first row with exactly this name, else a
    new row with the avatar ['goat']. *)
Definition upload_user (d : Db) (username : string) : Db + (Db * Z) :=
  match select_users_by_username d username with
  | u :: _ => inr (d, u_id u)
  | [] => insert_user d username "goat"
  end.

Definition upload (d : Db) (req : UploadRequest) : Run * UploadResponse :=
  match upload_user d (upload_username req) with
  | inl d' => (start_run d', UploadServerError)
  | inr (d', userId) =>
      let '(st, totalRecords) := process_files userId (files req) (start_run d') 0%nat in
      (st, UploadOk userId totalRecords)
  end.

(** The handler on a request that is not multipart: the middleware leaves
    [req.files] undefined, the user is resolved as before, and
    [for (const file of files)] throws into the outer [catch]. *)
Definition upload_not_multipart (d : Db) (username : option string) (uuid : string)
    : Db * UploadResponse :=
  match upload_user d (upload_username {| body_username := username; uuid := uuid;
                                          files := [] |}) with
  | inl d' => (d', UploadServerError)
  | inr (d', _) => (d', UploadServerError)
  end.

(** ** Startup of [index.ts]: [ensureDemoUser] and [loadDemoData] *)

Definition ensureDemoUser (d : Db) : option Db :=
  match select_users_by_id d DEMO_USER_ID with
  | [] => insert_user_with_id d DEMO_USER_ID DEMO_USERNAME "goat"
  | _ :: _ => Some d
  end.

Definition is_history_file (f : string) : bool :=
  Js.includes "Streaming_History_Audio" f && Js.endsWith ".json" f.

Definition loadDemoData (d : Db) (dir : list File) : Run * nat :=
  if (0 <? count_history d DEMO_USER_ID)%nat then (start_run d, 0%nat)
  else
    process_files DEMO_USER_ID
      (List.filter (fun f => is_history_file (originalname f)) dir)
      (start_run d) 0%nat.

(** ** Startup of the later server: [syncAllUsersFromFiles] *)

Definition is_user_history_file (f : string) : bool :=
  Js.startsWith "User_" f && Js.includes "Streaming_History_Audio" f &&
  Js.endsWith ".json" f.

(** [userFilesMap[rawName].push(file)], creating the array first when the
    key is new: the object's own keys in insertion order. *)
Fixpoint push_file (rawName : string) (file : File) (m : list (string * list File))
    : list (string * list File) :=
  match m with
  | [] => [(rawName, [file])]
  | (k, fs) :: m' =>
      if String.eqb k rawName then (k, fs ++ [file]) :: m'
      else (k, fs) :: push_file rawName file m'
  end.

(** The grouping loop.  For a name that the empty object inherits,
    [userFilesMap[rawName]] is a function, no array is created and
    [push] is not callable: the [TypeError] ([None]) leaves the function. *)
Fixpoint userFilesMap (fs : list File) (m : list (string * list File))
    : option (list (string * list File)) :=
  match fs with
  | [] => Some m
  | file :: rest =>
      match Js.match_user_file (originalname file) with
      | Some g =>
          let rawName := Js.trim (Js.replace_underscores g) in
          if Js.is_inherited rawName then None
          else userFilesMap rest (push_file rawName file m)
      | None => userFilesMap rest m
      end
  end.

Fixpoint insert_by_index (x : N * (string * list File)) (l : list (N * (string * list File)))
    : list (N * (string * list File)) :=
  match l with
  | [] => [x]
  | y :: l' => if (fst x <=? fst y)%N then x :: l else y :: insert_by_index x l'
  end.

(** [Object.entries]: the array-index keys in ascending order, then the
    other keys in insertion order. *)
Definition object_entries (m : list (string * list File)) : list (string * list File) :=
  map snd
    (fold_right insert_by_index []
       (omap (fun e => match Js.array_index (fst e) with
                       | Some n => Some (n, e)
                       | None => None
                       end) m))
  ++ List.filter (fun e => match Js.array_index (fst e) with
                           | Some _ => false
                           | None => true
                           end) m.

(** The user of a synchronised name: the first row whose name matches it
    under [ILIKE], else a new row with the avatar ['goat'].  [inl] is the
    thrown error of either statement. *)
Definition sync_user_id (d : Db) (username : string) : Db + (Db * Z) :=
  match query_users_ilike d username with
  | None => inl d
  | Some (u :: _) => inr (d, u_id u)
  | Some [] => insert_user d username "goat"
  end.

(** One turn of [for (const [username, userFiles] of Object.entries(...))]. *)
Definition sync_user (st : Run) (entry : string * list File) : Run :=
  let '(username, userFiles) := entry in
  match sync_user_id (run_db st) username with
  | inl d' => emit (UserErrorLogged username) {| run_db := d'; run_trace := run_trace st |}
  | inr (d', userId) =>
      let st1 := {| run_db := d'; run_trace := run_trace st |} in
      if (0 <? count_history d' userId)%nat then st1
      else fst (process_files userId userFiles st1 0%nat)
  end.

Definition sync_users (st : Run) (entries : list (string * list File)) : Run :=
  fold_left sync_user entries st.

Definition syncAllUsersFromFiles (d : Db) (dir : list File) : Run :=
  match userFilesMap (List.filter (fun f => is_user_history_file (originalname f)) dir) [] with
  | None => start_run d
  | Some m => sync_users (start_run d) (object_entries m)
  end.

(** ** [GET /api/user/:userId?] *)

Definition is_hex_digit (c : ascii) : bool :=
  let n := nat_of_ascii c in
  (Js.is_digit c || (65 <=? n) && (n <=? 70) || (97 <=? n) && (n <=? 102))%nat.

Definition strip_sign (s : string) : string :=
  match s with
  | String c s' => if Ascii.eqb c "+" || Ascii.eqb c "-" then s' else s
  | EmptyString => s
  end.

(** [isNaN(parseInt(s))]: after the leading white space and an optional
    sign, and after the prefix [0x] or [0X] if there is one, no digit
    of the radix follows. *)
Definition parseInt_isNaN (s : string) : bool :=
  let t := strip_sign (Js.trimStart s) in
  if String.prefix "0x" t || String.prefix "0X" t then
    match String.substring 2 1 t with
    | String c _ => negb (is_hex_digit c)
    | EmptyString => true
    end
  else
    match t with
    | String c _ => negb (Js.is_digit c)
    | EmptyString => true
    end.

(** The rows of [userQuery]; [None] when the statement throws: the
    pattern raises at a row, or the engine does not read the text as an
    [INTEGER]. *)
Definition profile_user_rows (d : Db) (param : option string) : option (list User) :=
  match param with
  | Some s =>
      if truthy (Some s) then
        if parseInt_isNaN s then query_users_ilike d s
        else
          match integer_in s with
          | Some id => Some (select_users_by_id d id)
          | None => None
          end
      else Some (select_users_by_id d DEMO_USER_ID)
  | None => Some (select_users_by_id d DEMO_USER_ID)
  end.

Definition user_history (d : Db) (id : Z) : list StreamRow :=
  List.filter (fun r => sh_user_id r =? id) (streaming_history d).

(** [COALESCE(SUM(ms_played), 0)] *)
Definition total_ms_of (rows : list StreamRow) : Z :=
  fold_right Z.add 0 (omap sh_ms_played rows).

(** [COUNT(DISTINCT track_name)]: the different non-null names. *)
Definition count_distinct_tracks (rows : list StreamRow) : nat :=
  length (remove_dups (omap sh_track_name rows)).

Record Stats := {
  totalMinutes : Z;
  totalSongs : nat }.

Inductive ProfileResponse :=
| ProfileOk (user : User) (stats : Stats)
| ProfileNotFound
| ProfileServerError.

(** The [user] and [stats] members of the response ([topArtists] and
    [topSongs] are independent of them and left out). *)
Definition get_user (d : Db) (param : option string) : ProfileResponse :=
  match profile_user_rows d param with
  | None => ProfileServerError
  | Some [] => ProfileNotFound
  | Some (user :: _) =>
      let rows := user_history d (u_id user) in
      ProfileOk user
        {| totalMinutes := Js.round_div (total_ms_of rows) 60000;
           totalSongs := count_distinct_tracks rows |}
  end.

(** ** [GET /api/artist/:artistName] *)

(** A row of [leaderboardQuery] is an [ArtistTotal]; [SUM] of no non-null
    value is [NULL]. *)

(** [streaming_history sh JOIN users u ON sh.user_id = u.id
    WHERE sh.artist_name ILIKE $1], the rows joined to the user [id]. *)
Definition artist_rows (d : Db) (artistName : string) (id : Z) : list StreamRow :=
  List.filter
    (fun r => (sh_user_id r =? id) &&
              match sh_artist_name r with
              | Some a => ilike a artistName
              | None => false
              end)
    (streaming_history d).

Definition sum_ms (rows : list StreamRow) : option Z :=
  match omap sh_ms_played rows with
  | [] => None
  | l => Some (fold_right Z.add 0 l)
  end.

(** [GROUP BY u.id, u.username, u.avatar]: one group for each user (the
    identifier is the primary key) that has a joined row. *)
Definition artist_groups (d : Db) (artistName : string) : list ArtistTotal :=
  omap (fun u =>
          match artist_rows d artistName (u_id u) with
          | [] => None
          | rows => Some {| at_user := u; at_total_ms := sum_ms rows;
                            at_song_count := count_distinct_tracks rows |}
          end) (users d).

(** The statement's result: the groups, ordered, the first ten.  The order
    among equal totals is the one the sort happens to give. *)
Definition leaderboardQuery (d : Db) (artistName : string) : list ArtistTotal :=
  take 10 (merge_sort total_desc (artist_groups d artistName)).

Record LeaderboardEntry := {
  rank : nat;
  userId : Z;
  lb_username : string;
  lb_avatar : string;
  minutes : option Z;
  songCount : nat;
  isCurrentUser : bool }.

(** [leaderboardQuery.rows.map((r, i) => ({ rank: i + 1, ... }))];
    [minutes] is [None] (NaN) for a [NULL] total. *)
Definition leaderboard (d : Db) (artistName : string) : list LeaderboardEntry :=
  imap (fun i r =>
          {| rank := (i + 1)%nat;
             userId := u_id (at_user r);
             lb_username := u_username (at_user r);
             lb_avatar := u_avatar (at_user r);
             minutes := option_map (fun t => Js.round_div t 60000) (at_total_ms r);
             songCount := at_song_count r;
             isCurrentUser := u_id (at_user r) =? DEMO_USER_ID |})
       (leaderboardQuery d artistName).

(** Whether one of the two statements of the handler fails: each examines
    the artist names of its table ([WHERE sh.artist_name ILIKE $1],
    [WHERE c.artist_name ILIKE $1]; a [NULL] name is not compared), and
    the pattern raises the error at one of them. *)
Definition artist_queries_raise (d : Db) (artistName : string) : bool :=
  existsb (fun r => match sh_artist_name r with
                    | Some a => ilike_raises a artistName
                    | None => false
                    end) (streaming_history d) ||
  existsb (fun c => ilike_raises (c_artist_name c) artistName) (comments d).

Inductive ArtistResponse :=
| ArtistOk (leaderboard : list LeaderboardEntry)
| ArtistServerError.

(** The [leaderboard] member of the handler's response.  [decoded] is
    what [decodeURIComponent(req.params.artistName)] gives: the artist
    name, or the thrown [URIError] ([None]).  The [comments] member, which
    is built from the second statement, is left out. *)
Definition get_artist (d : Db) (decoded : option string) : ArtistResponse :=
  match decoded with
  | None => ArtistServerError
  | Some artistName =>
      if artist_queries_raise d artistName then ArtistServerError
      else ArtistOk (leaderboard d artistName)
  end.

(** ** [POST /api/comment/:commentId/like] *)

Inductive LikeResponse :=
| LikeOk (likes : Z)
| LikeServerError.

(** The handler for the user [userId] ([DEMO_USER_ID] in [index.ts]). *)
Definition like_as (userId : Z) (d : Db) (commentId : Z) : Db * LikeResponse :=
  match insert_comment_like d commentId userId with
  | None => (d, LikeServerError)
  | Some d1 =>
      let d2 := update_comment_likes d1 commentId in
      match select_comment_likes d2 commentId with
      | likes :: _ => (d2, LikeOk likes)
      | [] => (d2, LikeServerError)
      end
  end.

Definition like_comment (d : Db) (commentId : Z) : Db * LikeResponse :=
  like_as DEMO_USER_ID d commentId.

End Handlers.

End Server.

(* ================================================================== *)
(** * More of the server: comments, sign-up, search, top lists, startup *)
(* ================================================================== *)

Module Handlers.
Import Pg Server.

(** ** [POST /api/artist/:artistName/comment] *)

(** [INSERT INTO comments (user_id, artist_name, content) VALUES ($1, $2, $3)
    RETURNING *].  [id] is the value that the sequence of [comments.id]
    hands out.  The row is refused when [content] is missing ([NOT NULL]),
    when [VARCHAR(500)] refuses the artist name, when the identifier is
    taken or when the user does not exist; [likes] takes its default 0. *)
Definition insert_comment (d : Db) (id uid : Z) (artist : string) (content : option string)
    : option (Db * Comment) :=
  match content, varchar 500 artist with
  | Some text, Some artist' =>
      if int4 id && int4 uid && negb (has_comment d id) && has_user d uid
      then
        let c := {| c_id := id; c_user_id := uid; c_artist_name := artist';
                    c_content := text; c_likes := 0 |} in
        Some ({| users := users d; users_id_seq := users_id_seq d;
                 streaming_history := streaming_history d;
                 comments := comments d ++ [c];
                 comment_likes := comment_likes d |}, c)
      else None
  | _, _ => None
  end.

Inductive CommentResponse :=
| CommentOk (id : Z) (content : string) (likes : Z) (username avatar : string)
| CommentServerError.

(** The handler for the user [userId] ([DEMO_USER_ID] in [index.ts]).
    [decoded] is what [decodeURIComponent(req.params.artistName)] gives:
    the artist name, or the thrown [URIError] ([None]), which the
    handler's [catch] answers before any statement is sent.  [createdAt]
    is left out. *)
Definition comment_as (userId : Z) (d : Db) (id : Z) (decoded : option string)
    (content : option string) : Db * CommentResponse :=
  match decoded with
  | None => (d, CommentServerError)
  | Some artistName =>
      match insert_comment d id userId artistName content with
      | None => (d, CommentServerError)
      | Some (d', c) =>
          match select_users_by_id d' userId with
          | u :: _ => (d', CommentOk (c_id c) (c_content c) 0 (u_username u) (u_avatar u))
          | [] => (d', CommentServerError)
          end
      end
  end.

(** ** [POST /api/auth/signup] *)

Inductive SignupResponse :=
| SignupOk (user : User)
| SignupBadRequest (error : string)
| SignupServerError.

(** The [password_hash] column, the token and the cookie are not part of
    the model: the handler as it acts on [id], [username] and [avatar].
    The user of the answer is the row that [RETURNING id, username,
    avatar] gives; a trimmed name is stored as it is. *)
Definition signup (d : Db) (username : option string) : Db * SignupResponse :=
  match username with
  | Some s =>
      if truthy (Some s) && (2 <=? String.length (Js.trim s))%nat then
        match query_users_ilike d (Js.trim s) with
        | None => (d, SignupServerError)
        | Some (_ :: _) => (d, SignupBadRequest "Username already exists")
        | Some [] =>
            match insert_user d (Js.trim s) "goat" with
            | inl d' => (d', SignupServerError)
            | inr (d', id) =>
                (d', SignupOk {| u_id := id; u_username := Js.trim s; u_avatar := "goat" |})
            end
        end
      else (d, SignupBadRequest "Username must be at least 2 characters")
  | None => (d, SignupBadRequest "Username must be at least 2 characters")
  end.

(** ** [GET /api/users/search] *)

(** [`%${query}%`]: a missing [q] is spelled [undefined]. *)
Definition search_pattern (q : option string) : string :=
  String.append "%"
    (String.append (match q with Some s => s | None => "undefined" end) "%").

(** The rows of [... WHERE username ILIKE $1 LIMIT 10]. *)
Definition search_users (d : Db) (q : option string) : list User :=
  take 10 (select_users_ilike d (search_pattern q)).

(** ** The top lists of [GET /api/user/:userId?] *)

(** A row of a [GROUP BY] query with [SUM(ms_played)] and [COUNT( * )]. *)
Record TopRow (K : Type) := {
  top_key : K;
  top_total : option Z;
  top_plays : nat }.
Arguments top_key {K}.
Arguments top_total {K}.
Arguments top_plays {K}.

(** The rows of a group: the key is not [NULL] and is [k]. *)
Definition rows_of_key {K} `{EqDecision K} (key : StreamRow -> option K) (k : K)
    (rows : list StreamRow) : list StreamRow :=
  List.filter (fun r => bool_decide (key r = Some k)) rows.

Definition group_by {K} `{EqDecision K} (key : StreamRow -> option K)
    (rows : list StreamRow) : list (TopRow K) :=
  map (fun k => {| top_key := k;
                   top_total := sum_ms (rows_of_key key k rows);
                   top_plays := length (rows_of_key key k rows) |})
      (remove_dups (omap key rows)).

(** [ORDER BY total_ms DESC]: larger totals first, [NULL] before them. *)
Definition top_desc {K} (a b : TopRow K) : Prop :=
  match top_total a, top_total b with
  | None, _ => True
  | Some _, None => False
  | Some x, Some y => y <= x
  end.

#[export] Instance top_desc_dec {K} : RelDecision (@top_desc K).
Proof.
  intros a b. unfold top_desc.
  destruct (top_total a), (top_total b); apply _.
Defined.

(** [GROUP BY ... ORDER BY total_ms DESC LIMIT 10] *)
Definition top_ten {K} `{EqDecision K} (key : StreamRow -> option K)
    (rows : list StreamRow) : list (TopRow K) :=
  take 10 (merge_sort top_desc (group_by key rows)).

(** [WHERE artist_name IS NOT NULL GROUP BY artist_name] *)
Definition artist_key (r : StreamRow) : option string := sh_artist_name r.

(** [WHERE track_name IS NOT NULL GROUP BY track_name, artist_name] *)
Definition song_key (r : StreamRow) : option (string * option string) :=
  match sh_track_name r with
  | Some t => Some (t, sh_artist_name r)
  | None => None
  end.

Definition topArtistsQuery (d : Db) (id : Z) : list (TopRow string) :=
  top_ten artist_key (user_history d id).

Definition topSongsQuery (d : Db) (id : Z) : list (TopRow (string * option string)) :=
  top_ten song_key (user_history d id).

Record TopArtist := {
  ta_name : string;
  ta_minutes : option Z;
  ta_plays : nat }.

Record TopSong := {
  so_name : string;
  so_artist : option string;
  so_minutes : option Z;
  so_plays : nat }.

Definition to_minutes (total : option Z) : option Z :=
  option_map (fun t => Js.round_div t 60000) total.

Section More.
Context {engine : Engine}.

(** The [topArtists] and [topSongs] members of the profile response;
    [None] when the handler does not reach them. *)
Definition profile_top_lists (d : Db) (param : option string)
    : option (list TopArtist * list TopSong) :=
  match profile_user_rows d param with
  | Some (user :: _) =>
      Some (map (fun r => {| ta_name := top_key r; ta_minutes := to_minutes (top_total r);
                             ta_plays := top_plays r |})
                (topArtistsQuery d (u_id user)),
            map (fun r => {| so_name := fst (top_key r); so_artist := snd (top_key r);
                             so_minutes := to_minutes (top_total r);
                             so_plays := top_plays r |})
                (topSongsQuery d (u_id user)))
  | _ => None
  end.

(** ** Startup *)

(** [start] of [index.ts] after [initDb]: [ensureDemoUser], then
    [loadDemoData]. *)
Definition start_index (d : Db) (dir : list File) : Run * nat :=
  match ensureDemoUser d with
  | Some d' => loadDemoData d' dir
  | None => (start_run d, 0%nat)
  end.

End More.

End Handlers.

(* ================================================================== *)
(** * The client: relative times of the artist page *)
(* ================================================================== *)

Module Client.

Inductive TimeLabel :=
| JustNow
| HoursAgo (hours : Z)
| DaysAgo (days : Z).

(** [timeAgo] of [ArtistLeaderboard.tsx], from the difference
    [Date.now() - new Date(date).getTime()] in milliseconds (an integer
    for a valid date). *)
Definition timeAgo (diff : Z) : TimeLabel :=
  let hours := diff / (1000 * 60 * 60) in
  if hours <? 1 then JustNow
  else if hours <? 24 then HoursAgo hours
  else DaysAgo (hours / 24).

End Client.
(* ================================================================== *)
(** * Vocabulary of the statements below *)
(* ================================================================== *)

Import Pg Server.

(** The slices that the batch loop takes from index [i] on: the loop of
    [insert_batches] without its statements. *)
Fixpoint batches_from {A} (fuel i : nat) (records : list A) : list (list A) :=
  match fuel with
  | O => []
  | S fuel' =>
      if (i <? length records)%nat
      then Js.slice i (i + BATCH_SIZE) records :: batches_from fuel' (i + BATCH_SIZE) records
      else []
  end.

Definition batches {A} (records : list A) : list (list A) :=
  batches_from (length records) 0 records.

Definition ceil_div (n k : nat) : nat := ((n + (k - 1)) / k)%nat.

(** The statement that carries the records of a batch. *)
Definition statement_of (userId : Z) (batch : list Entry) : Event :=
  InsertStatement (map (values_of userId) batch).

(** The valid records of a file: none when the file does not parse or
    the validator throws. *)
Definition valid_of (file : File) : list Entry :=
  match content file with
  | Unreadable => []
  | Parsed data => default [] (validRecords data)
  end.

(** The file parses and the validator returns. *)
Definition readable (file : File) : bool :=
  match content file with
  | Unreadable => false
  | Parsed data => bool_decide (is_Some (validRecords data))
  end.

(** The batches of records for which a file calls for a statement. *)
Definition file_statements (file : File) : list (list Entry) :=
  batches (valid_of file).

(** The entries of an export, its [null] elements left out. *)
Definition entries_of (data : list (option Entry)) : list Entry := omap id data.

Section Vocabulary.
Context {engine : Engine}.

(** The row that the engine makes of a record of the user [userId], when
    it takes the record. *)
Definition stored (userId : Z) (e : Entry) : option StreamRow :=
  stream_row_in (values_of userId e).

(** The rows that the statement of a batch inserts; [None] when the
    statement is refused.  [known] says whether the user of the run
    exists: a row of an unknown user is refused. *)
Definition statement_rows (known : bool) (userId : Z) (batch : list Entry)
    : option (list StreamRow) :=
  if forallb (fun _ => known) batch then mapM (stored userId) batch else None.

(** Of a sequence of batches, the rows of the leading ones whose
    statements are accepted. *)
Fixpoint accepted (known : bool) (userId : Z) (bs : list (list Entry))
    : list (list StreamRow) :=
  match bs with
  | [] => []
  | b :: bs' =>
      match statement_rows known userId b with
      | Some rows => rows :: accepted known userId bs'
      | None => []
      end
  end.

(** The batches whose statements are sent: those of the accepted
    statements and that of the first refused one. *)
Fixpoint issued (known : bool) (userId : Z) (bs : list (list Entry)) : list (list Entry) :=
  match bs with
  | [] => []
  | b :: bs' =>
      match statement_rows known userId b with
      | Some _ => b :: issued known userId bs'
      | None => [b]
      end
  end.

(** Every statement of the batches is accepted. *)
Definition all_accepted (known : bool) (userId : Z) (bs : list (list Entry)) : bool :=
  forallb (fun b => bool_decide (is_Some (statement_rows known userId b))) bs.

(** A file succeeds when it parses, the validator returns and none of its
    statements is refused. *)
Definition file_succeeds (known : bool) (userId : Z) (file : File) : bool :=
  readable file && all_accepted known userId (file_statements file).

(** The rows that a file leaves in the store. *)
Definition persisted_rows (known : bool) (userId : Z) (file : File) : list StreamRow :=
  concat (accepted known userId (file_statements file)).

(** The events that a file leaves in the trace. *)
Definition file_events (known : bool) (userId : Z) (file : File) : list Event :=
  map (statement_of userId) (issued known userId (file_statements file)) ++
  (if file_succeeds known userId file then [] else [FileErrorLogged (originalname file)]).

(** What the upload would report if only the files that succeed were
    counted. *)
Definition imported_from_succeeded (known : bool) (userId : Z) (fs : list File) : nat :=
  length (concat (map (fun file => if file_succeeds known userId file
                                   then persisted_rows known userId file
                                   else []) fs)).

(** The engine stores the record as it is: the timestamp is read, no text
    is cut and the number is an integer of the column's range. *)
Definition stored_as_is (e : Entry) : Prop :=
  forall userId, stored userId e = Some (row_of userId e).

End Vocabulary.

(** Two names that differ at most in the case of their letters. *)
Definition same_modulo_case (a b : string) : Prop := lower a = lower b.

(** The position of a user in a query result. *)
Definition listed_at (rows : list ArtistTotal) (i : nat) (id : Z) : Prop :=
  exists r, rows !! i = Some r /\ u_id (at_user r) = id.

(** ** Sample inputs *)

Definition play (name : string) (ms : Z) : Entry :=
  {| ts := Some "2024-03-01T10:00:00Z";
     master_metadata_track_name := Some name;
     master_metadata_album_artist_name := Some "Moderat";
     master_metadata_album_album_name := Some "II";
     ms_played := Some (Js.Integer ms);
     spotify_track_uri := Some "spotify:track:0";
     platform := Some "android" |}.

(** A valid entry without a timestamp: every engine refuses its row. *)
Definition play_without_ts : Entry :=
  {| ts := None;
     master_metadata_track_name := Some "Bad Kingdom";
     master_metadata_album_artist_name := Some "Moderat";
     master_metadata_album_album_name := Some "II";
     ms_played := Some (Js.Integer 1000);
     spotify_track_uri := None;
     platform := None |}.

Definition json_file (name : string) (data : list Entry) : File :=
  {| originalname := name; content := Parsed (map Some data) |}.

Definition upload_as (name : string) (fs : list File) : UploadRequest :=
  {| body_username := Some name; uuid := "1b9d6bcd-bbfd-4b2d"; files := fs |}.

(** A database with the single user "Nova". *)
Definition nova_db : Db :=
  {| users := [{| u_id := 1; u_username := "Nova"; u_avatar := "goat" |}];
     users_id_seq := 1; streaming_history := [];
     comments := []; comment_likes := [] |}.

(** 501 valid entries, the last of them without a timestamp: the second
    statement of the file is refused. *)
Definition long_file : File :=
  json_file "long.json" (repeat (play "A New Error" 1000) 500 ++ [play_without_ts]).

(** 1001 valid entries, the first of them without a timestamp: the first
    statement of the file is refused. *)
Definition refused_at_once : list Entry :=
  play_without_ts :: repeat (play "A New Error" 1000) 1000.

Definition unreadable_file : File :=
  {| originalname := "broken.json"; content := Unreadable |}.

Definition refused_file : File := json_file "refused.json" [play_without_ts].

(** Four entries: a valid one, one with an empty track name, one that
    was not played, a valid one. *)
Definition mixed_file : File :=
  json_file "history.json"
    [play "Intruder" 1000; play "" 4000; play "Ghostmother" 0; play "Milk" 2000].

(** Two listeners of one artist, with 3000 and 6000 milliseconds. *)
Definition listeners_db : Db :=
  {| users := [{| u_id := 1; u_username := "Nova"; u_avatar := "goat" |};
               {| u_id := 2; u_username := "Idris"; u_avatar := "goat" |}];
     users_id_seq := 2;
     streaming_history :=
       [row_of 1 (play "Intruder" 3000); row_of 2 (play "Intruder" 5000);
        row_of 2 (play "Milk" 1000)];
     comments := []; comment_likes := [] |}.

Definition export_dir : list File :=
  [json_file "User_Nova_Streaming_History_Audio_2024.json" [play "Running" 2000];
   json_file "User_Mira_Lane_Streaming_History_Audio_2024.json" [play "Running" 2000];
   json_file "notes.txt" []].

(** The two listeners and a comment of the second one, not liked yet. *)
Definition commented_db : Db :=
  {| users := users listeners_db; users_id_seq := 2;
     streaming_history := streaming_history listeners_db;
     comments := [{| c_id := 7; c_user_id := 2; c_artist_name := "Moderat";
                     c_content := "Berlin, 2013"; c_likes := 0 |}];
     comment_likes := [] |}.

(** The store of a fresh [index.ts] server with an empty directory. *)
Definition demo_db : Db :=
  {| users := [{| u_id := 1; u_username := "David Stouck"; u_avatar := "goat" |}];
     users_id_seq := 0; streaming_history := [];
     comments := []; comment_likes := [] |}.

(** ** A sample engine *)

(** The number that two decimal digits spell. *)
Definition two_digits (s : string) (i : nat) : option nat :=
  match String.get i s, String.get (S i) s with
  | Some a, Some b =>
      if Js.is_digit a && Js.is_digit b
      then Some (10 * (nat_of_ascii a - 48) + (nat_of_ascii b - 48))%nat
      else None
  | _, _ => None
  end.

Definition char_at (s : string) (i : nat) (c : ascii) : bool :=
  match String.get i s with
  | Some a => Ascii.eqb a c
  | None => false
  end.

Definition days_in_month (year month : nat) : nat :=
  match month with
  | 2 => if ((year mod 4 =? 0) && negb (year mod 100 =? 0) || (year mod 400 =? 0))%nat
         then 29 else 28
  | 4 | 6 | 9 | 11 => 30
  | _ => 31
  end%nat.

(** The timestamps of the exports: [YYYY-MM-DDThh:mm:ssZ] with a date of
    the calendar and a time of the day.  Every engine reads them; an
    engine reads other spellings as well. *)
Definition export_timestamp (s : string) : bool :=
  (String.length s =? 20)%nat &&
  char_at s 4 "-" && char_at s 7 "-" && char_at s 10 "T" &&
  char_at s 13 ":" && char_at s 16 ":" && char_at s 19 "Z" &&
  match two_digits s 0, two_digits s 2, two_digits s 5, two_digits s 8,
        two_digits s 11, two_digits s 14, two_digits s 17 with
  | Some c, Some y, Some m, Some d, Some h, Some mi, Some sec =>
      let year := (100 * c + y)%nat in
      ((1 <=? year) && (1 <=? m) && (m <=? 12) && (1 <=? d) &&
       (d <=? days_in_month year m) && (h <=? 23) && (mi <=? 59) && (sec <=? 59))%nat
  | _, _, _, _, _, _, _ => false
  end.

(** White space of the engine's integer input. *)
Definition is_c_space (c : ascii) : bool :=
  let n := nat_of_ascii c in ((9 <=? n) && (n <=? 13) || (n =? 32))%nat.

Fixpoint skip_spaces (s : string) : string :=
  match s with
  | EmptyString => EmptyString
  | String c s' => if is_c_space c then skip_spaces s' else s
  end.

(** A run of decimal digits followed by white space only. *)
Fixpoint digits_then_spaces (acc : N) (seen : bool) (s : string) : option N :=
  match s with
  | EmptyString => if seen then Some acc else None
  | String c s' =>
      if Js.is_digit c
      then digits_then_spaces (acc * 10 + (N_of_ascii c - 48))%N true s'
      else if seen && String.eqb (skip_spaces s) EmptyString then Some acc else None
  end.

(** The decimal spellings of the integers of [INTEGER]: white space, an
    optional sign, digits, white space.  Every engine reads them alike. *)
Definition decimal_integer (s : string) : option Z :=
  let t := skip_spaces s in
  let neg := String.prefix "-" t in
  match digits_then_spaces 0%N false (strip_sign t) with
  | Some n =>
      let z := if neg then - Z.of_N n else Z.of_N n in
      if int4 z then Some z else None
  | None => None
  end.

(** An engine that reads the timestamps of the exports and the decimal
    integers. *)
Definition sample_engine : Engine :=
  {| timestamp_in := export_timestamp; integer_in := decimal_integer |}.

(** ** Vocabulary of the further statements *)

Import Handlers.

(** A text without the pattern characters of [LIKE]. *)
Fixpoint is_literal (s : string) : bool :=
  match s with
  | EmptyString => true
  | String c s' =>
      negb (Ascii.eqb c "%") && negb (Ascii.eqb c "_") && negb (Ascii.eqb c "\")
      && is_literal s'
  end.

(** A pattern whose last character is a backslash that no backslash
    before it makes literal: the patterns at which the engine can raise
    its error. *)
Fixpoint dangling (p : string) : bool :=
  match p with
  | EmptyString => false
  | String c p' =>
      if Ascii.eqb c "\" then
        match p' with
        | EmptyString => true
        | String _ p'' => dangling p''
        end
      else dangling p'
  end.

(** What a pattern can give: no error without a backslash left at its
    end, no match with one. *)
Definition never_wrong (p : string) : Prop :=
  forall t,
    (dangling p = false ->
     MatchText p t <> LIKE_ERROR /\ after_percent p t <> LIKE_ERROR) /\
    (dangling p = true ->
     MatchText p t <> LIKE_TRUE /\ after_percent p t <> LIKE_TRUE).

Fixpoint has_char (c : ascii) (s : string) : bool :=
  match s with
  | EmptyString => false
  | String c' s' => Ascii.eqb c c' || has_char c s'
  end.

(** The like counts are right, likes reference comments, and no user
    likes a comment twice. *)
Definition likes_consistent (d : Db) : Prop :=
  (forall c, In c (comments d) -> c_likes c = count_likes d (c_id c)) /\
  (forall l, In l (comment_likes d) -> has_comment d (cl_comment_id l) = true) /\
  NoDup (map (fun l => (cl_comment_id l, cl_user_id l)) (comment_likes d)).

Section Steps.
Context {engine : Engine}.

(** One request or one startup run of the modelled server. *)
Inductive step (d : Db) : Db -> Prop :=
| step_upload req : step d (run_db (fst (upload d req)))
| step_upload_not_multipart username uuid :
    step d (fst (upload_not_multipart d username uuid))
| step_signup username : step d (fst (signup d username))
| step_comment userId id artistName content :
    step d (fst (comment_as userId d id artistName content))
| step_like userId commentId : step d (fst (like_as userId d commentId))
| step_sync dir : step d (run_db (syncAllUsersFromFiles d dir))
| step_start dir : step d (run_db (fst (start_index d dir))).

(** The stores that the server can reach from the empty tables. *)
Inductive reachable : Db -> Prop :=
| reachable_init : reachable empty_db
| reachable_step d d' : reachable d -> step d d' -> reachable d'.

End Steps.

(** The user name that the synchronisation reads from a file name. *)
Definition derived_name (file : string) : option string :=
  option_map (fun g => Js.trim (Js.replace_underscores g)) (Js.match_user_file file).

(** A text without a line terminator. *)
Fixpoint one_line (s : string) : bool :=
  match s with
  | EmptyString => true
  | String c s' => negb (Js.is_line_terminator c) && one_line s'
  end.

(** Whether the synchronisation reads a user name from the file name. *)
Definition names_a_user (file : File) : bool :=
  match derived_name (originalname file) with
  | Some _ => true
  | None => false
  end.

(** Groups of files under distinct keys, none empty, each file under the
    name that is read from it. *)
Definition groups_ok (m : list (string * list File)) : Prop :=
  NoDup (map fst m) /\
  forall k fs, In (k, fs) m ->
    fs <> [] /\ forall f, In f fs -> derived_name (originalname f) = Some k.

(** Descending totals or minutes, a missing value ([NULL], NaN) first. *)
Definition desc (a b : option Z) : Prop :=
  match a, b with
  | None, _ => True
  | Some _, None => False
  | Some x, Some y => y <= x
  end.

(** The group of the key [k] as the [GROUP BY] queries of the profile
    compute it. *)
Definition group_of {K} `{EqDecision K} (key : StreamRow -> option K) (k : K)
    (rows : list StreamRow) : TopRow K :=
  {| top_key := k;
     top_total := sum_ms (rows_of_key key k rows);
     top_plays := length (rows_of_key key k rows) |}.

(* ================================================================== *)
(** * Facts about the engine model *)
(* ================================================================== *)

Section Properties.
Context {engine : Engine}.

Section EngineFacts.

Lemma add_history_nil d : add_history d [] = d.
Proof. destruct d; unfold add_history; simpl. by rewrite app_nil_r. Qed.

Lemma add_history_app d a b :
  add_history (add_history d a) b = add_history d (a ++ b).
Proof. unfold add_history; simpl. by rewrite app_assoc. Qed.

Lemma has_user_elem d id :
  has_user d id = true <-> exists u, In u (users d) /\ u_id u = id.
Proof.
  unfold has_user. rewrite existsb_exists.
  split; intros (u & Hu & He); exists u; split; auto; lia.
Qed.

(** *** [VARCHAR(n)] *)

Lemma varchar_fits n s : fits n s = true -> varchar n s = Some s.
Proof. unfold varchar. by intros ->. Qed.

Lemma substring_0_length n s :
  (n <= String.length s)%nat -> String.length (String.substring 0 n s) = n.
Proof.
  revert s. induction n as [|n IH]; intros s Hn.
  - by destruct s.
  - destruct s as [|c s]; cbn in *; [lia|]. rewrite IH; [done|lia].
Qed.

Lemma varchar_Some n s t :
  varchar n s = Some t ->
  fits n t = true /\
  (t = s \/ (fits n s = false /\ fits n (rtrim s) = true /\ t = String.substring 0 n s)).
Proof.
  unfold varchar. destruct (fits n s) eqn:Hfit.
  - intros [= <-]. split; [done|by left].
  - destruct (fits n (rtrim s)) eqn:Hr; [|done]. intros [= <-]. split; [|right; done].
    unfold fits in *. apply Nat.leb_gt in Hfit. apply Nat.leb_le.
    rewrite substring_0_length; lia.
Qed.

Lemma varchar_nonempty n s t :
  varchar (S n) s = Some t -> s <> EmptyString -> t <> EmptyString.
Proof.
  intros Hv Hs. apply varchar_Some in Hv as [_ [->|(_ & _ & ->)]]; [done|].
  destruct s; done.
Qed.

Lemma rtrim_trimEnd s : rtrim (Js.trimEnd s) = Js.trimEnd s.
Proof.
  induction s as [|c s IH]; [done|]. cbn [Js.trimEnd].
  destruct (Js.trimEnd s) as [|c' t] eqn:Ht.
  - destruct (Js.is_space c) eqn:Hc; [done|]. cbn [rtrim].
    destruct (Ascii.eqb_spec c " ") as [->|]; [done|done].
  - cbn [rtrim] in *. rewrite IH. done.
Qed.

(** A trimmed text is stored as it is or refused. *)
Lemma varchar_trim n s t : varchar n (Js.trim s) = Some t -> t = Js.trim s.
Proof.
  unfold varchar, Js.trim. rewrite rtrim_trimEnd.
  destruct (fits n (Js.trimEnd (Js.trimStart s))); [by intros [= <-]|done].
Qed.

Lemma varchar_goat : varchar 50 "goat" = Some "goat".
Proof. reflexivity. Qed.

Lemma forallb_const {A} (b : bool) (l : list A) :
  forallb (fun _ => b) l = true <-> (l = [] \/ b = true).
Proof.
  destruct l as [|x l]; [cbn; tauto|]. destruct b; cbn.
  - split; [by right|]. intros _. by induction l.
  - split; [done|]. by intros [|].
Qed.

Lemma forallb_map' {A B} (f : B -> bool) (g : A -> B) (l : list A) :
  forallb f (map g l) = forallb (fun x => f (g x)) l.
Proof. induction l as [|x l IH]; [done|]. cbn. by rewrite IH. Qed.

Lemma mapM_map {A B C} (f : B -> option C) (g : A -> B) (l : list A) :
  mapM f (map g l) = mapM (fun x => f (g x)) l.
Proof. induction l as [|x l IH]; [done|]. cbn. by rewrite IH. Qed.

(** The statement of a batch, for the store: the rows that
    [statement_rows] gives are appended, or the statement is refused. *)
Lemma insert_streaming_history_spec d userId batch :
  insert_streaming_history d (map (values_of userId) batch)
  = option_map (add_history d) (statement_rows (has_user d userId) userId batch).
Proof.
  unfold insert_streaming_history, statement_rows.
  rewrite forallb_map'. cbn [v_user_id values_of].
  destruct (forallb (fun _ => has_user d userId) batch); [|done].
  rewrite mapM_map. fold (stored userId). by destruct (mapM (stored userId) batch).
Qed.

Lemma statement_rows_length known userId batch rows :
  statement_rows known userId batch = Some rows -> length rows = length batch.
Proof.
  unfold statement_rows. destruct (forallb _ batch); [|done].
  intros H. symmetry. by eapply length_mapM.
Qed.

Lemma statement_rows_known known userId batch rows :
  statement_rows known userId batch = Some rows -> batch <> [] ->
  known = true /\ mapM (stored userId) batch = Some rows.
Proof.
  unfold statement_rows. destruct (forallb _ batch) eqn:Hk; [|done].
  intros Hm Hne. apply forallb_const in Hk as [Hk | Hk]; by subst.
Qed.

Lemma statement_rows_true userId batch :
  statement_rows true userId batch = mapM (stored userId) batch.
Proof.
  unfold statement_rows.
  by rewrite (proj2 (forallb_const true batch)) by (by right).
Qed.

(** What the engine makes of a valid record is the row of a valid
    record. *)
Lemma stored_valid userId e row :
  stored userId e = Some row -> is_valid e = true ->
  exists e', is_valid e' = true /\ row = row_of userId e'.
Proof.
  unfold stored, stream_row_in, values_of, is_valid.
  cbn [v_user_id v_ts v_track_name v_artist_name v_album_name v_ms_played
       v_spotify_track_uri v_platform].
  destruct (ts e) as [t|]; [|done]. destruct (timestamp_in t); [|done].
  destruct (varchar_opt 500 (master_metadata_track_name e)) as [track|] eqn:Htrack; [|done].
  destruct (varchar_opt 500 (master_metadata_album_artist_name e)) as [artist|]; [|done].
  destruct (varchar_opt 500 (master_metadata_album_album_name e)) as [album|]; [|done].
  destruct (integer_opt (ms_played e)) as [ms|] eqn:Hms; [|done].
  destruct (varchar_opt 255 (spotify_track_uri e)) as [uri|]; [|done].
  destruct (varchar_opt 50 (platform e)) as [plat|]; [|done].
  intros [= <-] Hvalid. apply andb_true_iff in Hvalid as [Hname Hpos].
  exists {| ts := Some t; master_metadata_track_name := track;
            master_metadata_album_artist_name := artist;
            master_metadata_album_album_name := album;
            ms_played := option_map Js.Integer ms;
            spotify_track_uri := uri; platform := plat |}.
  split.
  - unfold is_valid. cbn [master_metadata_track_name ms_played].
    apply andb_true_iff. split.
    + destruct (master_metadata_track_name e) as [name|]; [|done].
      cbn [varchar_opt] in Htrack.
      destruct (varchar 500 name) as [name'|] eqn:Hv; [|done].
      injection Htrack as <-. cbn [truthy] in *.
      apply negb_true_iff, String.eqb_neq in Hname.
      apply negb_true_iff, String.eqb_neq. by eapply varchar_nonempty.
    + destruct (ms_played e) as [[z|pos]|]; cbn [integer_opt gt_zero] in *; [|done|done].
      destruct (int4 z); [|done]. by injection Hms as <-.
  - unfold row_of. cbn [ts master_metadata_track_name master_metadata_album_artist_name
                        master_metadata_album_album_name ms_played spotify_track_uri platform].
    by destruct ms.
Qed.

Lemma stored_user_id userId e row : stored userId e = Some row -> sh_user_id row = userId.
Proof.
  unfold stored, stream_row_in.
  destruct (v_ts _) as [t|]; [|done]. destruct (timestamp_in t); [|done].
  destruct (varchar_opt 500 _); [|done]. destruct (varchar_opt 500 _); [|done].
  destruct (varchar_opt 500 _); [|done]. destruct (integer_opt _); [|done].
  destruct (varchar_opt 255 _); [|done]. destruct (varchar_opt 50 _); [|done].
  by intros [= <-].
Qed.

End EngineFacts.

(* ================================================================== *)
(** * The batch loop *)
(* ================================================================== *)

Section Batches.
Context {A : Type}.
Implicit Types records : list A.

Lemma batches_from_concat fuel : forall i records,
  (length records - i <= fuel)%nat ->
  concat (batches_from fuel i records) = drop i records.
Proof.
  induction fuel as [|fuel IH]; intros i records Hf; simpl.
  - symmetry. apply drop_ge. lia.
  - destruct (Nat.ltb_spec i (length records)) as [Hi|Hi].
    + simpl. rewrite IH by (unfold BATCH_SIZE; lia).
      unfold Js.slice.
      replace (i + BATCH_SIZE - i)%nat with BATCH_SIZE by lia.
      rewrite <- (take_drop BATCH_SIZE (drop i records)) at 2.
      f_equal. rewrite drop_drop. done.
    + symmetry. apply drop_ge. lia.
Qed.

Lemma ceil_div_step n :
  (0 < n)%nat -> ceil_div n BATCH_SIZE = S (ceil_div (n - BATCH_SIZE) BATCH_SIZE).
Proof.
  unfold ceil_div, BATCH_SIZE. intros Hn.
  destruct (Nat.le_gt_cases n 500) as [Hs|Hs].
  - replace (n - 500)%nat with 0%nat by lia.
    change ((0 + (500 - 1)) / 500)%nat with 0%nat.
    symmetry. apply (Nat.div_unique _ _ 1%nat (n - 1)%nat); lia.
  - replace (n + (500 - 1))%nat with ((n - 500 + (500 - 1)) + 1 * 500)%nat by lia.
    rewrite Nat.div_add by lia. lia.
Qed.

Lemma batches_from_length fuel : forall i records,
  (length records - i <= fuel)%nat ->
  length (batches_from fuel i records) = ceil_div (length records - i) BATCH_SIZE.
Proof.
  induction fuel as [|fuel IH]; intros i records Hf; cbn [batches_from].
  - replace (length records - i)%nat with 0%nat by lia. reflexivity.
  - destruct (Nat.ltb_spec i (length records)) as [Hi|Hi]; cbn [length].
    + rewrite IH by (unfold BATCH_SIZE; lia).
      rewrite (ceil_div_step (length records - i)) by lia.
      do 2 f_equal. lia.
    + replace (length records - i)%nat with 0%nat by lia. reflexivity.
Qed.

Lemma batches_from_lookup fuel : forall i records k,
  (length records - i <= fuel)%nat ->
  batches_from fuel i records !! k =
    if (i + k * BATCH_SIZE <? length records)%nat
    then Some (Js.slice (i + k * BATCH_SIZE) (i + k * BATCH_SIZE + BATCH_SIZE) records)
    else None.
Proof.
  induction fuel as [|fuel IH]; intros i records k Hf; simpl.
  - destruct (Nat.ltb_spec (i + k * BATCH_SIZE) (length records)); [lia|done].
  - destruct (Nat.ltb_spec i (length records)) as [Hi|Hi].
    + destruct k as [|k]; simpl.
      * rewrite Nat.add_0_r.
        destruct (Nat.ltb_spec i (length records)); [done|lia].
      * rewrite IH by (unfold BATCH_SIZE; lia).
        replace (i + BATCH_SIZE + k * BATCH_SIZE)%nat
          with (i + (BATCH_SIZE + k * BATCH_SIZE))%nat by lia.
        done.
    + destruct (Nat.ltb_spec (i + k * BATCH_SIZE) (length records)); [lia|done].
Qed.

Lemma batches_concat records : concat (batches records) = records.
Proof. unfold batches. rewrite batches_from_concat by lia. apply drop_0. Qed.

Lemma batches_length records :
  length (batches records) = ceil_div (length records) BATCH_SIZE.
Proof.
  unfold batches. rewrite batches_from_length by lia. by rewrite Nat.sub_0_r.
Qed.

Lemma batches_lookup records k :
  batches records !! k =
    if (k * BATCH_SIZE <? length records)%nat
    then Some (Js.slice (k * BATCH_SIZE) (k * BATCH_SIZE + BATCH_SIZE) records)
    else None.
Proof. unfold batches. rewrite batches_from_lookup by lia. done. Qed.

Lemma slice_lookup records i j :
  (j < BATCH_SIZE)%nat ->
  Js.slice i (i + BATCH_SIZE) records !! j = records !! (i + j)%nat.
Proof.
  intros Hj. unfold Js.slice.
  replace (i + BATCH_SIZE - i)%nat with BATCH_SIZE by lia.
  rewrite lookup_take_lt by done. by rewrite lookup_drop.
Qed.

Lemma slice_length_le records i :
  (length (Js.slice i (i + BATCH_SIZE) records) <= BATCH_SIZE)%nat.
Proof. unfold Js.slice. rewrite length_take. lia. Qed.

End Batches.


(* ================================================================== *)
(** * Files: what a file leaves in the store and in the trace *)
(* ================================================================== *)

Section Files.

Lemma insert_batches_spec fuel : forall i records userId st total,
  insert_batches fuel i records userId st total =
  ({| run_db := add_history (run_db st)
                  (concat (accepted (has_user (run_db st) userId) userId
                             (batches_from fuel i records)));
      run_trace := run_trace st ++
                   map (statement_of userId)
                     (issued (has_user (run_db st) userId) userId
                        (batches_from fuel i records)) |},
   (total + length (concat (accepted (has_user (run_db st) userId) userId
                              (batches_from fuel i records))))%nat,
   all_accepted (has_user (run_db st) userId) userId (batches_from fuel i records)).
Proof.
  induction fuel as [|fuel IH]; intros i records userId st total;
    cbn [insert_batches batches_from].
  - cbn. rewrite add_history_nil, app_nil_r, Nat.add_0_r. by destruct st.
  - destruct (i <? length records)%nat.
    + rewrite insert_streaming_history_spec.
      cbn [accepted issued all_accepted forallb].
      destruct (statement_rows (has_user (run_db st) userId) userId
                  (Js.slice i (i + BATCH_SIZE) records)) as [rows|] eqn:Hrows;
        cbn [option_map concat map].
      * rewrite IH. cbn [run_db run_trace emit].
        change (has_user (add_history (run_db st) rows) userId)
          with (has_user (run_db st) userId).
        rewrite add_history_app, length_app, <- app_assoc, Nat.add_assoc.
        rewrite (statement_rows_length _ _ _ _ Hrows).
        rewrite bool_decide_true by eauto. reflexivity.
      * cbn [length app]. rewrite add_history_nil, Nat.add_0_r.
        rewrite bool_decide_false by (by intros [? ?]). reflexivity.
    + cbn. rewrite add_history_nil, app_nil_r, Nat.add_0_r. by destruct st.
Qed.

Lemma process_file_spec userId file st total :
  process_file userId file st total =
  ({| run_db := add_history (run_db st)
                  (persisted_rows (has_user (run_db st) userId) userId file);
      run_trace := run_trace st ++ file_events (has_user (run_db st) userId) userId file |},
   (total + length (persisted_rows (has_user (run_db st) userId) userId file))%nat).
Proof.
  unfold process_file, persisted_rows, file_events, file_succeeds, file_statements,
    valid_of, readable.
  destruct (content file) as [|data].
  - cbn. by rewrite add_history_nil, Nat.add_0_r.
  - destruct (validRecords data) as [records|]; cbn [default].
    + rewrite insert_batches_spec. fold (batches records).
      rewrite bool_decide_true by eauto. cbn [andb].
      destruct (all_accepted _ _ _); unfold emit; cbn [run_db run_trace].
      * by rewrite app_nil_r.
      * by rewrite <- app_assoc.
    + cbn. by rewrite add_history_nil, Nat.add_0_r.
Qed.

Lemma process_files_spec userId files : forall st total,
  process_files userId files st total =
  ({| run_db := add_history (run_db st)
                  (concat (map (persisted_rows (has_user (run_db st) userId) userId) files));
      run_trace := run_trace st
                   ++ concat (map (file_events (has_user (run_db st) userId) userId) files) |},
   (total + length (concat (map (persisted_rows (has_user (run_db st) userId) userId)
                              files)))%nat).
Proof.
  induction files as [|file rest IH]; intros st total; cbn [process_files map concat].
  - rewrite add_history_nil, app_nil_r, Nat.add_0_r. by destruct st.
  - rewrite process_file_spec. rewrite IH.
    cbn [run_db run_trace].
    change (has_user (add_history (run_db st) _) userId) with (has_user (run_db st) userId).
    by rewrite add_history_app, length_app, <- app_assoc, Nat.add_assoc.
Qed.

(** The accepted statements are the leading ones: as many as
    [accepted] has members. *)
Lemma accepted_spec known userId bs :
  Forall2 (fun b rows => statement_rows known userId b = Some rows)
          (take (length (accepted known userId bs)) bs) (accepted known userId bs) /\
  issued known userId bs = take (S (length (accepted known userId bs))) bs /\
  (length (accepted known userId bs) <= length bs)%nat /\
  (all_accepted known userId bs = true <-> length (accepted known userId bs) = length bs) /\
  (forall b, bs !! length (accepted known userId bs) = Some b ->
             statement_rows known userId b = None).
Proof.
  induction bs as [|b bs (IH1 & IH2 & IH3 & IH4 & IH5)];
    cbn [accepted issued all_accepted forallb length take].
  - split; [constructor|]. split; [done|]. split; [done|]. split; [done|]. by intros b.
  - destruct (statement_rows known userId b) as [rows|] eqn:Hb.
    + cbn [length take]. rewrite bool_decide_true by eauto. cbn [andb].
      split; [by constructor|]. split; [by rewrite IH2|]. split; [lia|].
      split; [|exact IH5].
      unfold all_accepted in IH4. rewrite IH4. lia.
    + cbn [length take]. rewrite bool_decide_false by (by intros [? ?]). cbn [andb].
      split; [constructor|]. split; [by rewrite take_0|]. split; [lia|].
      split; [split; [done|lia]|]. by intros b' [= <-].
Qed.

Lemma accepted_elem known userId bs rows :
  In rows (accepted known userId bs) ->
  exists b, In b bs /\ statement_rows known userId b = Some rows.
Proof.
  destruct (accepted_spec known userId bs) as (H & _). intros Hin.
  apply list_elem_of_In, list_elem_of_lookup in Hin as [i Hi].
  destruct (Forall2_lookup_r _ _ _ _ _ H Hi) as (b & Hb & Hrows).
  exists b. split; [|done]. apply lookup_take_Some in Hb as [Hb _].
  by eapply list_elem_of_In, list_elem_of_lookup_2.
Qed.

Lemma issued_elem known userId bs b : In b (issued known userId bs) -> In b bs.
Proof.
  destruct (accepted_spec known userId bs) as (_ & -> & _). intros H.
  apply list_elem_of_In in H. apply list_elem_of_In.
  eapply subseteq_take. exact H.
Qed.

Lemma batches_elem {A} (records : list A) b x :
  In b (batches records) -> In x b -> In x records.
Proof.
  intros Hb Hx. rewrite <- (batches_concat records). apply in_concat. eauto.
Qed.

Lemma batches_nonempty {A} (records : list A) b : In b (batches records) -> b <> [].
Proof.
  intros Hb. apply list_elem_of_In, list_elem_of_lookup in Hb as [k Hk].
  rewrite batches_lookup in Hk.
  destruct (Nat.ltb_spec (k * BATCH_SIZE) (length records)) as [Hlt|]; [|done].
  injection Hk as <-. intros Hnil. apply (f_equal length) in Hnil.
  unfold Js.slice, BATCH_SIZE in *. rewrite length_take, length_drop in Hnil.
  cbn [length] in Hnil. lia.
Qed.

(** Rows of a file come from its valid records. *)
Lemma persisted_rows_valid known userId file row :
  In row (persisted_rows known userId file) ->
  known = true /\ exists e, In e (valid_of file) /\ stored userId e = Some row.
Proof.
  unfold persisted_rows, file_statements. intros H.
  apply in_concat in H as (rows & Hrows & Hrow).
  apply accepted_elem in Hrows as (b & Hb & Hst).
  apply statement_rows_known in Hst as [-> Hm]; [|by eapply batches_nonempty].
  split; [done|]. apply mapM_Some in Hm.
  apply list_elem_of_In, list_elem_of_lookup in Hrow as [i Hi].
  destruct (Forall2_lookup_r _ _ _ _ _ Hm Hi) as (e & He & Hs).
  exists e. split; [|done].
  eapply batches_elem; [exact Hb|]. by eapply list_elem_of_In, list_elem_of_lookup_2.
Qed.

Lemma valid_of_valid file e : In e (valid_of file) -> is_valid e = true.
Proof.
  unfold valid_of. destruct (content file) as [|data]; [done|].
  revert e. induction data as [|[r|] data IH]; intros e; cbn [validRecords default];
    [done| |done].
  destruct (validRecords data) as [kept|]; cbn [default] in *; [|done].
  destruct (is_valid r) eqn:Hr; [|by apply IH].
  intros [<-|He]; [done|by apply IH].
Qed.

End Files.

Section FileFacts.

Lemma take_add_drop {A} (n m : nat) (l : list A) :
  take (n + m) l = take n l ++ take m (drop n l).
Proof.
  revert l. induction n as [|n IH]; intros l; [done|].
  destruct l as [|x l]; cbn; [by rewrite take_nil | by rewrite IH].
Qed.

Lemma batches_from_take {A} fuel : forall i k (records : list A),
  (length records - i <= fuel)%nat ->
  concat (take k (batches_from fuel i records)) = take (k * BATCH_SIZE) (drop i records).
Proof.
  induction fuel as [|fuel IH]; intros i k records Hf; cbn [batches_from].
  - rewrite take_nil, drop_ge by lia. by rewrite take_nil.
  - destruct (Nat.ltb_spec i (length records)) as [Hi|Hi].
    + destruct k as [|k]; [done|]. cbn [take concat].
      rewrite IH by (unfold BATCH_SIZE; lia).
      change (S k * BATCH_SIZE)%nat with (BATCH_SIZE + k * BATCH_SIZE)%nat.
      rewrite take_add_drop, drop_drop. unfold Js.slice.
      by replace (i + BATCH_SIZE - i)%nat with BATCH_SIZE by lia.
    + rewrite take_nil, drop_ge by lia. by rewrite take_nil.
Qed.

Lemma concat_take_batches {A} (records : list A) k :
  concat (take k (batches records)) = take (k * BATCH_SIZE) records.
Proof. unfold batches. rewrite batches_from_take by lia. by rewrite drop_0. Qed.

Lemma batches_length_lt {A} (records : list A) k :
  (k < length (batches records))%nat -> (k * BATCH_SIZE < length records)%nat.
Proof.
  rewrite batches_length. unfold ceil_div, BATCH_SIZE.
  pose proof (Nat.div_mod_eq (length records + (500 - 1)) 500).
  pose proof (Nat.mod_upper_bound (length records + (500 - 1)) 500). lia.
Qed.

Lemma batches_nil {A} (records : list A) : batches records = [] <-> records = [].
Proof.
  split; [|by intros ->]. intros H. rewrite <- (batches_concat records). by rewrite H.
Qed.

Lemma mapM_concat {A B} (f : A -> option B) (bs : list (list A)) (rs : list (list B)) :
  Forall2 (fun b rows => mapM f b = Some rows) bs rs ->
  mapM f (concat bs) = Some (concat rs).
Proof.
  induction 1 as [|b rows bs rs Hb _ IH]; [done|]. cbn [concat].
  apply mapM_Some. apply Forall2_app; by apply mapM_Some.
Qed.

Lemma is_valid_iff e :
  is_valid e = true <->
  (exists name, master_metadata_track_name e = Some name /\ name <> EmptyString) /\
  ((exists ms, ms_played e = Some (Js.Integer ms) /\ 0 < ms) \/
   ms_played e = Some (Js.Fraction true)).
Proof.
  unfold is_valid, truthy, gt_zero. rewrite andb_true_iff. split.
  - intros [Ht Hm]. split.
    + destruct (master_metadata_track_name e) as [name|]; [|done].
      exists name. split; [done|]. intros ->. done.
    + destruct (ms_played e) as [[ms|[|]]|]; try done; [|by right].
      left. exists ms. split; [done|lia].
  - intros [(name & -> & Hn) [(ms & -> & Hm)| ->]]; (split; [|done || lia]);
      by destruct (String.eqb_spec name EmptyString).
Qed.

Lemma validRecords_spec data :
  (validRecords data = None <-> In None data) /\
  (forall kept, validRecords data = Some kept ->
     kept = List.filter is_valid (entries_of data)).
Proof.
  unfold entries_of.
  induction data as [|[r|] data [IH1 IH2]]; cbn [validRecords omap list_omap In id].
  - split; [split; [done|by intros []]|]. by intros kept [= <-].
  - destruct (validRecords data) as [kept0|] eqn:Hv.
    + split.
      * split; [done|]. intros [?|Hin]; [done|]. by apply IH1 in Hin.
      * intros kept [= <-]. cbn [List.filter]. rewrite <- (IH2 kept0 eq_refl).
        by destruct (is_valid r).
    + split; [|done]. split; [|done]. intros _. right. by apply IH1.
  - split; [|done]. split; [|done]. intros _. by left.
Qed.

(** The rows that a file leaves are those of the records of its leading
    accepted statements, and the statements that the file sends are these
    and the next one. *)
Lemma persisted_rows_prefix known userId file :
  mapM (stored userId)
       (take (length (accepted known userId (file_statements file)) * BATCH_SIZE)
             (valid_of file))
  = Some (persisted_rows known userId file) /\
  file_events known userId file
  = map (statement_of userId)
        (take (S (length (accepted known userId (file_statements file))))
              (file_statements file))
    ++ (if file_succeeds known userId file then []
        else [FileErrorLogged (originalname file)]) /\
  (length (accepted known userId (file_statements file))
   <= length (file_statements file))%nat.
Proof.
  unfold persisted_rows, file_events.
  destruct (accepted_spec known userId (file_statements file))
    as (Hacc & Hiss & Hlen & _).
  split; [|split; [by rewrite Hiss|done]].
  unfold file_statements in *. rewrite <- concat_take_batches.
  apply mapM_concat.
  eapply Forall2_impl; [|exact (fun _ _ H => H)].
  clear Hiss Hlen. revert Hacc.
  generalize (accepted known userId (batches (valid_of file))). intros rs.
  generalize (length rs). intros n Hacc.
  assert (Hne : Forall (fun b => b <> []) (take n (batches (valid_of file)))).
  { apply Forall_forall. intros b Hb. apply (batches_nonempty (valid_of file)).
    apply list_elem_of_In. eapply subseteq_take. exact Hb. }
  revert Hne. induction Hacc as [|b rows bs rs' Hb _ IH]; [constructor|].
  intros Hne. apply Forall_cons in Hne as [Hb0 Hne].
  constructor; [|by apply IH].
  by destruct (statement_rows_known _ _ _ _ Hb Hb0).
Qed.

Lemma all_accepted_iff known userId (records : list Entry) :
  all_accepted known userId (batches records) = true <->
  records = [] \/ (known = true /\ forall e, In e records -> is_Some (stored userId e)).
Proof.
  unfold all_accepted. rewrite forallb_forall. split.
  - intros Hall. destruct records as [|e0 records]; [by left|]. right.
    assert (Hb : forall b, In b (batches (e0 :: records)) ->
              known = true /\ is_Some (mapM (stored userId) b)).
    { intros b Hb. specialize (Hall b Hb). apply bool_decide_eq_true in Hall as [rows Hrows].
      destruct (statement_rows_known _ _ _ _ Hrows (batches_nonempty _ _ Hb)) as [-> Hm].
      split; [done|]. by exists rows. }
    split.
    + destruct (batches (e0 :: records)) as [|b bs] eqn:Hbs.
      * by apply batches_nil in Hbs.
      * by destruct (Hb b (or_introl eq_refl)).
    + intros e He. rewrite <- (batches_concat (e0 :: records)) in He.
      apply in_concat in He as (b & Hin & He).
      destruct (Hb b Hin) as [_ Hm]. apply mapM_is_Some_1 in Hm.
      rewrite Forall_forall in Hm. by apply Hm, list_elem_of_In.
  - intros [->|[-> Hall]] b Hb; [done|]. apply bool_decide_eq_true.
    rewrite statement_rows_true. apply mapM_is_Some_2, Forall_forall.
    intros e He. apply Hall. eapply batches_elem; [exact Hb|]. by apply list_elem_of_In.
Qed.

Lemma file_events_statement known userId file values v :
  In (InsertStatement values) (file_events known userId file) -> In v values ->
  exists e, In e (valid_of file) /\ v = values_of userId e.
Proof.
  unfold file_events. intros Hev Hv. apply in_app_or in Hev as [Hev|Hev].
  - apply in_map_iff in Hev as (b & [= <-] & Hb). apply issued_elem in Hb.
    apply in_map_iff in Hv as (e & <- & He). exists e. split; [|done].
    by eapply batches_elem.
  - destruct (file_succeeds known userId file); [done|]. by destruct Hev as [|[]].
Qed.

(** The three ingestion runs hand their files to the same loop. *)
Lemma ingestion_runs_use_the_file_loop :
  (forall d req d' userId,
     upload_user d (upload_username req) = inr (d', userId) ->
     upload d req
     = (fst (process_files userId (files req) (start_run d') 0),
        UploadOk userId (snd (process_files userId (files req) (start_run d') 0)))) /\
  (forall d dir,
     count_history d DEMO_USER_ID = 0%nat ->
     loadDemoData d dir
     = process_files DEMO_USER_ID
         (List.filter (fun f => is_history_file (originalname f)) dir) (start_run d) 0) /\
  (forall st username userFiles d' userId,
     sync_user_id (run_db st) username = inr (d', userId) ->
     count_history d' userId = 0%nat ->
     sync_user st (username, userFiles)
     = fst (process_files userId userFiles
              {| run_db := d'; run_trace := run_trace st |} 0)).
Proof.
  split; [|split].
  - intros d req d' userId Hres. unfold upload. rewrite Hres.
    by destruct (process_files userId (files req) (start_run d') 0).
  - intros d dir Hc. unfold loadDemoData. by rewrite Hc.
  - intros st username userFiles d' userId Hres Hc. unfold sync_user.
    by rewrite Hres, Hc.
Qed.

End FileFacts.

(* ================================================================== *)
(** * Claims about the validator and the batch inserter *)
(* ================================================================== *)

(** C1, amended.  The validator keeps exactly the entries whose track
    name is a non-empty text and whose [ms_played] is above zero, in
    their order, and throws on a [null] element.  In a run of the file
    loop that the upload, the demo load and the bulk synchronisation
    share ([ingestion_runs_use_the_file_loop]), whatever the files and
    the store are: only kept entries are sent, every row that is
    persisted is what the engine made of a kept entry, and the entries
    left out are never reported - the trace holds insert statements and
    the errors of failed files only.  A kept entry is persisted when the
    statements of its file up to its own are accepted: a file succeeds
    exactly when it can be read and either keeps nothing or belongs to an
    existing user and has only records that the engine takes; it then
    leaves the rows of all its kept entries, in order, and no error.  A
    file that fails leaves the rows of its leading accepted batches and
    its error. *)
Theorem validator_decides_what_is_sent (userId : Z) (files : list File) (d : Db) :
  (forall e,
     is_valid e = true <->
     (exists name, master_metadata_track_name e = Some name /\ name <> EmptyString) /\
     ((exists ms, ms_played e = Some (Js.Integer ms) /\ 0 < ms) \/
      ms_played e = Some (Js.Fraction true))) /\
  (forall data,
     (validRecords data = None <-> In None data) /\
     (forall kept, validRecords data = Some kept ->
        kept = List.filter is_valid (entries_of data))) /\
  process_files userId files (start_run d) 0
  = ({| run_db := add_history d
                    (concat (map (persisted_rows (has_user d userId) userId) files));
        run_trace := concat (map (file_events (has_user d userId) userId) files) |},
     length (concat (map (persisted_rows (has_user d userId) userId) files))) /\
  (forall file,
     (forall values v,
        In (InsertStatement values) (file_events (has_user d userId) userId file) ->
        In v values -> exists e, In e (valid_of file) /\ v = values_of userId e) /\
     (forall row, In row (persisted_rows (has_user d userId) userId file) ->
        exists e, In e (valid_of file) /\ stored userId e = Some row) /\
     (forall ev, In ev (file_events (has_user d userId) userId file) ->
        (exists values, ev = InsertStatement values) \/
        (ev = FileErrorLogged (originalname file) /\
         file_succeeds (has_user d userId) userId file = false)) /\
     (file_succeeds (has_user d userId) userId file = true <->
        readable file = true /\
        (valid_of file = [] \/
         (has_user d userId = true /\
          forall e, In e (valid_of file) -> is_Some (stored userId e)))) /\
     (file_succeeds (has_user d userId) userId file = true ->
        mapM (stored userId) (valid_of file)
        = Some (persisted_rows (has_user d userId) userId file) /\
        file_events (has_user d userId) userId file
        = map (statement_of userId) (file_statements file)) /\
     (file_succeeds (has_user d userId) userId file = false ->
        In (FileErrorLogged (originalname file))
           (file_events (has_user d userId) userId file) /\
        exists k,
          (k * BATCH_SIZE < length (valid_of file) \/ valid_of file = [])%nat /\
          mapM (stored userId) (take (k * BATCH_SIZE) (valid_of file))
          = Some (persisted_rows (has_user d userId) userId file))).
Proof.
  split; [exact is_valid_iff|]. split; [exact validRecords_spec|]. split.
  { rewrite process_files_spec. cbn [run_db run_trace start_run app]. reflexivity. }
  intros file. set (known := has_user d userId).
  destruct (persisted_rows_prefix known userId file) as (Hrows & Hevents & Hlen).
  destruct (accepted_spec known userId (file_statements file)) as (_ & _ & _ & Hall & _).
  split; [apply file_events_statement|]. split.
  { intros row Hrow. by apply persisted_rows_valid in Hrow as [_ ?]. }
  split.
  { intros ev Hev. rewrite Hevents in Hev. apply in_app_or in Hev as [Hev|Hev].
    - left. apply in_map_iff in Hev as (b & <- & _). eexists. reflexivity.
    - right. destruct (file_succeeds known userId file); [done|].
      by destruct Hev as [<-|[]]. }
  split.
  { unfold file_succeeds, file_statements. rewrite andb_true_iff, all_accepted_iff. done. }
  split.
  - intros Hok. unfold file_succeeds in Hok. apply andb_true_iff in Hok as [Hread Hok].
    apply Hall in Hok. rewrite Hok in Hrows, Hevents.
    assert (Hs : file_succeeds known userId file = true).
    { unfold file_succeeds. rewrite Hread. apply Hall in Hok. by rewrite Hok. }
    rewrite Hs, app_nil_r in Hevents. rewrite Hevents.
    rewrite take_ge by lia. split; [|done].
    rewrite <- Hrows. f_equal. unfold file_statements. rewrite take_ge; [done|].
    rewrite batches_length. unfold ceil_div, BATCH_SIZE.
    pose proof (Nat.div_mod_eq (length (valid_of file) + (500 - 1)) 500).
    pose proof (Nat.mod_upper_bound (length (valid_of file) + (500 - 1)) 500). lia.
  - intros Hfail. split.
    { rewrite Hevents, Hfail. apply in_or_app. right. by left. }
    exists (length (accepted known userId (file_statements file))).
    split; [|done].
    destruct (valid_of file) as [|e0 rest] eqn:Hvalid; [by right|]. left.
    rewrite <- Hvalid. apply batches_length_lt. fold (file_statements file).
    destruct (Nat.eq_dec (length (accepted known userId (file_statements file)))
                (length (file_statements file))) as [He|He]; [|lia].
    apply Hall in He. unfold file_succeeds in Hfail. rewrite He, andb_true_r in Hfail.
    unfold readable, valid_of in *. destruct (content file) as [|data]; [done|].
    destruct (validRecords data); [|done]. by rewrite bool_decide_true in Hfail by eauto.
Qed.

(** C2, amended.  The batch loop cuts [N] records into [ceil (N / 500)]
    slices of at most 500 records whose concatenation is the input:
    position [i] of the input is position [i mod 500] of slice [i / 500],
    and every position of a slice is a position of the input.  The
    statements that are sent are the leading slices, one statement for
    each, in order, up to and including the first one that is refused:
    with [n] accepted statements, [min (n + 1) (ceil (N / 500))]
    statements are sent, the first [min (500 n) N] records are counted and
    their rows stored in order, and statement [n + 1], if there is one,
    was refused.  The loop ends without an error exactly when
    [n = ceil (N / 500)]; all the statements are then sent and all the
    records stored. *)
Theorem batch_inserter_partition (records : list Entry) :
  length (batches records) = ceil_div (length records) BATCH_SIZE /\
  (length records <= length (batches records) * 500 < length records + 500)%nat /\
  concat (batches records) = records /\
  (forall b, In b (batches records) -> (0 < length b <= 500)%nat) /\
  (forall i r, records !! i = Some r ->
     exists b, batches records !! (i / 500)%nat = Some b /\ b !! (i mod 500)%nat = Some r) /\
  (forall k b j r, batches records !! k = Some b -> b !! j = Some r ->
     (j < 500)%nat /\ records !! (k * 500 + j)%nat = Some r) /\
  (forall userId d,
     exists st total ok n rows,
       insert_batches (length records) 0 records userId (start_run d) 0 = (st, total, ok) /\
       (n <= ceil_div (length records) BATCH_SIZE)%nat /\
       run_trace st = map (statement_of userId) (take (S n) (batches records)) /\
       length (run_trace st) = Nat.min (S n) (ceil_div (length records) BATCH_SIZE) /\
       total = Nat.min (n * 500) (length records) /\
       run_db st = add_history d rows /\
       mapM (stored userId) (take (n * 500) records) = Some rows /\
       (forall b, batches records !! n = Some b ->
                  insert_streaming_history (run_db st) (map (values_of userId) b) = None) /\
       (ok = true <-> n = ceil_div (length records) BATCH_SIZE) /\
       (ok = true ->
        run_trace st = map (statement_of userId) (batches records) /\
        total = length records /\
        mapM (stored userId) records = Some rows)).
Proof.
  assert (Hlen := batches_length records).
  assert (Hbound : (length records <= ceil_div (length records) BATCH_SIZE * 500
                    < length records + 500)%nat).
  { unfold ceil_div, BATCH_SIZE.
    pose proof (Nat.div_mod_eq (length records + (500 - 1)) 500) as Hdm.
    pose proof (Nat.mod_upper_bound (length records + (500 - 1)) 500). lia. }
  split; [done|]. split; [by rewrite Hlen|]. split; [apply batches_concat|].
  assert (Hslice : forall k b, batches records !! k = Some b ->
            (k * 500 < length records)%nat /\
            b = Js.slice (k * 500) (k * 500 + 500) records).
  { intros k b. rewrite batches_lookup. unfold BATCH_SIZE.
    destruct (Nat.ltb_spec (k * 500) (length records)); [|done].
    intros [= <-]. done. }
  split; [|split; [|split]].
  - intros b Hb. apply list_elem_of_In, list_elem_of_lookup in Hb as [k Hk].
    apply Hslice in Hk as [Hk ->]. unfold Js.slice.
    rewrite length_take, length_drop. lia.
  - intros i r Hi. assert (i < length records)%nat by (by eapply lookup_lt_Some).
    pose proof (Nat.div_mod_eq i 500) as Hdm.
    pose proof (Nat.mod_upper_bound i 500).
    exists (Js.slice (i / 500 * 500) (i / 500 * 500 + 500) records). split.
    + rewrite batches_lookup. unfold BATCH_SIZE.
      destruct (Nat.ltb_spec (i / 500 * 500) (length records)); [done|lia].
    + pose proof (slice_lookup records (i / 500 * 500) (i mod 500)) as Hsl.
      unfold BATCH_SIZE in Hsl. rewrite Hsl by lia.
      rewrite <- Hi. f_equal. lia.
  - intros k b j r Hk Hj. apply Hslice in Hk as [Hk ->].
    assert (j < 500)%nat.
    { apply lookup_lt_Some in Hj. pose proof (slice_length_le records (k * 500)) as Hle.
      unfold BATCH_SIZE in Hle. lia. }
    split; [done|]. pose proof (slice_lookup records (k * 500) j) as Hsl.
    unfold BATCH_SIZE in Hsl. by rewrite Hsl in Hj.
  - intros userId d. set (known := has_user d userId).
    destruct (accepted_spec known userId (batches records))
      as (Hacc & Hiss & Hle & Hall & Hnext).
    set (n := length (accepted known userId (batches records))) in *.
    assert (Hrows : mapM (stored userId) (take (n * BATCH_SIZE) records)
                    = Some (concat (accepted known userId (batches records)))).
    { rewrite <- concat_take_batches. apply mapM_concat.
      assert (Hne : Forall (fun b => b <> []) (take n (batches records))).
      { apply Forall_forall. intros b Hb. apply (batches_nonempty records).
        apply list_elem_of_In. eapply subseteq_take. exact Hb. }
      revert Hne. clear Hiss Hle Hall Hnext. revert Hacc.
      generalize (accepted known userId (batches records)) (take n (batches records)).
      intros rs bs Hacc. induction Hacc as [|b rows bs rs' Hb _ IH]; [constructor|].
      intros Hne. apply Forall_cons in Hne as [Hb0 Hne].
      constructor; [|by apply IH].
      by destruct (statement_rows_known _ _ _ _ Hb Hb0). }
    eexists _, _, _, n, _. split; [apply insert_batches_spec|].
    fold (batches records). cbn [run_trace run_db start_run]. fold known.
    rewrite app_nil_l, Hiss. fold n.
    split; [lia|]. split; [done|]. split.
    { rewrite length_map, length_take, Hlen. done. }
    split.
    { rewrite <- (length_mapM _ _ _ Hrows), length_take. unfold BATCH_SIZE. lia. }
    split; [done|]. split; [exact Hrows|]. split.
    { intros b Hb. rewrite insert_streaming_history_spec.
      change (has_user (add_history d _) userId) with known.
      by rewrite (Hnext b Hb). }
    split; [by rewrite Hall, Hlen|].
    intros Hok. apply Hall in Hok. fold n in Hok.
    assert (Hn : (length records <= n * BATCH_SIZE)%nat)
      by (unfold BATCH_SIZE; lia).
    split; [by rewrite take_ge by lia|]. split.
    + rewrite <- (length_mapM _ _ _ Hrows), length_take. lia.
    + rewrite <- Hrows. f_equal. by rewrite take_ge.
Qed.

(* ================================================================== *)
(** * Patterns that raise *)
(* ================================================================== *)

Section Matching.

Lemma scan_neq c rest t r :
  r <> LIKE_ABORT -> (forall t', rest t' <> r) -> scan c rest t <> r.
Proof.
  intros Hr Hrest. induction t as [|d t IH]; cbn [scan]; [congruence|].
  destruct (Ascii.eqb d c); [|done].
  pose proof (Hrest t) as Ht.
  destruct (rest t); try done; congruence.
Qed.

Lemma only_percent_dangling p : only_percent p = true -> dangling p = false.
Proof.
  induction p as [|c p IH]; [done|]. cbn [only_percent dangling].
  intros H. apply andb_true_iff in H as [Hc Hp]. apply Ascii.eqb_eq in Hc as ->.
  cbn. by apply IH.
Qed.

Lemma never_wrong_nil : never_wrong EmptyString.
Proof. intros t. split; [|done]. intros _. by destruct t. Qed.

Lemma never_wrong_backslash : never_wrong (String "\" EmptyString).
Proof. intros t. split; [done|]. intros _. by destruct t. Qed.

Lemma never_wrong_escape e p : never_wrong p -> never_wrong (String "\" (String e p)).
Proof.
  intros Hp t. change (dangling (String "\" (String e p))) with (dangling p).
  split; intros Hd.
  - split.
    + destruct t as [|d t]; [done|]. cbn [MatchText]. cbn [Ascii.eqb Bool.eqb].
      destruct (Ascii.eqb e d); [|done]. by apply (Hp t).
    + cbn [after_percent]. cbn [Ascii.eqb Bool.eqb].
      apply scan_neq; [done|]. intros t'. by apply (Hp t').
  - split.
    + destruct t as [|d t]; [done|]. cbn [MatchText]. cbn [Ascii.eqb Bool.eqb].
      destruct (Ascii.eqb e d); [|done]. by apply (Hp t).
    + cbn [after_percent]. cbn [Ascii.eqb Bool.eqb].
      apply scan_neq; [done|]. intros t'. by apply (Hp t').
Qed.

Lemma never_wrong_other c p :
  Ascii.eqb c "\" = false -> never_wrong p -> never_wrong (String c p).
Proof.
  intros Hc Hp t.
  assert (Hdang : dangling (String c p) = dangling p) by (cbn [dangling]; by rewrite Hc).
  rewrite Hdang. split; intros Hd.
  - split.
    + destruct t as [|d t].
      * cbn [MatchText]. by destruct (only_percent (String c p)).
      * cbn [MatchText]. rewrite Hc.
        destruct (Ascii.eqb c "%"); [by apply (Hp (String d t))|].
        destruct (Ascii.eqb c "_"); [by apply (Hp t)|].
        destruct (Ascii.eqb c d); [by apply (Hp t)|done].
    + cbn [after_percent]. rewrite Hc.
      destruct (Ascii.eqb c "%"); [by apply (Hp t)|].
      destruct (Ascii.eqb c "_").
      * destruct t as [|d t]; [done|]. by apply (Hp t).
      * apply scan_neq; [done|]. intros t'. by apply (Hp t').
  - split.
    + destruct t as [|d t].
      * cbn [MatchText]. destruct (only_percent (String c p)) eqn:Hop; [|done].
        apply only_percent_dangling in Hop. congruence.
      * cbn [MatchText]. rewrite Hc.
        destruct (Ascii.eqb c "%"); [by apply (Hp (String d t))|].
        destruct (Ascii.eqb c "_"); [by apply (Hp t)|].
        destruct (Ascii.eqb c d); [by apply (Hp t)|done].
    + cbn [after_percent]. rewrite Hc.
      destruct (Ascii.eqb c "%"); [by apply (Hp t)|].
      destruct (Ascii.eqb c "_").
      * destruct t as [|d t]; [done|]. by apply (Hp t).
      * apply scan_neq; [done|]. intros t'. by apply (Hp t').
Qed.

Lemma never_wrong_all p : never_wrong p.
Proof.
  enough (H : never_wrong p /\ forall c, never_wrong (String c p)) by apply H.
  induction p as [|a p [IH1 IH2]].
  - split; [apply never_wrong_nil|]. intros c.
    destruct (Ascii.eqb c "\") eqn:Hc.
    + apply Ascii.eqb_eq in Hc as ->. apply never_wrong_backslash.
    + apply never_wrong_other; [done|apply never_wrong_nil].
  - split; [apply IH2|]. intros c.
    destruct (Ascii.eqb c "\") eqn:Hc.
    + apply Ascii.eqb_eq in Hc as ->. by apply never_wrong_escape.
    + apply never_wrong_other; [done|apply IH2].
Qed.

Lemma like_raises_dangling p t : like_raises p t = true -> dangling p = true.
Proof.
  unfold like_raises. intros H. destruct (dangling p) eqn:Hd; [done|].
  destruct (never_wrong_all p t) as [Hno _]. destruct (Hno Hd) as [Hm _].
  by destruct (MatchText p t).
Qed.

Lemma like_not_dangling p t : like p t = true -> dangling p = false.
Proof.
  unfold like. intros H. destruct (dangling p) eqn:Hd; [|done].
  destruct (never_wrong_all p t) as [_ Hno]. destruct (Hno Hd) as [Hm _].
  by destruct (MatchText p t).
Qed.

Lemma like_raises_false p t : dangling p = false -> like_raises p t = false.
Proof.
  intros Hd. destruct (like_raises p t) eqn:H; [|done].
  apply like_raises_dangling in H. congruence.
Qed.

(** A pattern that matches one text raises at no text. *)
Lemma ilike_never_raises a b pattern :
  ilike a pattern = true -> ilike_raises b pattern = false.
Proof.
  unfold ilike, ilike_raises. intros H. apply like_raises_false.
  by eapply like_not_dangling.
Qed.

Lemma query_users_ilike_spec d pattern :
  dangling (lower pattern) = false ->
  query_users_ilike d pattern = Some (select_users_ilike d pattern).
Proof.
  intros Hd. unfold query_users_ilike.
  destruct (existsb _ (users d)) eqn:Hex; [|done].
  apply existsb_exists in Hex as (u & _ & Hu). unfold ilike_raises in Hu.
  rewrite like_raises_false in Hu; done.
Qed.

Lemma query_users_ilike_Some d pattern us :
  query_users_ilike d pattern = Some us -> us = select_users_ilike d pattern.
Proof.
  unfold query_users_ilike. destruct (existsb _ (users d)); [done|]. by intros [= <-].
Qed.

End Matching.

(* ================================================================== *)
(** * Likes *)
(* ================================================================== *)

Section Likes.

Lemma count_likes_update d cid cid' :
  count_likes (update_comment_likes d cid) cid' = count_likes d cid'.
Proof. reflexivity. Qed.

Lemma update_comment_likes_idem d cid :
  update_comment_likes (update_comment_likes d cid) cid = update_comment_likes d cid.
Proof.
  unfold update_comment_likes at 1 3. rewrite count_likes_update.
  cbn [users users_id_seq streaming_history comments comment_likes update_comment_likes].
  f_equal. rewrite map_map. apply map_ext. intros c.
  destruct (Z.eqb_spec (c_id c) cid) as [He|He]; cbn [c_id].
  - by rewrite (proj2 (Z.eqb_eq _ _) He).
  - by rewrite (proj2 (Z.eqb_neq _ _) He).
Qed.

Lemma update_comment_likes_absent d cid :
  has_comment d cid = false -> update_comment_likes d cid = d.
Proof.
  intros Hc. unfold update_comment_likes. destruct d as [us sq sh cs ls].
  cbn [users users_id_seq streaming_history comments comment_likes] in *.
  f_equal. unfold has_comment in Hc. cbn [comments] in Hc.
  induction cs as [|c cs IH]; [done|]. cbn [map existsb] in *.
  apply orb_false_iff in Hc as [Hc1 Hc2]. rewrite Hc1. f_equal. by apply IH.
Qed.

Lemma select_comment_likes_update d cid :
  select_comment_likes (update_comment_likes d cid) cid
  = map (fun _ => count_likes d cid) (List.filter (fun c => c_id c =? cid) (comments d)).
Proof.
  unfold select_comment_likes, update_comment_likes. cbn [comments].
  induction (comments d) as [|c cs IH]; [done|]. cbn [map List.filter].
  destruct (Z.eqb_spec (c_id c) cid) as [He|He]; cbn [c_id].
  - rewrite (proj2 (Z.eqb_eq _ _) He). cbn [map c_likes]. by rewrite IH.
  - rewrite (proj2 (Z.eqb_neq _ _) He). done.
Qed.

Lemma comments_update_likes d cid c :
  In c (comments (update_comment_likes d cid)) -> c_id c = cid ->
  c_likes c = count_likes d cid.
Proof.
  unfold update_comment_likes. cbn [comments]. intros Hin Hid.
  apply in_map_iff in Hin as (c0 & <- & _).
  destruct (Z.eqb_spec (c_id c0) cid) as [He|He]; [done|congruence].
Qed.

Lemma select_comment_likes_nil d cid :
  select_comment_likes d cid = [] -> has_comment d cid = false.
Proof.
  unfold select_comment_likes, has_comment.
  induction (comments d) as [|c cs IH]; [done|]. cbn [map List.filter existsb].
  destruct (c_id c =? cid); [done|]. exact IH.
Qed.

Lemma insert_comment_like_again d cid uid d1 :
  insert_comment_like d cid uid = Some d1 ->
  insert_comment_like (update_comment_likes d1 cid) cid uid
  = Some (update_comment_likes d1 cid).
Proof.
  unfold insert_comment_like.
  destruct (int4 cid && int4 uid); [|done].
  destruct (existsb _ (comment_likes d)) eqn:Hex.
  - intros [= <-]. cbn [comment_likes update_comment_likes]. by rewrite Hex.
  - destruct (has_comment d cid && has_user d uid); [|done].
    intros [= <-]. cbn [comment_likes update_comment_likes add_history].
    rewrite existsb_app. cbn [existsb cl_comment_id cl_user_id].
    by rewrite !Z.eqb_refl, orb_true_r.
Qed.

End Likes.

(** C3.  When the like handler answers, the stored count of the comment
    is the number of [comment_likes] rows that reference it, and so is
    the count it returns; liking again as the same user changes neither
    the store nor the answer.  When the handler fails the store is left
    as it was.  ([index.ts] likes as [DEMO_USER_ID]; the later server as
    the authenticated user.) *)
Theorem like_count_matches_rows (userId : Z) (d : Db) (commentId : Z) :
  like_comment d commentId = like_as DEMO_USER_ID d commentId /\
  match like_as userId d commentId with
  | (d', LikeOk likes) =>
      likes = count_likes d' commentId /\
      (exists c, In c (comments d') /\ c_id c = commentId) /\
      (forall c, In c (comments d') -> c_id c = commentId ->
                 c_likes c = count_likes d' commentId) /\
      like_as userId d' commentId = (d', LikeOk likes)
  | (d', LikeServerError) => d' = d
  end.
Proof.
  split; [reflexivity|]. unfold like_as at 1.
  destruct (insert_comment_like d commentId userId) as [d1|] eqn:Hins; [|done].
  rewrite select_comment_likes_update.
  destruct (List.filter _ (comments d1)) as [|c cs] eqn:Hsel; cbn [map].
  - assert (Hno : has_comment d1 commentId = false).
    { apply select_comment_likes_nil. unfold select_comment_likes. by rewrite Hsel. }
    rewrite update_comment_likes_absent by done.
    revert Hins. unfold insert_comment_like.
    destruct (int4 commentId && int4 userId); [|done].
    destruct (existsb _ (comment_likes d)); [by intros [= <-]|].
    destruct (has_comment d commentId && has_user d userId) eqn:Hfk; [|done].
    intros [= <-]. apply andb_true_iff in Hfk as [Hc _].
    unfold has_comment in *. cbn [comments] in Hno. congruence.
  - rewrite count_likes_update. split; [done|]. split; [|split].
    + assert (Hc : In c (List.filter (fun c => c_id c =? commentId) (comments d1)))
        by (rewrite Hsel; by left).
      apply filter_In in Hc as [Hc Hid]. apply Z.eqb_eq in Hid.
      exists {| c_id := c_id c; c_user_id := c_user_id c;
                c_artist_name := c_artist_name c; c_content := c_content c;
                c_likes := count_likes d1 commentId |}.
      split; [|done]. unfold update_comment_likes. cbn [comments].
      apply in_map_iff. exists c. split; [|done].
      by rewrite (proj2 (Z.eqb_eq _ _) Hid).
    + apply comments_update_likes.
    + unfold like_as. rewrite (insert_comment_like_again d commentId userId d1 Hins).
      rewrite update_comment_likes_idem, select_comment_likes_update, Hsel.
      cbn [map]. done.
Qed.

(* ================================================================== *)
(** * Profile statistics *)
(* ================================================================== *)

Section Profile.

Lemma length_remove_dups_le (l : list string) :
  (length (remove_dups l) <= length l)%nat.
Proof.
  induction l as [|x l IH]; [done|]. cbn [remove_dups length].
  destruct (decide_rel elem_of x l); cbn [length]; lia.
Qed.

Lemma length_omap_le {A B} (f : A -> option B) (l : list A) :
  (length (omap f l) <= length l)%nat.
Proof.
  induction l as [|x l IH]; [done|]. cbn [omap list_omap length].
  destruct (f x); cbn [length]; lia.
Qed.

Lemma length_remove_dups_again (l : list string) x :
  In x l -> length (remove_dups (l ++ [x])) = length (remove_dups l).
Proof.
  intros Hx. apply Permutation_length, NoDup_Permutation; try apply NoDup_remove_dups.
  intros y. rewrite !elem_of_remove_dups, elem_of_app, list_elem_of_singleton.
  apply list_elem_of_In in Hx. split; [intros [?| ->]; done | by left].
Qed.

Lemma count_distinct_tracks_spec (rows : list StreamRow) :
  NoDup (remove_dups (omap sh_track_name rows)) /\
  forall t, In t (remove_dups (omap sh_track_name rows)) <->
            exists r, In r rows /\ sh_track_name r = Some t.
Proof.
  split; [apply NoDup_remove_dups|]. intros t.
  rewrite <- list_elem_of_In, elem_of_remove_dups, list_elem_of_omap.
  split; intros (r & Hr & Ht); exists r; split; auto; by apply list_elem_of_In.
Qed.

Lemma get_user_ok d param user stats :
  get_user d param = ProfileOk user stats ->
  (exists rest, profile_user_rows d param = Some (user :: rest)) /\
  stats = {| totalMinutes := Js.round_div (total_ms_of (user_history d (u_id user))) 60000;
             totalSongs := count_distinct_tracks (user_history d (u_id user)) |}.
Proof.
  unfold get_user. destruct (profile_user_rows d param) as [[|u rest]|]; try done.
  intros [= <- <-]. eauto.
Qed.

Lemma user_history_add d rows id :
  user_history (add_history d rows) id
  = user_history d id ++ List.filter (fun r => sh_user_id r =? id) rows.
Proof. unfold user_history, add_history. cbn [streaming_history]. apply List.filter_app. Qed.

Lemma count_history_user_history d id :
  count_history d id = length (user_history d id).
Proof. reflexivity. Qed.

Lemma omap_app {A B} (f : A -> option B) (l k : list A) :
  omap f (l ++ k) = omap f l ++ omap f k.
Proof.
  induction l as [|x l IH]; [done|]. cbn [app omap list_omap].
  destruct (f x); cbn; by rewrite <- IH.
Qed.

End Profile.

(** C9.  In a profile response [totalSongs] is the number of different
    track names among the stream events of the user: the length of a
    duplicate-free list that holds exactly the names of the user's rows.
    One more play of a name that the user has already played adds a stream
    event and leaves [totalSongs] as it was. *)
Theorem total_songs_counts_distinct_names
    (d : Db) (param : option string) (user : User) (stats : Stats) :
  get_user d param = ProfileOk user stats ->
  (exists names : list string,
      totalSongs stats = length names /\ NoDup names /\
      forall t, In t names <->
                exists r, In r (streaming_history d) /\
                          sh_user_id r = u_id user /\ sh_track_name r = Some t) /\
  (totalSongs stats <= count_history d (u_id user))%nat /\
  (forall r t,
      sh_user_id r = u_id user -> sh_track_name r = Some t ->
      (exists r0, In r0 (streaming_history d) /\
                  sh_user_id r0 = u_id user /\ sh_track_name r0 = Some t) ->
      count_history (add_history d [r]) (u_id user) = S (count_history d (u_id user)) /\
      exists stats',
        get_user (add_history d [r]) param = ProfileOk user stats' /\
        totalSongs stats' = totalSongs stats).
Proof.
  intros Hget. apply get_user_ok in Hget as [[rest Hrows] ->]. cbn [totalSongs].
  assert (Hin : forall r, In r (user_history d (u_id user)) <->
                          In r (streaming_history d) /\ sh_user_id r = u_id user).
  { intros r. unfold user_history. rewrite filter_In, Z.eqb_eq. tauto. }
  split; [|split].
  - exists (remove_dups (omap sh_track_name (user_history d (u_id user)))).
    destruct (count_distinct_tracks_spec (user_history d (u_id user))) as [Hnd Hel].
    split; [done|]. split; [done|]. intros t. rewrite Hel.
    split; intros (r & Hr & Ht); exists r.
    + apply Hin in Hr. tauto.
    + split; [apply Hin|]; tauto.
  - unfold count_distinct_tracks. rewrite count_history_user_history.
    etrans; [apply length_remove_dups_le | apply length_omap_le].
  - intros r t Hid Ht (r0 & Hr0 & Hid0 & Ht0).
    assert (Hadd : user_history (add_history d [r]) (u_id user)
                   = user_history d (u_id user) ++ [r]).
    { rewrite user_history_add. cbn [List.filter].
      by rewrite (proj2 (Z.eqb_eq _ _) Hid). }
    split.
    + rewrite !count_history_user_history, Hadd, length_app. cbn [length]. lia.
    + eexists. split.
      * unfold get_user.
        change (profile_user_rows (add_history d [r]) param)
          with (profile_user_rows d param).
        rewrite Hrows. reflexivity.
      * cbn [totalSongs]. unfold count_distinct_tracks.
        rewrite Hadd, omap_app. cbn [omap list_omap]. rewrite Ht.
        apply length_remove_dups_again.
        apply list_elem_of_In, list_elem_of_omap. exists r0.
        split; [apply list_elem_of_In, Hin|]; done.
Qed.


(* ================================================================== *)
(** * Artist leaderboard *)
(* ================================================================== *)

Section Leaderboard.

#[export] Instance total_desc_trans : Transitive total_desc.
Proof.
  intros a b c. unfold total_desc.
  destruct (at_total_ms a), (at_total_ms b), (at_total_ms c); try done. lia.
Qed.

#[export] Instance total_desc_total : Total total_desc.
Proof.
  intros a b. unfold total_desc.
  destruct (at_total_ms a), (at_total_ms b); try tauto. lia.
Qed.

Lemma StronglySorted_lookup_lt {A} (R : relation A) (l : list A) i j a b :
  StronglySorted R l -> l !! i = Some a -> l !! j = Some b -> (i < j)%nat -> R a b.
Proof.
  intros Hs. revert i j. induction Hs as [|x l Hs IH Hall]; intros i j Hi Hj Hlt; [done|].
  destruct j as [|j]; [lia|]. cbn in Hj. destruct i as [|i]; cbn in Hi.
  - injection Hi as <-. rewrite Forall_forall in Hall. apply Hall.
    by eapply list_elem_of_lookup_2.
  - apply (IH i j); [done|done|lia].
Qed.

Lemma sum_ms_Some rows D : sum_ms rows = Some D -> rows <> [].
Proof. by intros H ->. Qed.

Lemma artist_groups_inv d artistName g :
  In g (artist_groups d artistName) ->
  In (at_user g) (users d) /\
  artist_rows d artistName (u_id (at_user g)) <> [] /\
  at_total_ms g = sum_ms (artist_rows d artistName (u_id (at_user g))) /\
  at_song_count g = count_distinct_tracks (artist_rows d artistName (u_id (at_user g))).
Proof.
  unfold artist_groups. intros Hg.
  apply list_elem_of_In, list_elem_of_omap in Hg as (u & Hu & Hgu).
  apply list_elem_of_In in Hu.
  destruct (artist_rows d artistName (u_id u)) as [|r rows] eqn:Hrows; [done|].
  injection Hgu as <-. cbn [at_user at_total_ms at_song_count]. by rewrite Hrows.
Qed.

Lemma artist_groups_intro d artistName u :
  In u (users d) -> artist_rows d artistName (u_id u) <> [] ->
  exists g, In g (artist_groups d artistName) /\ at_user g = u.
Proof.
  intros Hu Hrows. unfold artist_groups.
  destruct (artist_rows d artistName (u_id u)) as [|r rows] eqn:Heq; [done|].
  eexists. split.
  - apply list_elem_of_In, list_elem_of_omap. exists u.
    split; [by apply list_elem_of_In|]. rewrite Heq. reflexivity.
  - reflexivity.
Qed.

Lemma artist_groups_ids d artistName :
  map (fun g => u_id (at_user g)) (artist_groups d artistName)
    `sublist_of` map u_id (users d).
Proof.
  unfold artist_groups. induction (users d) as [|u us IH]; [done|].
  cbn [omap list_omap map].
  destruct (artist_rows d artistName (u_id u)).
  - by apply sublist_cons.
  - cbn [map at_user]. by apply sublist_skip.
Qed.

Lemma lookup_map {A B} (f : A -> B) (l : list A) i :
  map f l !! i = option_map f (l !! i).
Proof. revert i. induction l as [|x l IH]; intros [|i]; cbn; auto. Qed.

Lemma leaderboard_ids d artistName :
  map userId (leaderboard d artistName)
  = map (fun g => u_id (at_user g)) (leaderboardQuery d artistName).
Proof.
  unfold leaderboard. apply list_eq. intros i.
  rewrite !lookup_map, list_lookup_imap.
  by destruct (leaderboardQuery d artistName !! i).
Qed.

Lemma omap_none {A B} (f : A -> option B) (l : list A) :
  (forall x, In x l -> f x = None) -> omap f l = [].
Proof.
  induction l as [|x l IH]; [done|]. intros Hall. cbn [omap list_omap].
  rewrite (Hall x) by (by left). apply IH. intros y Hy. apply Hall. by right.
Qed.

(** In any ordering of the groups that a compliant engine may return (a
    permutation, larger totals first), a user with a larger total stands
    before a user with a smaller one. *)
Lemma larger_total_first (rows : list ArtistTotal) i j g1 g2 D1 D2 :
  StronglySorted total_desc rows ->
  rows !! i = Some g1 -> rows !! j = Some g2 ->
  at_total_ms g1 = Some D1 -> at_total_ms g2 = Some D2 -> D2 < D1 ->
  (i < j)%nat.
Proof.
  intros Hs Hi Hj H1 H2 Hlt.
  destruct (Nat.lt_trichotomy i j) as [?|[->|Hji]]; [done| |].
  - rewrite Hi in Hj. injection Hj as ->. rewrite H1 in H2. injection H2 as ->. lia.
  - pose proof (StronglySorted_lookup_lt _ _ _ _ _ _ Hs Hj Hi Hji) as Hd.
    unfold total_desc in Hd. rewrite H1, H2 in Hd. lia.
Qed.

Lemma leaderboard_sorted d artistName :
  StronglySorted total_desc (merge_sort total_desc (artist_groups d artistName)).
Proof. apply StronglySorted_merge_sort; apply _. Qed.

Lemma leaderboard_length d artistName :
  length (leaderboard d artistName) = Nat.min 10 (length (artist_groups d artistName)).
Proof.
  unfold leaderboard, leaderboardQuery. rewrite length_imap, length_take.
  by rewrite merge_sort_Permutation.
Qed.

(** The entry at a position of the board is made from the group at that
    position of the descending order. *)
Lemma leaderboard_lookup d artistName i e :
  leaderboard d artistName !! i = Some e ->
  (i < 10)%nat /\ rank e = S i /\
  exists g, merge_sort total_desc (artist_groups d artistName) !! i = Some g /\
            In g (artist_groups d artistName) /\
            userId e = u_id (at_user g) /\
            lb_username e = u_username (at_user g) /\
            lb_avatar e = u_avatar (at_user g) /\
            minutes e = to_minutes (at_total_ms g) /\
            songCount e = at_song_count g /\
            isCurrentUser e = (u_id (at_user g) =? DEMO_USER_ID).
Proof.
  unfold leaderboard, leaderboardQuery. rewrite list_lookup_imap.
  destruct (take 10 _ !! i) as [g|] eqn:Hg; [|done].
  intros [= <-]. cbn [rank userId lb_username lb_avatar minutes songCount isCurrentUser].
  apply lookup_take_Some in Hg as [Hg Hi].
  split; [done|]. split; [lia|]. exists g. split; [done|]. split; [|done].
  apply list_elem_of_In. rewrite <- (merge_sort_Permutation total_desc).
  by eapply list_elem_of_lookup_2.
Qed.

Lemma leaderboard_lookup_lt d artistName i g :
  merge_sort total_desc (artist_groups d artistName) !! i = Some g -> (i < 10)%nat ->
  exists e, leaderboard d artistName !! i = Some e /\
            userId e = u_id (at_user g) /\ rank e = S i.
Proof.
  intros Hg Hi. unfold leaderboard, leaderboardQuery.
  rewrite list_lookup_imap, lookup_take_lt by done. rewrite Hg. cbn.
  eexists. split; [reflexivity|]. cbn [userId rank]. split; [done|lia].
Qed.

Lemma artist_rows_elem d artistName id r :
  In r (artist_rows d artistName id) ->
  In r (streaming_history d) /\ sh_user_id r = id /\
  exists a, sh_artist_name r = Some a /\ ilike a artistName = true.
Proof.
  unfold artist_rows. rewrite filter_In. intros [Hr Hm].
  apply andb_true_iff in Hm as [Hid Ha]. apply Z.eqb_eq in Hid.
  destruct (sh_artist_name r) as [a|]; [|done]. eauto.
Qed.

(** An artist name that matches a play raises in neither statement. *)
Lemma artist_queries_quiet d artistName r a :
  sh_artist_name r = Some a -> ilike a artistName = true ->
  artist_queries_raise d artistName = false.
Proof.
  intros _ Hm. unfold artist_queries_raise. apply orb_false_iff. split.
  - destruct (existsb _ (streaming_history d)) eqn:Hex; [|done].
    apply existsb_exists in Hex as (r' & _ & Hr').
    destruct (sh_artist_name r') as [a'|]; [|done].
    by rewrite (ilike_never_raises a a' artistName Hm) in Hr'.
  - destruct (existsb _ (comments d)) eqn:Hex; [|done].
    apply existsb_exists in Hex as (c & _ & Hc).
    by rewrite (ilike_never_raises a (c_artist_name c) artistName Hm) in Hc.
Qed.

Lemma get_artist_listed d artistName id D :
  sum_ms (artist_rows d artistName id) = Some D ->
  get_artist d (Some artistName) = ArtistOk (leaderboard d artistName).
Proof.
  intros HD. apply sum_ms_Some in HD.
  destruct (artist_rows d artistName id) as [|r rows] eqn:Hrows; [done|].
  assert (Hr : In r (artist_rows d artistName id)) by (rewrite Hrows; by left).
  apply artist_rows_elem in Hr as (_ & _ & a & Ha & Hm).
  unfold get_artist. by rewrite (artist_queries_quiet d artistName r a Ha Hm).
Qed.

End Leaderboard.

(** C4.  For an artist and two users whose summed durations for it (the
    sum of [ms_played] over the user's rows that the query selects) are
    [D1 > D2]: the handler answers with the leaderboard; the leaderboard
    has ten entries, or as many as there are listeners of the artist if
    these are fewer, and at least two users listen; its entry at position
    [i] has rank [i + 1] and is the user at position [i] of the
    descending order of the query, so the totals of the listed users
    descend; in that order the first user stands before the second;
    whenever the user with [D2] is on the leaderboard, the user with [D1]
    is on it with a smaller rank; with at most ten listeners both are on
    it; and when the user with [D1] is not on it, it holds ten users
    whose totals are not below [D1]. *)
Theorem leaderboard_ranks_by_total
    (d : Db) (artistName : string) (u1 u2 : User) (D1 D2 : Z) :
  In u1 (users d) -> In u2 (users d) ->
  sum_ms (artist_rows d artistName (u_id u1)) = Some D1 ->
  sum_ms (artist_rows d artistName (u_id u2)) = Some D2 ->
  D2 < D1 ->
  get_artist d (Some artistName) = ArtistOk (leaderboard d artistName) /\
  length (leaderboard d artistName) = Nat.min 10 (length (artist_groups d artistName)) /\
  (2 <= length (artist_groups d artistName))%nat /\
  (forall i e, leaderboard d artistName !! i = Some e ->
     rank e = S i /\
     listed_at (merge_sort total_desc (artist_groups d artistName)) i (userId e) /\
     exists u, In u (users d) /\ userId e = u_id u /\
               artist_rows d artistName (u_id u) <> []) /\
  (forall i j e e', (i < j)%nat ->
     leaderboard d artistName !! i = Some e ->
     leaderboard d artistName !! j = Some e' ->
     desc (sum_ms (artist_rows d artistName (userId e)))
          (sum_ms (artist_rows d artistName (userId e')))) /\
  (exists i j, (i < j)%nat /\
     listed_at (merge_sort total_desc (artist_groups d artistName)) i (u_id u1) /\
     listed_at (merge_sort total_desc (artist_groups d artistName)) j (u_id u2)) /\
  (forall j e2, leaderboard d artistName !! j = Some e2 -> userId e2 = u_id u2 ->
     exists i e1, leaderboard d artistName !! i = Some e1 /\
                  userId e1 = u_id u1 /\ (rank e1 < rank e2)%nat) /\
  ((length (artist_groups d artistName) <= 10)%nat ->
     exists i j e1 e2, (i < j)%nat /\
       leaderboard d artistName !! i = Some e1 /\ userId e1 = u_id u1 /\
       leaderboard d artistName !! j = Some e2 /\ userId e2 = u_id u2) /\
  ((forall e1, In e1 (leaderboard d artistName) -> userId e1 <> u_id u1) ->
     length (leaderboard d artistName) = 10%nat /\
     forall e, In e (leaderboard d artistName) ->
       desc (sum_ms (artist_rows d artistName (userId e))) (Some D1)).
Proof.
  intros Hu1 Hu2 HD1 HD2 Hlt.
  set (sorted := merge_sort total_desc (artist_groups d artistName)).
  assert (Hsorted : StronglySorted total_desc sorted) by apply leaderboard_sorted.
  assert (Hperm : forall g, g ∈ sorted <-> In g (artist_groups d artistName)).
  { intros g. unfold sorted. rewrite merge_sort_Permutation. apply list_elem_of_In. }
  assert (Hlen : length sorted = length (artist_groups d artistName)).
  { unfold sorted. by rewrite merge_sort_Permutation. }
  assert (Hlisted : forall u D, In u (users d) ->
            sum_ms (artist_rows d artistName (u_id u)) = Some D ->
            exists i g, sorted !! i = Some g /\ at_user g = u /\ at_total_ms g = Some D).
  { intros u D Hu HD.
    destruct (artist_groups_intro d artistName u Hu (sum_ms_Some _ _ HD)) as (g & Hg & Hgu).
    pose proof (proj2 (Hperm g) Hg) as Hel.
    apply list_elem_of_lookup in Hel as [i Hi]. exists i, g.
    split; [done|]. split; [done|].
    destruct (artist_groups_inv d artistName g Hg) as (_ & _ & -> & _). by rewrite Hgu. }
  assert (Htotal : forall i g, sorted !! i = Some g ->
            at_total_ms g = sum_ms (artist_rows d artistName (u_id (at_user g)))).
  { intros i g Hi. apply artist_groups_inv, Hperm. by eapply list_elem_of_lookup_2. }
  destruct (Hlisted u1 D1 Hu1 HD1) as (i1 & g1 & Hi1 & Hg1 & Ht1).
  destruct (Hlisted u2 D2 Hu2 HD2) as (i2 & g2 & Hi2 & Hg2 & Ht2).
  assert (H12 : (i1 < i2)%nat) by (eapply (larger_total_first sorted); eauto).
  assert (Hboard : forall i e, leaderboard d artistName !! i = Some e ->
            (i < 10)%nat /\ rank e = S i /\
            exists g, sorted !! i = Some g /\ In g (artist_groups d artistName) /\
                      userId e = u_id (at_user g)).
  { intros i e He. apply leaderboard_lookup in He as (Hi & Hr & g & Hg & Hin & Hid & _).
    split; [done|]. split; [done|]. by exists g. }
  split; [by eapply get_artist_listed|].
  split; [apply leaderboard_length|].
  split.
  { rewrite <- Hlen. apply lookup_lt_Some in Hi2. lia. }
  split.
  { intros i e He. destruct (Hboard i e He) as (_ & Hr & g & Hg & Hin & Hid).
    split; [done|]. split; [by exists g|].
    destruct (artist_groups_inv d artistName g Hin) as (Hu & Hrows & _).
    by exists (at_user g). }
  split.
  { intros i j e e' Hij He He'.
    destruct (Hboard i e He) as (_ & _ & g & Hg & _ & ->).
    destruct (Hboard j e' He') as (_ & _ & g' & Hg' & _ & ->).
    rewrite <- (Htotal i g Hg), <- (Htotal j g' Hg').
    exact (StronglySorted_lookup_lt _ _ _ _ _ _ Hsorted Hg Hg' Hij). }
  split.
  { exists i1, i2. split; [done|]. split; [exists g1 | exists g2]; by subst. }
  split.
  { intros j e2 He2 Hid.
    destruct (Hboard j e2 He2) as (Hj & Hr2 & g & Hg & _ & Hidg).
    assert (Htg : at_total_ms g = Some D2).
    { rewrite (Htotal j g Hg), <- Hidg, Hid. done. }
    assert (Hij : (i1 < j)%nat) by (eapply (larger_total_first sorted); eauto).
    destruct (leaderboard_lookup_lt d artistName i1 g1 Hi1) as (e1 & He1 & Hid1 & Hr1); [lia|].
    exists i1, e1. split; [done|]. rewrite Hid1, Hg1, Hr1, Hr2. split; [done|lia]. }
  split.
  { intros Hten.
    assert (Hi2' : (i2 < 10)%nat) by (apply lookup_lt_Some in Hi2; lia).
    destruct (leaderboard_lookup_lt d artistName i1 g1 Hi1) as (e1 & He1 & Hid1 & _); [lia|].
    destruct (leaderboard_lookup_lt d artistName i2 g2 Hi2) as (e2 & He2 & Hid2 & _); [lia|].
    exists i1, i2, e1, e2. rewrite Hid1, Hid2, Hg1, Hg2. done. }
  intros Hnot.
  assert (Hi1' : (10 <= i1)%nat).
  { destruct (Nat.le_gt_cases 10 i1) as [?|Hi]; [done|].
    destruct (leaderboard_lookup_lt d artistName i1 g1 Hi1 Hi) as (e1 & He1 & Hid1 & _).
    exfalso. apply (Hnot e1); [|by rewrite Hid1, Hg1].
    by eapply list_elem_of_In, list_elem_of_lookup_2. }
  split.
  { rewrite leaderboard_length, <- Hlen. apply lookup_lt_Some in Hi1. lia. }
  intros e He. apply list_elem_of_In, list_elem_of_lookup in He as [i He].
  destruct (Hboard i e He) as (Hi & _ & g & Hg & _ & ->).
  rewrite <- (Htotal i g Hg), <- Ht1.
  apply (StronglySorted_lookup_lt _ _ _ _ _ _ Hsorted Hg Hi1). lia.
Qed.

(* ================================================================== *)
(** * User resolution and the bulk synchronisation *)
(* ================================================================== *)

Section Users.

Lemma insert_user_inr d name av d' id :
  insert_user d name av = inr (d', id) ->
  exists name' av',
    varchar 255 name = Some name' /\ varchar 50 av = Some av' /\
    id = users_id_seq d + 1 /\ int4 id = true /\
    has_user d id = false /\
    existsb (fun u => String.eqb (u_username u) name') (users d) = false /\
    d' = {| users := users d ++ [{| u_id := id; u_username := name'; u_avatar := av' |}];
            users_id_seq := id;
            streaming_history := streaming_history d;
            comments := comments d; comment_likes := comment_likes d |}.
Proof.
  unfold insert_user.
  destruct (varchar 255 name) as [name'|]; [|done].
  destruct (varchar 50 av) as [av'|]; [|done].
  destruct (int4 (users_id_seq d + 1)) eqn:Hseq; [|done].
  destruct (negb (has_user d (users_id_seq d + 1)) && _) eqn:Hc; [|done].
  intros [= <- <-]. apply andb_true_iff in Hc as [Hc1 Hc2].
  apply negb_true_iff in Hc1, Hc2. exists name', av'. done.
Qed.

Lemma insert_user_inl d name av d' :
  insert_user d name av = inl d' ->
  users d' = users d /\ streaming_history d' = streaming_history d /\
  comments d' = comments d /\ comment_likes d' = comment_likes d.
Proof.
  unfold insert_user.
  destruct (varchar 255 name) as [name'|]; [|by intros [= <-]].
  destruct (varchar 50 av) as [av'|]; [|by intros [= <-]].
  destruct (int4 (users_id_seq d + 1)); [|by intros [= <-]].
  destruct (negb _ && _); [done|]. by intros [= <-].
Qed.

Lemma has_user_snoc d d' u :
  users d' = users d ++ [u] -> has_user d' (u_id u) = true.
Proof.
  intros Hu. unfold has_user. rewrite Hu, existsb_app. cbn [existsb].
  by rewrite Z.eqb_refl, orb_true_r.
Qed.

Lemma insert_user_known d name av d' id :
  insert_user d name av = inr (d', id) ->
  has_user d' id = true /\ streaming_history d' = streaming_history d.
Proof.
  intros H. apply insert_user_inr in H as (name' & av' & _ & _ & _ & _ & _ & _ & ->).
  split; [|done]. by eapply (has_user_snoc d _ {| u_id := id |}).
Qed.

Lemma filter_head_In {A} (f : A -> bool) (l : list A) x rest :
  List.filter f l = x :: rest -> In x l /\ f x = true.
Proof.
  intros H. apply filter_In. rewrite H. by left.
Qed.

Lemma sync_user_id_inr d name d' id :
  sync_user_id d name = inr (d', id) ->
  streaming_history d' = streaming_history d /\ has_user d' id = true.
Proof.
  unfold sync_user_id.
  destruct (query_users_ilike d name) as [[|u rest]|] eqn:Hq; [| |done].
  - intros Hins. apply insert_user_known in Hins as [? ?]. done.
  - intros [= <- <-]. split; [done|].
    apply query_users_ilike_Some in Hq. symmetry in Hq.
    apply filter_head_In in Hq as [Hu _]. apply has_user_elem. eauto.
Qed.

Lemma sync_user_id_inl d name d' :
  sync_user_id d name = inl d' -> streaming_history d' = streaming_history d.
Proof.
  unfold sync_user_id. destruct (query_users_ilike d name) as [[|u rest]|]; [| |].
  - intros H. by apply insert_user_inl in H as (_ & ? & _).
  - done.
  - by intros [= <-].
Qed.

Lemma user_history_other d rows uid :
  Forall (fun r => sh_user_id r <> uid) rows ->
  user_history (add_history d rows) uid = user_history d uid.
Proof.
  intros Hall. rewrite user_history_add.
  replace (List.filter (fun r => sh_user_id r =? uid) rows) with (@nil StreamRow);
    [by rewrite app_nil_r|].
  induction Hall as [|r rows Hr _ IH]; [done|]. cbn [List.filter].
  by rewrite (proj2 (Z.eqb_neq _ _) Hr).
Qed.

Lemma user_history_same_rows d d' uid :
  streaming_history d' = streaming_history d -> user_history d' uid = user_history d uid.
Proof. unfold user_history. by intros ->. Qed.

(** A turn of the synchronisation leaves a user who has stream events
    alone: it sends no statement with a row of this user. *)
Lemma sync_user_keeps st entry uid :
  (0 < count_history (run_db st) uid)%nat ->
  user_history (run_db (sync_user st entry)) uid = user_history (run_db st) uid /\
  exists evs, run_trace (sync_user st entry) = run_trace st ++ evs /\
    forall values row, In (InsertStatement values) evs -> In row values ->
                       v_user_id row <> uid.
Proof.
  intros Hcount. destruct entry as [username userFiles]. unfold sync_user.
  destruct (sync_user_id (run_db st) username) as [d'|[d' userId]] eqn:Hres.
  - apply sync_user_id_inl in Hres. cbn [emit run_db run_trace].
    split; [by apply user_history_same_rows|].
    exists [UserErrorLogged username]. split; [done|].
    intros values row [Hev|[]]. done.
  - apply sync_user_id_inr in Hres as [Hsame Huser].
    destruct (Nat.ltb_spec 0 (count_history d' userId)) as [Hhas|Hnone].
    + cbn [run_db run_trace]. split; [by apply user_history_same_rows|].
      exists []. split; [by rewrite app_nil_r|]. by intros values row [].
    + assert (Hne : userId <> uid).
      { intros ->. rewrite !count_history_user_history in *.
        rewrite (user_history_same_rows _ _ uid Hsame) in Hnone. lia. }
      rewrite process_files_spec. cbn [fst run_db run_trace]. split.
      * rewrite user_history_other; [by apply user_history_same_rows|].
        apply Forall_forall. intros row Hrow. apply list_elem_of_In in Hrow.
        apply in_concat in Hrow as (rows & Hrows & Hrow).
        apply in_map_iff in Hrows as (file & <- & _).
        apply persisted_rows_valid in Hrow as (_ & e & _ & Hst).
        apply stored_user_id in Hst. congruence.
      * eexists. split; [reflexivity|]. intros values row Hev Hrow.
        apply in_concat in Hev as (evs & Hevs & Hev).
        apply in_map_iff in Hevs as (file & <- & _).
        destruct (file_events_statement _ _ _ _ _ Hev Hrow) as (e & _ & ->). done.
Qed.

Lemma sync_users_keep entries : forall st uid,
  (0 < count_history (run_db st) uid)%nat ->
  user_history (run_db (sync_users st entries)) uid = user_history (run_db st) uid /\
  exists evs, run_trace (sync_users st entries) = run_trace st ++ evs /\
    forall values row, In (InsertStatement values) evs -> In row values ->
                       v_user_id row <> uid.
Proof.
  induction entries as [|entry rest IH]; intros st uid Hcount; cbn [sync_users fold_left].
  - split; [done|]. exists []. split; [by rewrite app_nil_r|]. by intros values row [].
  - destruct (sync_user_keeps st entry uid Hcount) as (Hh & evs1 & Ht1 & Hev1).
    assert (Hcount' : (0 < count_history (run_db (sync_user st entry)) uid)%nat).
    { rewrite count_history_user_history, Hh. exact Hcount. }
    destruct (IH (sync_user st entry) uid Hcount') as (Hh2 & evs2 & Ht2 & Hev2).
    fold (sync_users (sync_user st entry) rest).
    split; [by rewrite Hh2|]. exists (evs1 ++ evs2).
    split; [by rewrite Ht2, Ht1, app_assoc|].
    intros values row Hev. apply in_app_or in Hev as [Hev|Hev]; eauto.
Qed.

End Users.

(** C5.  A user who has at least one stream event is skipped by the bulk
    synchronisation, whatever the files of the working directory are:
    the run sends no insert statement with a row of this user and the
    user's stream events are afterwards what they were.  This holds in
    particular for a second run after a run that gave the user an event.
    The demo load of [index.ts] has the same guard for the demo user. *)
Theorem bulk_sync_skips_users_with_history (d : Db) (dir : list File) (uid : Z) :
  (0 < count_history d uid)%nat ->
  user_history (run_db (syncAllUsersFromFiles d dir)) uid = user_history d uid /\
  count_history (run_db (syncAllUsersFromFiles d dir)) uid = count_history d uid /\
  (forall values row,
      In (InsertStatement values) (run_trace (syncAllUsersFromFiles d dir)) ->
      In row values -> v_user_id row <> uid) /\
  (forall dir',
      user_history (run_db (syncAllUsersFromFiles
                              (run_db (syncAllUsersFromFiles d dir)) dir')) uid
      = user_history d uid) /\
  (uid = DEMO_USER_ID -> loadDemoData d dir = (start_run d, 0%nat)).
Proof.
  intros Hcount.
  assert (Hsync : forall d0 dir0, (0 < count_history d0 uid)%nat ->
            user_history (run_db (syncAllUsersFromFiles d0 dir0)) uid = user_history d0 uid /\
            forall values row,
              In (InsertStatement values) (run_trace (syncAllUsersFromFiles d0 dir0)) ->
              In row values -> v_user_id row <> uid).
  { intros d0 dir0 Hc. unfold syncAllUsersFromFiles.
    destruct (userFilesMap _ []) as [m|]; [|by split].
    destruct (sync_users_keep (object_entries m) (start_run d0) uid Hc)
      as (Hh & evs & Ht & Hev).
    split; [done|]. rewrite Ht. cbn [run_trace start_run app]. exact Hev. }
  destruct (Hsync d dir Hcount) as [Hh Hev].
  split; [done|]. split; [by rewrite !count_history_user_history, Hh|].
  split; [done|]. split.
  - intros dir'. rewrite <- Hh. apply Hsync.
    by rewrite count_history_user_history, Hh.
  - intros ->. unfold loadDemoData.
    destruct (Nat.ltb_spec 0 (count_history d DEMO_USER_ID)); [done|lia].
Qed.

(* ================================================================== *)
(** * Upload *)
(* ================================================================== *)

Section Upload.

(** A file that succeeds leaves the rows of all its valid records and
    has sent all its statements. *)
Lemma persisted_rows_all known userId file :
  file_succeeds known userId file = true ->
  mapM (stored userId) (valid_of file) = Some (persisted_rows known userId file) /\
  file_events known userId file = map (statement_of userId) (file_statements file).
Proof.
  intros Hs.
  destruct (persisted_rows_prefix known userId file) as (Hrows & Hevents & Hlen).
  destruct (accepted_spec known userId (file_statements file)) as (_ & _ & _ & Hall & _).
  pose proof Hs as Hok. unfold file_succeeds in Hok.
  apply andb_true_iff in Hok as [_ Hok]. apply Hall in Hok.
  rewrite Hs, app_nil_r in Hevents. rewrite Hevents, Hok.
  rewrite take_ge by lia. split; [|done].
  rewrite <- Hrows. f_equal. rewrite Hok. unfold file_statements. rewrite take_ge; [done|].
  rewrite batches_length. unfold ceil_div, BATCH_SIZE.
  pose proof (Nat.div_mod_eq (length (valid_of file) + (500 - 1)) 500).
  pose proof (Nat.mod_upper_bound (length (valid_of file) + (500 - 1)) 500). lia.
Qed.

(** A file that fails leaves the rows of its batches before the refused
    one; the refused statement is the last one sent, and the error is
    logged. *)
Lemma persisted_rows_failed known userId file :
  file_succeeds known userId file = false ->
  exists k,
    ((k * BATCH_SIZE < length (valid_of file))%nat \/
     (readable file = false /\ k = 0%nat)) /\
    mapM (stored userId) (take (k * BATCH_SIZE) (valid_of file))
    = Some (persisted_rows known userId file) /\
    file_events known userId file
    = map (statement_of userId) (take (S k) (file_statements file))
      ++ [FileErrorLogged (originalname file)].
Proof.
  intros Hfail.
  destruct (persisted_rows_prefix known userId file) as (Hrows & Hevents & Hlen).
  destruct (accepted_spec known userId (file_statements file)) as (_ & _ & _ & Hall & _).
  exists (length (accepted known userId (file_statements file))).
  split; [|split; [done|by rewrite Hevents, Hfail]].
  destruct (valid_of file) as [|e0 rest] eqn:Hvalid.
  - right. unfold file_succeeds, file_statements in Hfail. rewrite Hvalid in Hfail.
    unfold file_statements. rewrite Hvalid. cbn in Hfail |- *.
    by rewrite andb_true_r in Hfail.
  - left. rewrite <- Hvalid. apply batches_length_lt. fold (file_statements file).
    destruct (Nat.eq_dec (length (accepted known userId (file_statements file)))
                (length (file_statements file))) as [He|He]; [|lia].
    apply Hall in He. unfold file_succeeds in Hfail. rewrite He, andb_true_r in Hfail.
    unfold readable, valid_of in *. destruct (content file) as [|data]; [done|].
    destruct (validRecords data); [|done]. by rewrite bool_decide_true in Hfail by eauto.
Qed.

Lemma batches_head {A} (records : list A) :
  records <> [] -> exists rest, batches records = take BATCH_SIZE records :: rest.
Proof.
  destruct records as [|x records]; [done|]. intros _.
  unfold batches. cbn [length batches_from]. eexists. reflexivity.
Qed.

Lemma readable_false_valid file : readable file = false -> valid_of file = [].
Proof.
  unfold readable, valid_of. destruct (content file) as [|data]; [done|].
  destruct (validRecords data); [|done]. by rewrite bool_decide_true by eauto.
Qed.

(** A file that cannot be read, or whose first statement is refused,
    leaves nothing. *)
Lemma persisted_rows_first_refused known userId file :
  readable file = false \/
  mapM (stored userId) (take BATCH_SIZE (valid_of file)) = None ->
  persisted_rows known userId file = [] /\ file_succeeds known userId file = false.
Proof.
  unfold persisted_rows, file_succeeds, file_statements. intros [Hr|Href].
  - rewrite Hr, (readable_false_valid file Hr). done.
  - destruct (valid_of file) as [|e rest] eqn:Hv; [done|].
    destruct (batches_head (e :: rest)) as [bs ->]; [done|].
    cbn [accepted all_accepted forallb]. unfold statement_rows.
    destruct (forallb _ _); [rewrite Href|]; cbn; by rewrite andb_false_r.
Qed.

Lemma upload_user_inr d name d' id :
  upload_user d name = inr (d', id) ->
  has_user d' id = true /\
  streaming_history d' = streaming_history d /\
  match select_users_by_username d name with
  | u :: _ => d' = d /\ id = u_id u
  | [] => exists name',
            varchar 255 name = Some name' /\ id = users_id_seq d + 1 /\
            users d' = users d ++ [{| u_id := id; u_username := name'; u_avatar := "goat" |}]
  end.
Proof.
  unfold upload_user, select_users_by_username.
  destruct (List.filter _ (users d)) as [|u rest] eqn:Hsel.
  - intros Hins. destruct (insert_user_known _ _ _ _ _ Hins) as [Hu Hh].
    split; [done|]. split; [done|].
    apply insert_user_inr in Hins as (name' & av' & Hn & Hav & Hid & _ & _ & _ & ->).
    rewrite varchar_goat in Hav. injection Hav as <-. by exists name'.
  - intros [= <- <-]. split; [|done].
    apply filter_head_In in Hsel as [Hu _]. apply has_user_elem. eauto.
Qed.

Lemma upload_user_inl d name d' :
  upload_user d name = inl d' ->
  select_users_by_username d name = [] /\ insert_user d name "goat" = inl d' /\
  users d' = users d /\ streaming_history d' = streaming_history d.
Proof.
  unfold upload_user. destruct (select_users_by_username d name); [|done].
  intros H. split; [done|]. split; [done|].
  by apply insert_user_inl in H as (? & ? & _).
Qed.

Lemma upload_spec d req d' userId :
  upload_user d (upload_username req) = inr (d', userId) ->
  upload d req =
  ({| run_db := add_history d' (concat (map (persisted_rows true userId) (files req)));
      run_trace := concat (map (file_events true userId) (files req)) |},
   UploadOk userId (length (concat (map (persisted_rows true userId) (files req))))).
Proof.
  intros Hres. unfold upload. rewrite Hres.
  apply upload_user_inr in Hres as (Hu & _).
  rewrite process_files_spec. cbn [run_db run_trace start_run app]. rewrite Hu.
  reflexivity.
Qed.

Lemma upload_not_multipart_spec d req :
  upload_not_multipart d (body_username req) (uuid req)
  = match upload_user d (upload_username req) with
    | inl d' => (d', UploadServerError)
    | inr (d', _) => (d', UploadServerError)
    end.
Proof. by destruct req. Qed.

End Upload.

(* ================================================================== *)
(** * Claims about the upload *)
(* ================================================================== *)

(** C6.  The upload looks its user up with [username = $1]: on a store
    that holds "Nova", an upload as "nova" (the same name but for the
    case of a letter) finds no row and creates a second user, whereas
    the bulk synchronisation, which looks the name up with [ILIKE],
    resolves "nova" to the existing user and creates nothing. *)
Theorem upload_lookup_is_case_sensitive :
  same_modulo_case "nova" "Nova" /\
  upload nova_db (upload_as "nova" [])
  = ({| run_db :=
          {| users := [{| u_id := 1; u_username := "Nova"; u_avatar := "goat" |};
                       {| u_id := 2; u_username := "nova"; u_avatar := "goat" |}];
             users_id_seq := 2; streaming_history := [];
             comments := []; comment_likes := [] |};
        run_trace := [] |}, UploadOk 2 0) /\
  sync_user_id nova_db "nova" = inr (nova_db, 1).
Proof. split; [reflexivity|]. split; reflexivity. Qed.

(** C7, amended.  Once the user of an upload is resolved, the response is
    a success, and every file leaves in the store, in the trace and in
    [recordsImported] what it alone determines, whatever happened to the
    files before it: a file that succeeds leaves the rows of all its
    valid records and no error; a file that fails leaves the rows of the
    batches before the refused one, no statement after the refused one,
    and its error in the log.  [recordsImported] is the number of rows
    persisted, those of the leading batches of failed files included.
    The file loop of the bulk synchronisation and of the demo load is the
    same; there the user may be missing from the store, and then every
    statement is refused. *)
Theorem file_errors_are_isolated (d : Db) (req : UploadRequest) (d' : Db) (userId : Z) :
  upload_user d (upload_username req) = inr (d', userId) ->
  upload d req
  = ({| run_db := add_history d' (concat (map (persisted_rows true userId) (files req)));
        run_trace := concat (map (file_events true userId) (files req)) |},
     UploadOk userId (length (concat (map (persisted_rows true userId) (files req))))) /\
  (forall uid fs st total,
     process_files uid fs st total
     = ({| run_db := add_history (run_db st)
                       (concat (map (persisted_rows (has_user (run_db st) uid) uid) fs));
           run_trace := run_trace st
                        ++ concat (map (file_events (has_user (run_db st) uid) uid) fs) |},
        (total + length (concat (map (persisted_rows (has_user (run_db st) uid) uid)
                                   fs)))%nat)) /\
  (forall known uid file,
     (file_succeeds known uid file = true <->
        readable file = true /\
        (valid_of file = [] \/
         (known = true /\ forall e, In e (valid_of file) -> is_Some (stored uid e)))) /\
     (file_succeeds known uid file = true ->
        mapM (stored uid) (valid_of file) = Some (persisted_rows known uid file) /\
        file_events known uid file = map (statement_of uid) (file_statements file)) /\
     (file_succeeds known uid file = false ->
        exists k,
          ((k * BATCH_SIZE < length (valid_of file))%nat \/
           (readable file = false /\ k = 0%nat)) /\
          mapM (stored uid) (take (k * BATCH_SIZE) (valid_of file))
          = Some (persisted_rows known uid file) /\
          file_events known uid file
          = map (statement_of uid) (take (S k) (file_statements file))
            ++ [FileErrorLogged (originalname file)])).
Proof.
  intros Hres. split; [by apply upload_spec|]. split.
  - intros uid fs st total. apply process_files_spec.
  - intros known uid file. split; [|split].
    + unfold file_succeeds, file_statements. rewrite andb_true_iff, all_accepted_iff. done.
    + apply persisted_rows_all.
    + apply persisted_rows_failed.
Qed.

(** C10, amended.  The user of an upload is resolved or created before
    the files are looked at.  When that gives a user - the name is found,
    or the new row is accepted - the response of a multipart request is a
    success with the user's identifier and the user's row is in the
    store, whatever the files are; when every file is unreadable or has
    its first statement refused, the response reports 0 records, the
    store is the one left by the resolution of the user, and each file's
    error is logged.  When the new row is refused - the name is too wide
    for its column, the sequence is at its end, or the identifier or the
    name as it would be stored is taken - the response is the server
    error and no user is added.  A request that is not multipart resolves
    the user in the same way and is always answered with the server
    error. *)
Theorem upload_resolves_the_user_first (d : Db) (req : UploadRequest) :
  match upload_user d (upload_username req) with
  | inr (d', userId) =>
      (exists u, In u (users d') /\ u_id u = userId /\
         match select_users_by_username d (upload_username req) with
         | found :: _ => u = found /\ d' = d /\ u_username u = upload_username req
         | [] => varchar 255 (upload_username req) = Some (u_username u) /\
                 u_avatar u = "goat" /\ users d' = users d ++ [u] /\
                 userId = users_id_seq d + 1 /\ has_user d userId = false
         end) /\
      (exists st n, upload d req = (st, UploadOk userId n) /\ users (run_db st) = users d') /\
      ((forall file, In file (files req) ->
          readable file = false \/
          mapM (stored userId) (take BATCH_SIZE (valid_of file)) = None) ->
       exists st, upload d req = (st, UploadOk userId 0) /\ run_db st = d' /\
         forall file, In file (files req) ->
                      In (FileErrorLogged (originalname file)) (run_trace st)) /\
      upload_not_multipart d (body_username req) (uuid req) = (d', UploadServerError)
  | inl d' =>
      upload d req = (start_run d', UploadServerError) /\
      upload_not_multipart d (body_username req) (uuid req) = (d', UploadServerError) /\
      users d' = users d /\
      select_users_by_username d (upload_username req) = [] /\
      match varchar 255 (upload_username req) with
      | None => d' = d
      | Some name' =>
          int4 (users_id_seq d + 1) = false \/
          has_user d (users_id_seq d + 1) = true \/
          existsb (fun u => String.eqb (u_username u) name') (users d) = true
      end
  end.
Proof.
  destruct (upload_user d (upload_username req)) as [d'|[d' userId]] eqn:Hres.
  - split; [unfold upload; by rewrite Hres|].
    split; [rewrite upload_not_multipart_spec; by rewrite Hres|].
    apply upload_user_inl in Hres as (Hsel & Hins & Hu & _).
    split; [done|]. split; [done|]. revert Hins. unfold insert_user.
    destruct (varchar 255 (upload_username req)) as [name'|]; [|by intros [= <-]].
    rewrite varchar_goat.
    destruct (int4 (users_id_seq d + 1)); [|by left].
    destruct (has_user d (users_id_seq d + 1)); [by right; left|].
    destruct (existsb _ (users d)); [by right; right|]. done.
  - pose proof (upload_spec d req d' userId Hres) as Hup.
    pose proof Hres as Hres'. apply upload_user_inr in Hres' as (Hu & _ & Hsel).
    split; [|split; [|split]].
    + unfold upload_user in Hres. unfold select_users_by_username in *.
      destruct (List.filter _ (users d)) as [|u rest] eqn:Hf.
      * destruct Hsel as (name' & Hn & Hid & Husers).
        apply insert_user_inr in Hres as (? & ? & _ & _ & _ & _ & Hhas & _ & _).
        eexists. split; [rewrite Husers; apply in_or_app; right; by left|].
        cbn [u_id u_username u_avatar]. done.
      * destruct Hsel as [-> ->]. apply filter_head_In in Hf as [Hin Hname].
        apply String.eqb_eq in Hname. exists u. done.
    + eexists _, _. split; [exact Hup|]. reflexivity.
    + intros Hall.
      assert (Hnil : concat (map (persisted_rows true userId) (files req)) = []).
      { revert Hall. generalize (files req). intros fs.
        induction fs as [|file rest IH]; intros Hall; [done|]. cbn [map concat].
        destruct (persisted_rows_first_refused true userId file) as [-> _];
          [apply Hall; by left|].
        apply IH. intros f Hf. apply Hall. by right. }
      eexists. split; [rewrite Hup, Hnil; reflexivity|].
      cbn [run_db run_trace]. split; [apply add_history_nil|].
      intros file Hfile.
      destruct (persisted_rows_first_refused true userId file (Hall file Hfile)) as [_ Hs].
      apply in_concat. exists (file_events true userId file).
      split; [by apply in_map|].
      unfold file_events. rewrite Hs. apply in_or_app. right. by left.
    + rewrite upload_not_multipart_spec. by rewrite Hres.
Qed.

(* ================================================================== *)
(** * The scenario of the new user "Nova" *)
(* ================================================================== *)

Section Scenario.

Lemma Permutation_List_filter {A} (f : A -> bool) (l l' : list A) :
  l ≡ₚ l' -> List.filter f l ≡ₚ List.filter f l'.
Proof.
  induction 1 as [|x l l' _ IH|x y l|l l' l'' _ IH1 _ IH2]; cbn [List.filter].
  - done.
  - destruct (f x); [by constructor|done].
  - destruct (f x), (f y); try done. apply perm_swap.
  - by etrans.
Qed.

Lemma List_filter_none {A} (f : A -> bool) (l : list A) :
  (forall x, In x l -> f x = false) -> List.filter f l = [].
Proof.
  induction l as [|x l IH]; [done|]. intros H. cbn [List.filter].
  rewrite (H x) by (by left). apply IH. intros y Hy. apply H. by right.
Qed.

Lemma List_filter_all {A} (f : A -> bool) (l : list A) :
  (forall x, In x l -> f x = true) -> List.filter f l = l.
Proof.
  induction l as [|x l IH]; [done|]. intros H. cbn [List.filter].
  rewrite (H x) by (by left). f_equal. apply IH. intros y Hy. apply H. by right.
Qed.

Lemma length_zero_nil {A} (l : list A) : length l = 0%nat -> l = [].
Proof. by destruct l. Qed.

Lemma count_distinct_two r1 r2 n1 n2 :
  sh_track_name r1 = Some n1 -> sh_track_name r2 = Some n2 -> n1 <> n2 ->
  count_distinct_tracks [r1; r2] = 2%nat.
Proof.
  intros H1 H2 Hne. unfold count_distinct_tracks. cbn [omap list_omap].
  rewrite H1, H2. cbn [remove_dups].
  destruct (decide_rel elem_of n1 [n2]) as [Hel|_].
  - apply list_elem_of_singleton in Hel. done.
  - destruct (decide_rel elem_of n2 []) as [Hel|_]; [|done].
    by apply not_elem_of_nil in Hel.
Qed.

Lemma entries_of_Permutation data data' :
  data ≡ₚ data' -> entries_of data ≡ₚ entries_of data'.
Proof.
  unfold entries_of.
  induction 1 as [|x l l' _ IH|x y l|l l' l'' _ IH1 _ IH2]; cbn [omap list_omap].
  - done.
  - destruct x; cbn; [by constructor|done].
  - destruct x, y; cbn; try done. apply perm_swap.
  - by etrans.
Qed.

(** A user whose name no [ILIKE] lookup finds is created by the upload. *)
Lemma upload_user_new d name :
  fits 255 name = true ->
  (forall u, In u (users d) -> u_username u <> name) ->
  has_user d (users_id_seq d + 1) = false ->
  int4 (users_id_seq d + 1) = true ->
  upload_user d name
  = inr ({| users := users d ++ [{| u_id := users_id_seq d + 1; u_username := name;
                                    u_avatar := "goat" |}];
            users_id_seq := users_id_seq d + 1;
            streaming_history := streaming_history d;
            comments := comments d; comment_likes := comment_likes d |},
         users_id_seq d + 1).
Proof.
  intros Hfit Hnew Hfree Hint.
  assert (Hno : forall u, In u (users d) -> String.eqb (u_username u) name = false).
  { intros u Hu. apply String.eqb_neq. by apply Hnew. }
  unfold upload_user, select_users_by_username. rewrite List_filter_none by done.
  unfold insert_user. rewrite (varchar_fits _ _ Hfit), varchar_goat, Hint, Hfree.
  replace (existsb (fun u => String.eqb (u_username u) name) (users d)) with false;
    [reflexivity|].
  symmetry. apply not_true_iff_false. intros Hex.
  apply existsb_exists in Hex as (u & Hu & He). by rewrite (Hno u Hu) in He.
Qed.

End Scenario.

(** C8, amended.  On a store without a user whose name matches "Nova"
    (in either case of the letters) and whose next identifier is free,
    the upload as "Nova" of one file with three entries in any order, two
    of them valid with different track names, [ms_played] 1000 and 2000
    and rows that the engine stores as they are, the third with
    [ms_played] 0, reports 2 records; the profile fetched afterwards for
    "Nova" is the one of the new user with [totalSongs = 2] and
    [totalMinutes = 0]. *)
Theorem nova_scenario
    (d : Db) (req : UploadRequest) (file : File) (data : list (option Entry))
    (a b c : Entry) (na nb : string) :
  (forall u, In u (users d) -> ilike (u_username u) "Nova" = false) ->
  has_user d (users_id_seq d + 1) = false ->
  int4 (users_id_seq d + 1) = true ->
  count_history d (users_id_seq d + 1) = 0%nat ->
  body_username req = Some "Nova" ->
  files req = [file] ->
  content file = Parsed data ->
  data ≡ₚ [Some a; Some b; Some c] ->
  master_metadata_track_name a = Some na -> na <> EmptyString ->
  ms_played a = Some (Js.Integer 1000) -> stored_as_is a ->
  master_metadata_track_name b = Some nb -> nb <> EmptyString ->
  ms_played b = Some (Js.Integer 2000) -> stored_as_is b ->
  na <> nb ->
  ms_played c = Some (Js.Integer 0) ->
  exists st,
    upload d req = (st, UploadOk (users_id_seq d + 1) 2) /\
    get_user (run_db st) (Some "Nova")
    = ProfileOk {| u_id := users_id_seq d + 1; u_username := "Nova"; u_avatar := "goat" |}
                {| totalMinutes := 0; totalSongs := 2 |}.
Proof.
  intros Hnew Hfree Hint Hnone Hname Hfiles Hcontent Hperm
         Hna Hna0 Hma Hfa Hnb Hnb0 Hmb Hfb Hne Hmc.
  set (id := users_id_seq d + 1) in *.
  set (nova := {| u_id := id; u_username := "Nova"; u_avatar := "goat" |}).
  set (d1 := {| users := users d ++ [nova]; users_id_seq := id;
                streaming_history := streaming_history d;
                comments := comments d; comment_likes := comment_likes d |}).
  (* the user is created *)
  assert (Huser : upload_user d (upload_username req) = inr (d1, id)).
  { unfold upload_username. rewrite Hname. cbn [truthy String.eqb negb].
    apply upload_user_new; try done.
    intros u Hu He. specialize (Hnew u Hu). rewrite He in Hnew. done. }
  (* the valid records are the two plays *)
  assert (Hva : is_valid a = true).
  { apply is_valid_iff. split; [exists na; done|]. left. exists 1000. done. }
  assert (Hvb : is_valid b = true).
  { apply is_valid_iff. split; [exists nb; done|]. left. exists 2000. done. }
  assert (Hvc : is_valid c = false).
  { unfold is_valid, gt_zero. rewrite Hmc. apply andb_false_r. }
  destruct (validRecords_spec data) as [Hnull Hkept].
  destruct (validRecords data) as [kept|] eqn:Hvr.
  2:{ exfalso. assert (Hin : In None data) by (by apply Hnull).
      apply list_elem_of_In in Hin. rewrite Hperm in Hin.
      apply list_elem_of_In in Hin. destruct Hin as [|[|[|[]]]]; done. }
  specialize (Hkept kept eq_refl).
  assert (Hvalid : kept = [a; b] \/ kept = [b; a]).
  { apply Permutation_length_2_inv. symmetry. rewrite Hkept.
    replace [a; b] with (List.filter is_valid (entries_of [Some a; Some b; Some c])).
    - by apply Permutation_List_filter, entries_of_Permutation.
    - cbn. by rewrite Hva, Hvb, Hvc. }
  assert (Hv : valid_of file = kept) by (unfold valid_of; by rewrite Hcontent, Hvr).
  assert (Hread : readable file = true).
  { unfold readable. rewrite Hcontent, Hvr. by apply bool_decide_true. }
  assert (Hst : forall e, In e kept -> stored id e = Some (row_of id e)).
  { intros e He. destruct Hvalid as [-> | ->]; destruct He as [<-|[<-|[]]]; done. }
  assert (Hok : file_succeeds true id file = true).
  { unfold file_succeeds, file_statements. rewrite Hread, Hv. cbn [andb].
    apply all_accepted_iff. right. split; [done|]. intros e He. rewrite (Hst e He). eauto. }
  assert (Hrows : persisted_rows true id file = map (row_of id) kept).
  { destruct (persisted_rows_all true id file Hok) as [Hm _]. rewrite Hv in Hm.
    assert (Hm' : mapM (stored id) kept = Some (map (row_of id) kept)).
    { destruct Hvalid as [-> | ->]; cbn; by rewrite Hfa, Hfb. }
    congruence. }
  assert (Hlen : length kept = 2%nat) by (by destruct Hvalid as [-> | ->]).
  eexists. split.
  { rewrite (upload_spec d req d1 id Huser), Hfiles. cbn [map concat].
    rewrite app_nil_r, Hrows, length_map, Hlen. reflexivity. }
  cbn [run_db]. unfold get_user, profile_user_rows.
  change (truthy (Some "Nova")) with true. change (parseInt_isNaN "Nova") with true.
  cbv iota. rewrite query_users_ilike_spec by reflexivity.
  assert (Hsel : select_users_ilike (add_history d1 (map (row_of id) kept)) "Nova"
                 = [nova]).
  { unfold select_users_ilike. cbn [users add_history d1].
    rewrite List.filter_app, List_filter_none by done. reflexivity. }
  rewrite Hsel. cbn [u_id nova].
  assert (Hhist : user_history (add_history d1 (map (row_of id) kept)) id
                  = map (row_of id) kept).
  { rewrite user_history_add.
    replace (user_history d1 id) with (@nil StreamRow).
    - cbn [app]. apply List_filter_all. intros row Hrow.
      apply in_map_iff in Hrow as (e & <- & _). apply Z.eqb_refl.
    - symmetry. apply length_zero_nil. exact Hnone. }
  rewrite Hhist. f_equal.
  destruct Hvalid as [-> | ->]; cbn [map].
  - rewrite (count_distinct_two _ _ na nb) by done.
    unfold total_ms_of. cbn [omap list_omap row_of sh_ms_played]. by rewrite Hma, Hmb.
  - rewrite (count_distinct_two _ _ nb na) by done.
    unfold total_ms_of. cbn [omap list_omap row_of sh_ms_played]. by rewrite Hma, Hmb.
Qed.

(* ================================================================== *)
(** * Further properties: what the ingestion runs touch *)
(* ================================================================== *)

Section Touch.

(** What the engine makes of a valid record: a row of the user with a
    non-empty track name and a positive [ms_played]. *)
Lemma stored_row_valid userId e row :
  stored userId e = Some row -> is_valid e = true ->
  sh_user_id row = userId /\
  (exists name, sh_track_name row = Some name /\ name <> EmptyString) /\
  (exists ms, sh_ms_played row = Some ms /\ 0 < ms).
Proof.
  intros Hst Hv. split; [by eapply stored_user_id|]. split.
  - destruct (stored_valid userId e row Hst Hv) as (e' & Hv' & ->).
    apply is_valid_iff in Hv' as [(name & Hn & Hne) _]. by exists name.
  - unfold is_valid in Hv. revert Hst. unfold stored, stream_row_in, values_of.
    cbn [v_user_id v_ts v_track_name v_artist_name v_album_name v_ms_played
         v_spotify_track_uri v_platform].
    destruct (ts e) as [t|]; [|done]. destruct (timestamp_in t); [|done].
    destruct (varchar_opt 500 _); [|done]. destruct (varchar_opt 500 _); [|done].
    destruct (varchar_opt 500 _); [|done].
    destruct (integer_opt (ms_played e)) as [ms|] eqn:Hi; [|done].
    destruct (varchar_opt 255 _); [|done]. destruct (varchar_opt 50 _); [|done].
    intros [= <-]. cbn [sh_ms_played].
    apply andb_true_iff in Hv as [_ Hpos].
    destruct (ms_played e) as [[z|pos]|]; cbn [integer_opt gt_zero] in *; [|done|done].
    destruct (int4 z); [|done]. injection Hi as <-. exists z. split; [done|lia].
Qed.

(** What a file loop adds: rows of its user, made from valid entries. *)
Lemma process_files_adds userId fs st total :
  exists rows,
    run_db (fst (process_files userId fs st total)) = add_history (run_db st) rows /\
    snd (process_files userId fs st total) = (total + length rows)%nat /\
    (rows <> [] -> has_user (run_db st) userId = true) /\
    forall row, In row rows ->
      exists e, is_valid e = true /\ stored userId e = Some row.
Proof.
  rewrite process_files_spec. cbn [fst snd run_db].
  eexists. split; [reflexivity|]. split; [reflexivity|].
  assert (Hrow : forall row,
            In row (concat (map (persisted_rows (has_user (run_db st) userId) userId) fs)) ->
            has_user (run_db st) userId = true /\
            exists e, is_valid e = true /\ stored userId e = Some row).
  { intros row Hrow. apply in_concat in Hrow as (rows & Hrows & Hrow).
    apply in_map_iff in Hrows as (file & <- & _).
    apply persisted_rows_valid in Hrow as (Hk & e & He & Hst). split; [done|].
    exists e. split; [|done]. by eapply valid_of_valid. }
  split.
  - destruct (concat _) as [|row rows]; [done|]. intros _.
    by destruct (Hrow row (or_introl eq_refl)).
  - intros row Hin. by destruct (Hrow row Hin).
Qed.

Lemma count_history_add d rows id :
  count_history (add_history d rows) id
  = (count_history d id + length (List.filter (fun r => (sh_user_id r =? id)%Z) rows))%nat.
Proof. by rewrite !count_history_user_history, user_history_add, length_app. Qed.

End Touch.

Section UploadMore.

Lemma upload_user_cases d name d' id :
  upload_user d name = inr (d', id) ->
  (d' = d /\ exists u rest, select_users_by_username d name = u :: rest /\ u_id u = id) \/
  (select_users_by_username d name = [] /\
   id = users_id_seq d + 1 /\ has_user d id = false /\
   exists name',
     varchar 255 name = Some name' /\
     existsb (fun u => String.eqb (u_username u) name') (users d) = false /\
     d' = {| users := users d ++ [{| u_id := id; u_username := name'; u_avatar := "goat" |}];
             users_id_seq := id;
             streaming_history := streaming_history d;
             comments := comments d; comment_likes := comment_likes d |}).
Proof.
  unfold upload_user.
  destruct (select_users_by_username d name) as [|u rest] eqn:Hsel.
  - intros Hins. right.
    apply insert_user_inr in Hins as (name' & av' & Hn & Hav & Hid & _ & Hhas & Hno & ->).
    rewrite varchar_goat in Hav. injection Hav as <-.
    split; [done|]. split; [done|]. split; [done|]. by exists name'.
  - intros [= <- <-]. left. eauto.
Qed.

Lemma upload_ok_inv d req st userId n :
  upload d req = (st, UploadOk userId n) ->
  exists d', upload_user d (upload_username req) = inr (d', userId) /\
    st = fst (process_files userId (files req) (start_run d') 0) /\
    n = snd (process_files userId (files req) (start_run d') 0).
Proof.
  unfold upload.
  destruct (upload_user d (upload_username req)) as [d'|[d' uid]]; [done|].
  destruct (process_files uid (files req) (start_run d') 0) as [st' n'] eqn:Hp.
  intros [= <- <- <-]. exists d'. by rewrite Hp.
Qed.

(** The user of an upload is found again by its name when the name was
    stored as it is. *)
Lemma upload_user_again d name d' id rows :
  fits 255 name = true ->
  upload_user d name = inr (d', id) ->
  upload_user (add_history d' rows) name = inr (add_history d' rows, id).
Proof.
  intros Hfit Hres. apply upload_user_cases in Hres as [[-> (u & rest & Hsel & <-)]|H].
  - unfold upload_user.
    change (select_users_by_username (add_history d rows) name)
      with (select_users_by_username d name).
    by rewrite Hsel.
  - destruct H as (Hsel & _ & _ & name' & Hn & _ & ->).
    rewrite (varchar_fits _ _ Hfit) in Hn. injection Hn as <-.
    unfold upload_user, select_users_by_username in *.
    cbn [users add_history]. rewrite List.filter_app, Hsel. cbn [List.filter u_username app].
    by rewrite String.eqb_refl.
Qed.

Lemma upload_username_given req req' :
  body_username req' = body_username req -> truthy (body_username req) = true ->
  upload_username req' = upload_username req.
Proof.
  unfold upload_username. intros -> Ht.
  destruct (body_username req) as [s|]; [|done]. by rewrite Ht.
Qed.

End UploadMore.

(** X1.  An upload that answers with a success changes nothing but its
    own user: at most one user row is added (the user of the response,
    with the avatar ['goat'] and the name as its column takes it: the
    name itself, or its first 255 characters when only spaces are cut
    off), comments and likes are untouched, the stream events of every
    other user are what they were, and the events added are as many as
    [recordsImported], all of the response's user, each with a non-empty
    track name and a positive [ms_played]. *)
Theorem upload_touches_only_its_user (d : Db) (req : UploadRequest) (st : Run)
    (userId : Z) (n : nat) :
  upload d req = (st, UploadOk userId n) ->
  (users (run_db st) = users d \/
   exists name,
     varchar 255 (upload_username req) = Some name /\
     (fits 255 (upload_username req) = true -> name = upload_username req) /\
     users (run_db st)
     = users d ++ [{| u_id := userId; u_username := name; u_avatar := "goat" |}]) /\
  comments (run_db st) = comments d /\
  comment_likes (run_db st) = comment_likes d /\
  (exists rows,
     streaming_history (run_db st) = streaming_history d ++ rows /\
     length rows = n /\
     forall row, In row rows ->
       sh_user_id row = userId /\
       (exists name, sh_track_name row = Some name /\ name <> EmptyString) /\
       (exists ms, sh_ms_played row = Some ms /\ 0 < ms)) /\
  (forall uid, uid <> userId -> user_history (run_db st) uid = user_history d uid) /\
  count_history (run_db st) userId = (count_history d userId + n)%nat.
Proof.
  intros Hup. apply upload_ok_inv in Hup as (d' & Hres & -> & ->).
  destruct (process_files_adds userId (files req) (start_run d') 0)
    as (rows & -> & -> & _ & Hrows).
  cbn [run_db start_run users comments comment_likes streaming_history add_history].
  assert (Hrow : forall row, In row rows ->
            sh_user_id row = userId /\
            (exists name, sh_track_name row = Some name /\ name <> EmptyString) /\
            (exists ms, sh_ms_played row = Some ms /\ 0 < ms)).
  { intros row Hrow. destruct (Hrows row Hrow) as (e & Hv & Hst).
    by eapply stored_row_valid. }
  assert (Hd' : (users d' = users d \/
                 exists name,
                   varchar 255 (upload_username req) = Some name /\
                   (fits 255 (upload_username req) = true -> name = upload_username req) /\
                   users d' = users d ++ [{| u_id := userId; u_username := name;
                                             u_avatar := "goat" |}]) /\
                comments d' = comments d /\ comment_likes d' = comment_likes d /\
                streaming_history d' = streaming_history d).
  { apply upload_user_cases in Hres as [[-> _]|(_ & _ & _ & name' & Hn & _ & ->)]; cbn.
    - tauto.
    - split; [|done]. right. exists name'. split; [done|]. split; [|done].
      intros Hfit. rewrite (varchar_fits _ _ Hfit) in Hn. by injection Hn. }
  destruct Hd' as (Hus & Hcs & Hls & Hsh).
  split; [done|]. split; [done|]. split; [done|]. split; [|split].
  - exists rows. rewrite Hsh. done.
  - intros uid Hne. rewrite user_history_other.
    + by apply user_history_same_rows.
    + apply Forall_forall. intros row Hin. apply list_elem_of_In in Hin.
      destruct (Hrow row Hin) as [-> _]. done.
  - rewrite count_history_add, List_filter_all.
    + rewrite !count_history_user_history, (user_history_same_rows d d' userId Hsh). done.
    + intros row Hin. destruct (Hrow row Hin) as [-> _]. apply Z.eqb_refl.
Qed.

(** X2.  The upload has no guard against a second upload of the same
    files: a second request with the same files and the same given user
    name (a name of at most 255 characters; [uuidv4()] may return
    anything), sent after a success, answers with the same user and the
    same count, and the store then holds the rows of the first upload
    twice. *)
Theorem repeated_upload_duplicates (d : Db) (req req' : UploadRequest) (st1 : Run)
    (userId : Z) (n : nat) :
  upload d req = (st1, UploadOk userId n) ->
  body_username req' = body_username req ->
  truthy (body_username req) = true ->
  fits 255 (upload_username req) = true ->
  files req' = files req ->
  exists st2 rows,
    upload (run_db st1) req' = (st2, UploadOk userId n) /\
    length rows = n /\
    streaming_history (run_db st1) = streaming_history d ++ rows /\
    streaming_history (run_db st2) = streaming_history d ++ rows ++ rows /\
    users (run_db st2) = users (run_db st1).
Proof.
  intros Hup Hbody Hgiven Hfit Hfiles.
  pose proof (upload_username_given req req' Hbody Hgiven) as Hname.
  apply upload_ok_inv in Hup as (d' & Hres & -> & ->).
  pose proof (upload_user_inr _ _ _ _ Hres) as (Hu & Hsh & _).
  rewrite process_files_spec. cbn [fst snd run_db run_trace start_run]. rewrite Hu.
  set (rows := concat (map (persisted_rows true userId) (files req))).
  exists {| run_db := add_history (add_history d' rows) rows;
            run_trace := concat (map (file_events true userId) (files req)) |}, rows.
  split.
  { rewrite (upload_spec (add_history d' rows) req' (add_history d' rows) userId).
    - rewrite Hfiles. reflexivity.
    - rewrite Hname. eapply upload_user_again; [exact Hfit|exact Hres]. }
  cbn [run_db users streaming_history add_history].
  rewrite Hsh. by rewrite <- app_assoc.
Qed.

(** X3.  A multipart upload answers with the server error exactly when
    the name is new and the insert of the user is refused.  When the name
    is too wide for its column, or the sequence is at its end, nothing
    changes; when the identifier that the sequence hands out is taken, or
    the name as the column would store it is, only the identifier is used
    up.  In each case no file is read and no table changes.  A request
    that is not multipart is always answered with the server error, after
    the user has been resolved and possibly added. *)
Theorem upload_error_leaves_the_tables (d : Db) (req : UploadRequest) (st : Run) :
  (upload d req = (st, UploadServerError) <->
   select_users_by_username d (upload_username req) = [] /\
   match varchar 255 (upload_username req) with
   | None => st = start_run d
   | Some name =>
       if int4 (users_id_seq d + 1) then
         (has_user d (users_id_seq d + 1) = true \/
          existsb (fun u => String.eqb (u_username u) name) (users d) = true) /\
         st = start_run {| users := users d; users_id_seq := users_id_seq d + 1;
                           streaming_history := streaming_history d;
                           comments := comments d; comment_likes := comment_likes d |}
       else st = start_run d
   end) /\
  upload_not_multipart d (body_username req) (uuid req)
  = (match upload_user d (upload_username req) with
     | inl d' => d'
     | inr (d', _) => d'
     end, UploadServerError).
Proof.
  split.
  2:{ rewrite upload_not_multipart_spec.
      by destruct (upload_user d (upload_username req)) as [d'|[d' id]]. }
  unfold upload, upload_user.
  destruct (select_users_by_username d (upload_username req)) as [|u rest] eqn:Hsel.
  - unfold insert_user. rewrite varchar_goat.
    destruct (varchar 255 (upload_username req)) as [name|].
    + destruct (int4 (users_id_seq d + 1)).
      * destruct (has_user d (users_id_seq d + 1)) eqn:Hhas; cbn [negb andb].
        -- split; [intros [= <-]; split; [done|]; split; [by left|done]
                  | by intros (_ & _ & ->)].
        -- destruct (existsb _ (users d)) eqn:Hex; cbn [negb].
           ++ split; [intros [= <-]; split; [done|]; split; [by right|done]
                     | by intros (_ & _ & ->)].
           ++ destruct (process_files _ _ _ _). split; [done|].
              intros (_ & [?|?] & _); done.
      * split; [by intros [= <-] | by intros (_ & ->)].
    + split; [by intros [= <-] | by intros (_ & ->)].
  - destruct (process_files _ _ _ _). split; [done|]. by intros (? & _).
Qed.

(* ================================================================== *)
(** * Further properties: the startup of [index.ts] *)
(* ================================================================== *)

Section Startup.

Lemma loadDemoData_adds d dir :
  exists rows,
    run_db (fst (loadDemoData d dir)) = add_history d rows /\
    snd (loadDemoData d dir) = length rows /\
    (forall row, In row rows ->
       exists e, is_valid e = true /\ stored DEMO_USER_ID e = Some row) /\
    ((0 < count_history d DEMO_USER_ID)%nat \/ has_user d DEMO_USER_ID = false -> rows = []).
Proof.
  unfold loadDemoData.
  destruct (Nat.ltb_spec 0 (count_history d DEMO_USER_ID)) as [Hc|Hc].
  - exists []. cbn [fst snd run_db start_run length]. by rewrite add_history_nil.
  - destruct (process_files_adds DEMO_USER_ID
                (List.filter (fun f => is_history_file (originalname f)) dir)
                (start_run d) 0) as (rows & H1 & H2 & Hk & H3).
    exists rows. split; [done|]. split; [done|]. split; [done|].
    intros [?|Hu]; [lia|]. destruct rows as [|row rows]; [done|].
    cbn [run_db start_run] in Hk. rewrite Hk in Hu; done.
Qed.

Lemma ensureDemoUser_cases d :
  (exists u rest, select_users_by_id d DEMO_USER_ID = u :: rest /\ ensureDemoUser d = Some d) \/
  (has_user d DEMO_USER_ID = false /\
   existsb (fun u => String.eqb (u_username u) DEMO_USERNAME) (users d) = true /\
   ensureDemoUser d = Some d) \/
  (has_user d DEMO_USER_ID = false /\
   existsb (fun u => String.eqb (u_username u) DEMO_USERNAME) (users d) = false /\
   ensureDemoUser d
   = Some {| users := users d ++ [{| u_id := DEMO_USER_ID; u_username := DEMO_USERNAME;
                                     u_avatar := "goat" |}];
             users_id_seq := users_id_seq d;
             streaming_history := streaming_history d;
             comments := comments d; comment_likes := comment_likes d |}).
Proof.
  unfold ensureDemoUser.
  assert (Hsel : has_user d DEMO_USER_ID
                 = match select_users_by_id d DEMO_USER_ID with [] => false | _ => true end).
  { unfold has_user, select_users_by_id. induction (users d) as [|u us IH]; [done|].
    cbn [existsb List.filter]. destruct (u_id u =? DEMO_USER_ID); done. }
  destruct (select_users_by_id d DEMO_USER_ID) as [|u rest]; [|left; eauto].
  right. unfold insert_user_with_id. rewrite Hsel. cbn [orb].
  change (varchar 255 DEMO_USERNAME) with (Some DEMO_USERNAME).
  rewrite varchar_goat. change (int4 DEMO_USER_ID) with true. cbv iota.
  destruct (existsb _ (users d)); [left|right]; done.
Qed.

End Startup.

(** X4.  [ensureDemoUser] always returns, changes neither the sequence
    nor any table but [users], and a second call changes nothing.  When
    neither the identifier 1 nor the demo name is taken it adds the demo
    user; when the demo name is taken under another identifier it adds
    nothing, and the store is left without a user 1. *)
Theorem ensureDemoUser_is_idempotent (d : Db) :
  exists d',
    ensureDemoUser d = Some d' /\
    ensureDemoUser d' = Some d' /\
    users_id_seq d' = users_id_seq d /\
    streaming_history d' = streaming_history d /\
    comments d' = comments d /\ comment_likes d' = comment_likes d /\
    (has_user d DEMO_USER_ID = false ->
     (forall u, In u (users d) -> u_username u <> DEMO_USERNAME) ->
     users d' = users d ++ [{| u_id := DEMO_USER_ID; u_username := DEMO_USERNAME;
                               u_avatar := "goat" |}]) /\
    (has_user d DEMO_USER_ID = false ->
     (exists u, In u (users d) /\ u_username u = DEMO_USERNAME) ->
     d' = d /\ has_user d' DEMO_USER_ID = false).
Proof.
  destruct (ensureDemoUser_cases d) as [(u & rest & Hsel & He)|[(Hu & Hn & He)|(Hu & Hn & He)]].
  - assert (Ht : has_user d DEMO_USER_ID = true).
    { apply filter_head_In in Hsel as [Hin Hid]. apply Z.eqb_eq in Hid.
      apply has_user_elem. eauto. }
    exists d. do 6 (split; [done|]). split; intros Hf; congruence.
  - exists d. do 6 (split; [done|]). split.
    + intros _ Hall. apply existsb_exists in Hn as (u & Hin & Heq).
      apply String.eqb_eq in Heq. by destruct (Hall u Hin).
    + intros _ _. done.
  - eexists. split; [exact He|]. split.
    { unfold ensureDemoUser, select_users_by_id. cbn [users].
      rewrite List.filter_app. cbn [List.filter u_id].
      change (DEMO_USER_ID =? DEMO_USER_ID) with true. cbv iota.
      by destruct (List.filter _ (users d)). }
    do 4 (split; [done|]). split; [done|].
    intros _ (u & Hin & Heq).
    assert (existsb (fun u => String.eqb (u_username u) DEMO_USERNAME) (users d) = true).
    { apply existsb_exists. exists u. split; [done|]. by apply String.eqb_eq. }
    congruence.
Qed.

(** X5.  The demo load stores rows of the demo user only, each made from
    a valid entry, and returns their number.  It stores nothing when the
    demo user has stream events already or when there is no user 1; and
    a load that stored at least one row makes every later load a no-op. *)
Theorem loadDemoData_loads_once (d : Db) (dir : list File) :
  exists rows,
    run_db (fst (loadDemoData d dir)) = add_history d rows /\
    snd (loadDemoData d dir) = length rows /\
    (forall row, In row rows ->
       sh_user_id row = DEMO_USER_ID /\
       (exists name, sh_track_name row = Some name /\ name <> EmptyString) /\
       (exists ms, sh_ms_played row = Some ms /\ 0 < ms)) /\
    ((0 < count_history d DEMO_USER_ID)%nat \/ has_user d DEMO_USER_ID = false -> rows = []) /\
    (rows <> [] ->
     forall dir', loadDemoData (add_history d rows) dir'
                  = (start_run (add_history d rows), 0%nat)).
Proof.
  destruct (loadDemoData_adds d dir) as (rows & H1 & H2 & H3 & H4).
  assert (Hrow : forall row, In row rows ->
            sh_user_id row = DEMO_USER_ID /\
            (exists name, sh_track_name row = Some name /\ name <> EmptyString) /\
            (exists ms, sh_ms_played row = Some ms /\ 0 < ms)).
  { intros row Hin. destruct (H3 row Hin) as (e & He & Hst). by eapply stored_row_valid. }
  exists rows. split; [done|]. split; [done|]. split; [done|]. split; [done|].
  intros Hne dir'. unfold loadDemoData.
  destruct (Nat.ltb_spec 0 (count_history (add_history d rows) DEMO_USER_ID)) as [|Hc];
    [done|].
  rewrite count_history_add in Hc.
  rewrite List_filter_all in Hc.
  - destruct rows; [done|]. cbn [length] in Hc. lia.
  - intros row Hin. destruct (Hrow row Hin) as [-> _]. apply Z.eqb_refl.
Qed.

(** X6.  On the store that [index.ts] leaves after its startup on empty
    tables, whatever the working directory holds, the first upload under
    a new name is answered with the server error: the demo user was
    inserted with an explicit identifier and the sequence hands out 1
    again.  The same request sent once more succeeds, as user 2. *)
Theorem first_new_user_after_startup_fails (dir : list File) (req : UploadRequest) :
  upload_username req <> DEMO_USERNAME ->
  fits 255 (upload_username req) = true ->
  exists d1,
    upload (run_db (fst (start_index empty_db dir))) req = (start_run d1, UploadServerError) /\
    exists st n, upload d1 req = (st, UploadOk 2 n).
Proof.
  intros Hname Hfit.
  assert (Hneq : String.eqb "David Stouck" (upload_username req) = false).
  { apply String.eqb_neq. intros E. apply Hname. by rewrite <- E. }
  unfold start_index. change (ensureDemoUser empty_db) with (Some demo_db).
  destruct (loadDemoData_adds demo_db dir) as (rows & -> & _).
  eexists. split.
  - unfold upload, upload_user, select_users_by_username.
    cbn [users add_history demo_db List.filter u_username]. rewrite Hneq.
    unfold insert_user. rewrite (varchar_fits _ _ Hfit), varchar_goat.
    cbn [users users_id_seq add_history demo_db existsb u_username]. rewrite Hneq.
    reflexivity.
  - eexists _, _. apply upload_spec. unfold upload_user, select_users_by_username.
    cbn [users add_history demo_db List.filter u_username]. rewrite Hneq.
    unfold insert_user. rewrite (varchar_fits _ _ Hfit), varchar_goat.
    cbn [users users_id_seq add_history demo_db existsb u_username]. rewrite Hneq.
    reflexivity.
Qed.

(* ================================================================== *)
(** * Further properties: texts and patterns *)
(* ================================================================== *)

Section Texts.

Local Notation "a +++ b" := (String.append a b) (at level 60, right associativity).

Lemma append_cons c s t : String c s +++ t = String c (s +++ t).
Proof. reflexivity. Qed.

Lemma append_nil_l t : EmptyString +++ t = t.
Proof. reflexivity. Qed.

Lemma append_nil_r s : s +++ EmptyString = s.
Proof. induction s as [|c s IH]; [done|]. by rewrite append_cons, IH. Qed.

Lemma append_assoc a b c : (a +++ b) +++ c = a +++ b +++ c.
Proof. induction a as [|x a IH]; [done|]. by rewrite !append_cons, IH. Qed.

Lemma prefix_iff p s : String.prefix p s = true <-> exists r, s = p +++ r.
Proof.
  revert s. induction p as [|c p IH]; intros s.
  - split; [intros _; by exists s | intros _; by destruct s].
  - destruct s as [|d s]; cbn [String.prefix];
      [split; [done | intros [r Hr]; rewrite append_cons in Hr; done]|].
    destruct (ascii_dec c d) as [<-|Hne].
    + rewrite IH. split; intros [r Hr]; exists r.
      * by rewrite append_cons, Hr.
      * rewrite append_cons in Hr. by injection Hr.
    + split; [done|]. intros [r Hr]. rewrite append_cons in Hr. injection Hr as <- _. done.
Qed.

Lemma includes_iff p s : Js.includes p s = true <-> exists a b, s = a +++ p +++ b.
Proof.
  induction s as [|c s IH]; cbn [Js.includes]; rewrite orb_true_iff, prefix_iff.
  - split.
    + intros [[r Hr]|?]; [|done]. by exists EmptyString, r.
    + intros (a & b & Hab). left. destruct a; [by exists b|].
      rewrite append_cons in Hab. done.
  - rewrite IH. split.
    + intros [[r Hr]|(a & b & Hab)].
      * by exists EmptyString, r.
      * exists (String c a), b. by rewrite append_cons, Hab.
    + intros (a & b & Hab). destruct a as [|x a].
      * left. by exists b.
      * right. rewrite append_cons in Hab. injection Hab as _ Hab. eauto.
Qed.

(** ** The file name pattern of the synchronisation *)

Lemma lazy_group_sound lit : forall s acc g,
  Js.lazy_group lit acc s = Some g ->
  exists body rest,
    g = acc +++ body /\ body <> EmptyString /\ one_line body = true /\
    s = body +++ lit +++ rest /\
    forall body' rest', body' <> EmptyString -> s = body' +++ lit +++ rest' ->
                        (String.length body <= String.length body')%nat.
Proof.
  induction s as [|c s IH]; intros acc g; cbn [Js.lazy_group]; [done|].
  destruct (Js.is_line_terminator c) eqn:Hc; [done|].
  destruct (String.prefix lit s) eqn:Hp.
  - intros [= <-]. apply prefix_iff in Hp as [rest ->].
    exists (String c EmptyString), rest. cbn [one_line]. rewrite Hc.
    repeat split; try done.
    intros body' rest' Hne _. destruct body'; [done|]. cbn [String.length]. lia.
  - intros Hg. apply IH in Hg as (body & rest & -> & Hne & Hone & -> & Hmin).
    exists (String c body), rest. cbn [one_line]. rewrite Hc, Hone.
    split; [by rewrite append_assoc|]. repeat split; try done.
    intros body' rest' Hne' Heq. destruct body' as [|c' body']; [done|].
    rewrite !append_cons in Heq. injection Heq as <- Heq. destruct body' as [|c'' body'].
    + rewrite append_nil_l in Heq.
      assert (String.prefix lit (body +++ lit +++ rest) = true)
        by (apply prefix_iff; eauto). congruence.
    + pose proof (Hmin (String c'' body') rest' ltac:(done) Heq) as Hle.
      cbn [String.length] in *. lia.
Qed.

Lemma lazy_group_complete lit : forall body acc rest,
  body <> EmptyString -> one_line body = true ->
  exists g tail, Js.lazy_group lit acc (body +++ lit +++ rest) = Some (acc +++ g) /\
                 body = g +++ tail /\ g <> EmptyString.
Proof.
  induction body as [|c body IH]; intros acc rest Hne Hone; [done|].
  cbn [one_line] in Hone. apply andb_true_iff in Hone as [Hc Hone].
  apply negb_true_iff in Hc. rewrite append_cons. cbn [Js.lazy_group]. rewrite Hc.
  destruct (String.prefix lit (body +++ lit +++ rest)) eqn:Hp.
  - exists (String c EmptyString), body. done.
  - destruct body as [|c' body].
    + rewrite append_nil_l in Hp. assert (String.prefix lit (lit +++ rest) = true)
        by (apply prefix_iff; eauto). congruence.
    + destruct (IH (acc +++ String c EmptyString) rest) as (g & tail & Hg & Hb & Hgne);
        [done|done|].
      exists (String c g), tail. rewrite Hg, append_assoc.
      split; [done|]. split; [|done]. by rewrite append_cons, Hb.
Qed.

Lemma substring_all s : String.substring 0 (String.length s) s = s.
Proof. induction s as [|c s IH]; [done|]. cbn [String.length String.substring]. by rewrite IH. Qed.

Lemma substring_from_5 c1 c2 c3 c4 c5 s :
  String.substring 5
    (String.length (String c1 (String c2 (String c3 (String c4 (String c5 s))))) - 5)
    (String c1 (String c2 (String c3 (String c4 (String c5 s))))) = s.
Proof.
  cbn [String.length String.substring Nat.sub]. rewrite Nat.sub_0_r.
  apply substring_all.
Qed.

End Texts.

(** X7.  A file name is taken by the synchronisation's pattern exactly
    when it is [User_], a non-empty one-line name, [_Streaming_History_Audio]
    and anything: the name that is read is then the shortest such name,
    so it never runs past a first [_Streaming_History_Audio]. *)
Theorem file_name_pattern_takes_the_shortest_name (file : string) :
  (forall g, Js.match_user_file file = Some g ->
     g <> EmptyString /\ one_line g = true /\
     (exists rest,
        file = String.append "User_" (String.append g
                 (String.append "_Streaming_History_Audio" rest))) /\
     forall g' rest', g' <> EmptyString ->
       file = String.append "User_" (String.append g'
                (String.append "_Streaming_History_Audio" rest')) ->
       (String.length g <= String.length g')%nat) /\
  (forall g' rest', g' <> EmptyString -> one_line g' = true ->
     file = String.append "User_" (String.append g'
              (String.append "_Streaming_History_Audio" rest')) ->
     exists g tail, Js.match_user_file file = Some g /\ g' = String.append g tail) /\
  (String.prefix "User_" file = false -> Js.match_user_file file = None).
Proof.
  unfold Js.match_user_file. split; [|split].
  - intros g. destruct (String.prefix "User_" file) eqn:Hp; [|done].
    apply prefix_iff in Hp as [r ->]. rewrite !append_cons, append_nil_l.
    rewrite substring_from_5. intros Hg.
    apply lazy_group_sound in Hg as (body & rest & -> & Hne & Hone & -> & Hmin).
    rewrite append_nil_l. split; [done|]. split; [done|]. split; [by exists rest|].
    intros g' rest' Hne' Heq. apply (Hmin g' rest'); [done|].
    rewrite !append_cons, !append_nil_l in Heq. by injection Heq.
  - intros g' rest' Hne Hone Hfile.
    assert (Hp : String.prefix "User_" file = true) by (apply prefix_iff; eauto).
    rewrite Hp, Hfile. do 5 rewrite append_cons. rewrite append_nil_l.
    rewrite substring_from_5.
    destruct (lazy_group_complete "_Streaming_History_Audio" g' EmptyString rest' Hne Hone)
      as (g & tail & Hg & Hb & _).
    exists g, tail. done.
  - by intros ->.
Qed.

(* ================================================================== *)
(** * Further properties: the grouping of the synchronisation *)
(* ================================================================== *)

Section Grouping.

Lemma has_char_replace_underscores s :
  has_char "_" (Js.replace_underscores s) = false.
Proof.
  induction s as [|c s IH]; [done|]. cbn [Js.replace_underscores has_char].
  rewrite IH, orb_false_r. destruct (Ascii.eqb_spec c "_") as [->|Hne]; [done|].
  apply Ascii.eqb_neq. congruence.
Qed.

Lemma has_char_trimStart c s :
  has_char c s = false -> has_char c (Js.trimStart s) = false.
Proof.
  induction s as [|x s IH]; [done|]. cbn [Js.trimStart has_char].
  intros H. apply orb_false_iff in H as [H1 H2].
  destruct (Js.is_space x); [by apply IH|]. cbn [has_char]. by rewrite H1, H2.
Qed.

Lemma has_char_trimEnd c s :
  has_char c s = false -> has_char c (Js.trimEnd s) = false.
Proof.
  induction s as [|x s IH]; [done|]. cbn [Js.trimEnd has_char].
  intros H. apply orb_false_iff in H as [H1 H2]. specialize (IH H2).
  destruct (Js.trimEnd s) as [|y t].
  - destruct (Js.is_space x); [done|]. cbn [has_char]. by rewrite H1.
  - cbn [has_char] in *. by rewrite H1, IH.
Qed.

Lemma trimEnd_idem s : Js.trimEnd (Js.trimEnd s) = Js.trimEnd s.
Proof.
  induction s as [|x s IH]; [done|]. cbn [Js.trimEnd].
  destruct (Js.trimEnd s) as [|y t] eqn:Ht.
  - destruct (Js.is_space x) eqn:Hx; [done|]. cbn [Js.trimEnd]. by rewrite Hx.
  - cbn [Js.trimEnd] in *. by rewrite IH.
Qed.

Lemma trimStart_clean s :
  match Js.trimStart s with
  | EmptyString => True
  | String c _ => Js.is_space c = false
  end.
Proof.
  induction s as [|x s IH]; [done|]. cbn [Js.trimStart].
  destruct (Js.is_space x) eqn:Hx; done.
Qed.

Lemma trimStart_trimEnd t :
  match t with EmptyString => True | String c _ => Js.is_space c = false end ->
  Js.trimStart (Js.trimEnd t) = Js.trimEnd t.
Proof.
  destruct t as [|c t]; [done|]. intros Hc. cbn [Js.trimEnd].
  destruct (Js.trimEnd t); rewrite ?Hc; cbn [Js.trimStart]; by rewrite Hc.
Qed.

Lemma trim_idem s : Js.trim (Js.trim s) = Js.trim s.
Proof.
  unfold Js.trim. rewrite trimStart_trimEnd by apply trimStart_clean.
  apply trimEnd_idem.
Qed.

Lemma derived_name_clean file k :
  derived_name file = Some k -> has_char "_" k = false /\ Js.trim k = k.
Proof.
  unfold derived_name. destruct (Js.match_user_file file) as [g|]; [|done].
  intros [= <-]. split; [|apply trim_idem].
  unfold Js.trim. apply has_char_trimEnd, has_char_trimStart, has_char_replace_underscores.
Qed.

(** ** [push_file] *)

Lemma push_file_keys k f m :
  map fst (push_file k f m)
  = if existsb (fun e => String.eqb (fst e) k) m then map fst m else map fst m ++ [k].
Proof.
  induction m as [|[k' fs] m IH]; [done|]. cbn [push_file existsb fst].
  destruct (String.eqb k' k); [done|]. cbn [map fst orb]. rewrite IH.
  by destruct (existsb _ m).
Qed.

Lemma push_file_files k f m :
  concat (map snd (push_file k f m)) ≡ₚ f :: concat (map snd m).
Proof.
  induction m as [|[k' fs] m IH]; [done|]. cbn [push_file].
  destruct (String.eqb k' k); cbn [map concat snd].
  - rewrite <- app_assoc. cbn [app].
    rewrite (Permutation_middle fs (concat (map snd m)) f). done.
  - rewrite IH. by rewrite Permutation_middle.
Qed.

Lemma push_file_elem k f m k0 fs0 :
  In (k0, fs0) (push_file k f m) ->
  In (k0, fs0) m \/ (k0 = k /\ exists old, fs0 = old ++ [f] /\ (old = [] \/ In (k, old) m)).
Proof.
  induction m as [|[k' fs] m IH]; cbn [push_file].
  - intros [[= <- <-]|[]]. right. split; [done|]. exists []. split; [done|by left].
  - destruct (String.eqb_spec k' k) as [->|Hne].
    + intros [[= <- <-]|Hin].
      * right. split; [done|]. exists fs. split; [done|]. right. by left.
      * left. by right.
    + intros [[= <- <-]|Hin]; [left; by left|].
      destruct (IH Hin) as [?|(-> & old & -> & Hold)]; [left; by right|].
      right. split; [done|]. exists old. split; [done|]. destruct Hold; [by left|].
      right. by right.
Qed.

Lemma push_file_ok k f m :
  groups_ok m -> derived_name (originalname f) = Some k -> groups_ok (push_file k f m).
Proof.
  intros [Hnd Hall] Hk. split.
  - rewrite push_file_keys. destruct (existsb _ m) eqn:Hex; [done|].
    apply NoDup_app. split; [done|]. split; [|apply NoDup_singleton].
    intros x Hx Hx'. apply list_elem_of_singleton in Hx' as ->.
    apply list_elem_of_In, in_map_iff in Hx as ([k' fs] & Hfst & Hin). cbn in Hfst. subst k'.
    assert (existsb (fun e => String.eqb (fst e) k) m = true); [|congruence].
    apply existsb_exists. exists (k, fs). split; [done|]. apply String.eqb_refl.
  - intros k0 fs0 Hin. apply push_file_elem in Hin as [Hin|(-> & old & -> & Hold)].
    + by apply Hall.
    + split; [by destruct old|]. intros f0 Hf0. apply in_app_or in Hf0 as [Hf0|[<-|[]]]; [|done].
      destruct Hold as [->|Hold]; [done|]. by apply (Hall k old).
Qed.

Lemma userFilesMap_spec fs : forall m m',
  userFilesMap fs m = Some m' -> groups_ok m ->
  groups_ok m' /\
  concat (map snd m') ≡ₚ concat (map snd m) ++ List.filter names_a_user fs /\
  (forall f k, In f fs -> derived_name (originalname f) = Some k -> Js.is_inherited k = false).
Proof.
  induction fs as [|f fs IH]; intros m m'; cbn [userFilesMap].
  - intros [= <-] Hok. split; [done|]. split; [by rewrite app_nil_r|]. by intros f k [].
  - cbn [List.filter]. unfold names_a_user at 1. unfold derived_name at 1.
    destruct (Js.match_user_file (originalname f)) as [g|] eqn:Hg; cbn [option_map].
    + destruct (Js.is_inherited (Js.trim (Js.replace_underscores g))) eqn:Hinh; [done|].
      intros Hm Hok.
      assert (Hk : derived_name (originalname f)
                   = Some (Js.trim (Js.replace_underscores g)))
        by (unfold derived_name; by rewrite Hg).
      destruct (IH _ _ Hm (push_file_ok _ _ _ Hok Hk)) as (Hok' & Hperm & Hnot).
      split; [done|]. split.
      * rewrite Hperm, push_file_files. cbn [app]. apply Permutation_middle.
      * intros f0 k [<-|Hin] Hd; [|by eapply Hnot].
        unfold derived_name in Hd. rewrite Hg in Hd. by injection Hd as <-.
    + intros Hm Hok. destruct (IH _ _ Hm Hok) as (Hok' & Hperm & Hnot).
      split; [done|]. split; [done|].
      intros f0 k [<-|Hin] Hd; [|by eapply Hnot].
      unfold derived_name in Hd. by rewrite Hg in Hd.
Qed.

Lemma userFilesMap_None fs : forall m,
  userFilesMap fs m = None ->
  exists f k, In f fs /\ derived_name (originalname f) = Some k /\ Js.is_inherited k = true.
Proof.
  induction fs as [|f fs IH]; intros m; cbn [userFilesMap]; [done|].
  destruct (Js.match_user_file (originalname f)) as [g|] eqn:Hg.
  - destruct (Js.is_inherited (Js.trim (Js.replace_underscores g))) eqn:Hinh.
    + intros _. exists f, (Js.trim (Js.replace_underscores g)).
      split; [by left|]. split; [|done]. unfold derived_name. by rewrite Hg.
    + intros Hm. destruct (IH _ Hm) as (f0 & k & Hin & ? & ?). exists f0, k.
      split; [by right|done].
  - intros Hm. destruct (IH _ Hm) as (f0 & k & Hin & ? & ?). exists f0, k.
    split; [by right|done].
Qed.

(** ** [Object.entries] *)

Lemma insert_by_index_perm x l : insert_by_index x l ≡ₚ x :: l.
Proof.
  induction l as [|y l IH]; [done|]. cbn [insert_by_index].
  destruct (fst x <=? fst y)%N; [done|]. rewrite IH. apply perm_swap.
Qed.

Lemma object_entries_perm m : object_entries m ≡ₚ m.
Proof.
  unfold object_entries.
  assert (H1 : map snd (fold_right insert_by_index []
                 (omap (fun e => match Js.array_index (fst e) with
                                 | Some n => Some (n, e) | None => None end) m))
               ≡ₚ List.filter (fun e => match Js.array_index (fst e) with
                                        | Some _ => true | None => false end) m).
  { induction m as [|e m IH]; [done|]. cbn [omap list_omap List.filter].
    destruct (Js.array_index (fst e)); [|done].
    cbn [fold_right]. rewrite insert_by_index_perm. cbn [map snd]. by rewrite IH. }
  rewrite H1. clear H1. induction m as [|e m IH]; [done|]. cbn [List.filter].
  destruct (Js.array_index (fst e)).
  - cbn [app]. by rewrite IH.
  - rewrite <- Permutation_middle. by rewrite IH.
Qed.

End Grouping.

(** X8.  When the grouping of the synchronisation returns, its groups
    have pairwise different keys, none is empty, every file sits under
    the user name read from its own name, and the groups together hold
    exactly the files whose name names a user, each once;
    [Object.entries] hands over every group exactly once.  The grouping
    throws exactly when one of the names read is a property that objects
    inherit (such as [constructor]); no group is then processed. *)
Theorem grouping_keeps_every_file (fs : list File) :
  match userFilesMap fs [] with
  | Some m =>
      groups_ok m /\
      concat (map snd m) ≡ₚ List.filter names_a_user fs /\
      object_entries m ≡ₚ m /\
      (forall f k, In f fs -> derived_name (originalname f) = Some k ->
                   Js.is_inherited k = false)
  | None =>
      exists f k, In f fs /\ derived_name (originalname f) = Some k /\
                  Js.is_inherited k = true
  end.
Proof.
  destruct (userFilesMap fs []) as [m|] eqn:Hm.
  - destruct (userFilesMap_spec fs [] m Hm) as (Hok & Hperm & Hnot).
    { split; [constructor|]. by intros k fs0 []. }
    split; [done|]. split; [done|]. split; [apply object_entries_perm|done].
  - by apply userFilesMap_None in Hm.
Qed.

(* ================================================================== *)
(** * Further properties: names as patterns *)
(* ================================================================== *)

Section Patterns.

Local Notation "a +++ b" := (String.append a b) (at level 60, right associativity).

Lemma is_literal_cons c s :
  is_literal (String c s) = true ->
  Ascii.eqb c "%" = false /\ Ascii.eqb c "_" = false /\ Ascii.eqb c "\" = false /\
  is_literal s = true.
Proof.
  cbn [is_literal]. rewrite !andb_true_iff, !negb_true_iff. tauto.
Qed.

Lemma is_literal_not_dangling p : is_literal p = true -> dangling p = false.
Proof.
  induction p as [|c p IH]; [done|]. intros H.
  apply is_literal_cons in H as (_ & _ & Hc & Hp). cbn [dangling]. rewrite Hc. by apply IH.
Qed.

Lemma like_everything t : like "%" t = true.
Proof. by destruct t. Qed.

Lemma MatchText_literal p : forall t,
  is_literal p = true -> (MatchText p t = LIKE_TRUE <-> t = p).
Proof.
  induction p as [|c p IH]; intros t Hp.
  - by destruct t.
  - apply is_literal_cons in Hp as (H1 & H2 & H3 & Hp). destruct t as [|d t].
    + cbn [MatchText only_percent]. rewrite H1. done.
    + cbn [MatchText]. rewrite H3, H1, H2.
      destruct (Ascii.eqb_spec c d) as [->|Hne].
      * rewrite IH by done. split; [by intros ->|by intros [= ->]].
      * split; [done|]. intros [= -> _]. done.
Qed.

Lemma like_literal p t : is_literal p = true -> (like p t = true <-> t = p).
Proof.
  intros Hp. rewrite <- (MatchText_literal p t Hp). unfold like.
  by destruct (MatchText p t).
Qed.

(** A literal text followed by [%]: a match is a prefix, and the match is
    given up for good only on a text that is shorter than the literal. *)
Lemma MatchText_literal_percent q : forall t,
  is_literal q = true ->
  (MatchText (q +++ "%") t = LIKE_TRUE <-> exists r, t = q +++ r) /\
  (MatchText (q +++ "%") t = LIKE_ABORT -> (String.length t < String.length q)%nat) /\
  MatchText (q +++ "%") t <> LIKE_ERROR.
Proof.
  induction q as [|c q IH]; intros t Hq.
  - rewrite append_nil_l.
    assert (Ht : MatchText "%" t = LIKE_TRUE) by (by destruct t).
    rewrite Ht. split; [|done]. split; [|done]. intros _. exists t. by rewrite append_nil_l.
  - apply is_literal_cons in Hq as (H1 & H2 & H3 & Hq). rewrite append_cons.
    destruct t as [|d t].
    + cbn [MatchText only_percent]. rewrite H1. cbn [andb String.length].
      split; [|split; [lia|done]].
      split; [done|]. intros (r & Hr). by rewrite append_cons in Hr.
    + cbn [MatchText]. rewrite H3, H1, H2. cbn [String.length].
      destruct (Ascii.eqb_spec c d) as [->|Hne].
      * destruct (IH t Hq) as (Htrue & Habort & Herr).
        split; [|split; [|done]].
        -- rewrite Htrue. split.
           ++ intros (r & ->). exists r. by rewrite append_cons.
           ++ intros (r & Hr). rewrite append_cons in Hr. injection Hr as ->. by exists r.
        -- intros Ha. apply Habort in Ha. lia.
      * split; [|done]. split; [done|].
        intros (r & Hr). rewrite append_cons in Hr. injection Hr as -> _. done.
Qed.

Lemma length_append a b :
  String.length (a +++ b) = (String.length a + String.length b)%nat.
Proof.
  induction a as [|c a IH]; [by rewrite append_nil_l|].
  rewrite append_cons. cbn [String.length]. by rewrite IH.
Qed.

Lemma includes_short p s :
  (String.length s < String.length p)%nat -> Js.includes p s = false.
Proof.
  intros Hlen. destruct (Js.includes p s) eqn:Hi; [|done].
  apply includes_iff in Hi as (a & b & ->). rewrite !length_append in Hlen. lia.
Qed.

Lemma includes_cons p c s :
  Js.includes p (String c s) = String.prefix p (String c s) || Js.includes p s.
Proof. reflexivity. Qed.

Lemma prefix_cons c q d t :
  String.prefix (String c q) (String d t) = true <-> c = d /\ String.prefix q t = true.
Proof.
  rewrite !prefix_iff. split.
  - intros (r & Hr). rewrite append_cons in Hr. injection Hr as -> ->. split; [done|].
    by exists r.
  - intros [-> (r & ->)]. exists r. by rewrite append_cons.
Qed.

(** The search after a [%] for a literal text that a [%] follows finds
    the text exactly when it occurs. *)
Lemma scan_literal_percent c q t :
  is_literal (String c q) = true ->
  (scan c (MatchText (q +++ "%")) t = LIKE_TRUE <-> Js.includes (String c q) t = true).
Proof.
  intros Hq. apply is_literal_cons in Hq as (_ & _ & _ & Hq).
  induction t as [|d t IH].
  - cbn [scan]. split; [done|]. intros H. apply includes_iff in H as (a & b & Hab).
    destruct a; [by rewrite append_nil_l, append_cons in Hab|by rewrite append_cons in Hab].
  - cbn [scan]. rewrite includes_cons, orb_true_iff, prefix_cons, <- IH.
    destruct (MatchText_literal_percent q t Hq) as (Htrue & Habort & Herr).
    rewrite prefix_iff, <- Htrue.
    destruct (Ascii.eqb_spec d c) as [->|Hne].
    + destruct (MatchText (q +++ "%") t) eqn:Hm.
      * split; [by left|done].
      * split; [by right|]. by intros [[_ ?]|?].
      * split; [done|]. intros [[_ ?]|Hs]; [done|].
        apply IH in Hs. rewrite includes_short in Hs; [done|].
        specialize (Habort eq_refl). cbn [String.length]. lia.
      * done.
    + split; [by right|]. intros [[? _]|?]; [congruence|done].
Qed.

Lemma like_contains p t :
  is_literal p = true ->
  like (String "%" (p +++ "%")) t = Js.includes p t.
Proof.
  intros Hp. apply eq_true_iff_eq. unfold like.
  destruct p as [|c q].
  - rewrite append_nil_l.
    replace (MatchText "%%" t) with LIKE_TRUE by (by destruct t).
    split; [|done]. intros _. apply includes_iff. exists EmptyString, t.
    by rewrite !append_nil_l.
  - pose proof (scan_literal_percent c q t Hp) as Hscan.
    apply is_literal_cons in Hp as (H1 & H2 & H3 & Hq). rewrite append_cons.
    destruct t as [|d t].
    + cbn [MatchText only_percent]. rewrite H1. cbn [andb]. split; [done|].
      intros H. apply includes_iff in H as (a & b & Hab).
      destruct a; [by rewrite append_nil_l, append_cons in Hab|by rewrite append_cons in Hab].
    + cbn [MatchText after_percent]. cbn [Ascii.eqb Bool.eqb]. rewrite H1, H2, H3.
      rewrite <- Hscan. by destruct (scan c _ _).
Qed.

Lemma lower_append a b : lower (a +++ b) = lower a +++ lower b.
Proof.
  induction a as [|c a IH]; [done|]. rewrite append_cons. cbn [lower].
  by rewrite append_cons, IH.
Qed.

Lemma lower_char_literal c :
  is_literal (String (lower_char c) EmptyString) = is_literal (String c EmptyString).
Proof. by destruct c as [[] [] [] [] [] [] [] []]. Qed.

Lemma is_literal_lower s : is_literal (lower s) = is_literal s.
Proof.
  induction s as [|c s IH]; [done|]. cbn [lower].
  pose proof (lower_char_literal c) as Hc. cbn [is_literal] in *.
  rewrite !andb_true_r in Hc. by rewrite Hc, IH.
Qed.

Lemma ilike_literal name p :
  is_literal p = true -> (ilike name p = true <-> lower name = lower p).
Proof.
  intros Hp. unfold ilike. apply like_literal. by rewrite is_literal_lower.
Qed.

(** A lookup by a name without pattern characters does not fail. *)
Lemma query_users_ilike_literal d p :
  is_literal p = true -> query_users_ilike d p = Some (select_users_ilike d p).
Proof.
  intros Hp. apply query_users_ilike_spec, is_literal_not_dangling.
  by rewrite is_literal_lower.
Qed.

Lemma search_pattern_matches name q :
  is_literal q = true ->
  ilike name (String.append "%" (String.append q "%")) = Js.includes (lower q) (lower name).
Proof.
  intros Hq. unfold ilike. rewrite append_cons, append_nil_l.
  cbn [lower]. rewrite lower_append.
  change (lower_char "%") with "%"%char. change (lower "%") with "%".
  apply like_contains. by rewrite is_literal_lower.
Qed.

End Patterns.

(** X9.  The user search finds, for a query without pattern characters,
    the first ten users in table order whose name contains the query,
    letter case aside; the empty query finds the first ten users; a
    request without [q] searches for the text [undefined]. *)
Theorem search_finds_names_containing_the_query (d : Db) (q : string) :
  is_literal q = true ->
  search_users d (Some q)
  = take 10 (List.filter (fun u => Js.includes (lower q) (lower (u_username u))) (users d)) /\
  search_users d (Some EmptyString) = take 10 (users d) /\
  search_users d None = search_users d (Some "undefined") /\
  (length (search_users d (Some q)) <= 10)%nat.
Proof.
  intros Hq.
  assert (Hsearch : forall q', is_literal q' = true ->
            search_users d (Some q')
            = take 10 (List.filter
                         (fun u => Js.includes (lower q') (lower (u_username u))) (users d))).
  { intros q' Hq'. unfold search_users, select_users_ilike, search_pattern. f_equal.
    apply List.filter_ext. intros u. by apply search_pattern_matches. }
  split; [by apply Hsearch|]. split; [|split; [done|]].
  - rewrite Hsearch by done. f_equal. apply List_filter_all. intros u _.
    apply includes_iff. exists EmptyString, (lower (u_username u)). done.
  - unfold search_users. rewrite length_take. lia.
Qed.

(** X10.  The synchronisation hands the name it read to [ILIKE] as it
    is: a file whose name reads [%] is attributed to the first user of
    the table, whoever that is, and no user is created for it; when that
    user has no stream events, the file's records become theirs: the
    store receives what the file loop persists of the file for that user,
    which for a file that succeeds is what the engine makes of all its
    valid records. *)
Theorem percent_name_is_the_first_user (d : Db) (u : User) (rest : list User)
    (file : File) :
  users d = u :: rest ->
  derived_name "User_%_Streaming_History_Audio_2024.json" = Some "%" /\
  sync_user_id d "%" = inr (d, u_id u) /\
  (count_history d (u_id u) = 0%nat ->
   run_db (sync_user (start_run d) ("%", [file]))
   = add_history d (persisted_rows true (u_id u) file) /\
   (forall row, In row (persisted_rows true (u_id u) file) ->
      sh_user_id row = u_id u /\
      exists e, In e (valid_of file) /\ stored (u_id u) e = Some row) /\
   (file_succeeds true (u_id u) file = true ->
    mapM (stored (u_id u)) (valid_of file) = Some (persisted_rows true (u_id u) file))).
Proof.
  intros Hus.
  assert (Hid : sync_user_id d "%" = inr (d, u_id u)).
  { unfold sync_user_id. rewrite query_users_ilike_spec by reflexivity.
    unfold select_users_ilike. rewrite Hus. cbn [List.filter].
    unfold ilike at 1. change (lower "%") with "%". by rewrite like_everything. }
  assert (Hu : has_user d (u_id u) = true).
  { apply has_user_elem. exists u. rewrite Hus. split; [by left|done]. }
  split; [reflexivity|]. split; [done|].
  intros Hc. split; [|split].
  - unfold sync_user. cbn [run_db start_run]. rewrite Hid, Hc.
    cbn [Nat.ltb Nat.leb]. rewrite process_files_spec.
    cbn [fst run_db map concat]. by rewrite Hu, app_nil_r.
  - intros row Hrow. apply persisted_rows_valid in Hrow as (_ & e & He & Hst).
    split; [by eapply stored_user_id|]. by exists e.
  - intros Hok. by apply persisted_rows_all.
Qed.

Section Signup.

Lemma List_filter_nil_inv {A} (f : A -> bool) (l : list A) :
  List.filter f l = [] -> forall x, In x l -> f x = false.
Proof.
  intros Hnil x Hx. destruct (f x) eqn:Hfx; [|done].
  assert (In x (List.filter f l)) by (apply filter_In; done).
  rewrite Hnil in *. done.
Qed.

End Signup.

(** X11.  The sign-up refuses a name that is missing or shorter than two
    characters once trimmed, and leaves the store as it is.  When it
    succeeds it has added one user, under the trimmed name and with the
    avatar ['goat'], and no earlier user matched that name; for a name
    without pattern characters this means that the new user is the only
    one with this name up to letter case.  Such a name is refused when a
    user has it up to letter case - also right after its own sign-up. *)
Theorem signup_keeps_names_apart (d : Db) (name : string) :
  ((String.length (Js.trim name) < 2)%nat ->
   signup d (Some name) = (d, SignupBadRequest "Username must be at least 2 characters")) /\
  signup d None = (d, SignupBadRequest "Username must be at least 2 characters") /\
  (forall d' user,
     signup d (Some name) = (d', SignupOk user) ->
     users d' = users d ++ [user] /\
     user = {| u_id := users_id_seq d + 1; u_username := Js.trim name; u_avatar := "goat" |} /\
     (2 <= String.length (Js.trim name))%nat /\
     (forall u, In u (users d) -> ilike (u_username u) (Js.trim name) = false) /\
     (is_literal (Js.trim name) = true ->
      (forall u, In u (users d') ->
                 same_modulo_case (u_username u) (Js.trim name) -> u = user) /\
      signup d' (Some name) = (d', SignupBadRequest "Username already exists"))) /\
  (is_literal (Js.trim name) = true ->
   (2 <= String.length (Js.trim name))%nat ->
   (exists u, In u (users d) /\ same_modulo_case (u_username u) (Js.trim name)) ->
   signup d (Some name) = (d, SignupBadRequest "Username already exists")).
Proof.
  assert (Hexists : forall d0, is_literal (Js.trim name) = true ->
            (2 <= String.length (Js.trim name))%nat ->
            (exists u, In u (users d0) /\ same_modulo_case (u_username u) (Js.trim name)) ->
            signup d0 (Some name) = (d0, SignupBadRequest "Username already exists")).
  { intros d0 Hlit Hlen (u & Hu & Hsame). unfold signup.
    assert (Htruthy : truthy (Some name) = true).
    { destruct name as [|c s]; [|done]. cbn in Hlen. lia. }
    rewrite Htruthy. destruct (Nat.leb_spec 2 (String.length (Js.trim name))); [|lia].
    cbn [andb]. rewrite query_users_ilike_literal by done.
    destruct (select_users_ilike d0 (Js.trim name)) as [|u' rest] eqn:Hsel; [|done].
    pose proof (List_filter_nil_inv _ _ Hsel u Hu) as Hno. cbn beta in Hno.
    assert (ilike (u_username u) (Js.trim name) = true) by (by apply ilike_literal).
    congruence. }
  split; [|split; [done|split; [|by apply Hexists]]].
  - intros Hshort. unfold signup.
    destruct (Nat.leb_spec 2 (String.length (Js.trim name))); [lia|].
    by rewrite andb_false_r.
  - intros d' user. unfold signup at 1.
    destruct (truthy (Some name) && (2 <=? String.length (Js.trim name))%nat) eqn:Hok; [|done].
    apply andb_true_iff in Hok as [_ Hlen]. apply Nat.leb_le in Hlen.
    destruct (query_users_ilike d (Js.trim name)) as [[|u' rest]|] eqn:Hq; [|done|done].
    apply query_users_ilike_Some in Hq. symmetry in Hq.
    destruct (insert_user d (Js.trim name) "goat") as [d1|[d1 id]] eqn:Hins; [done|].
    intros [= <- <-].
    apply insert_user_inr in Hins as (name' & av' & Hn & Hav & -> & _ & _ & _ & ->).
    apply varchar_trim in Hn as ->. rewrite varchar_goat in Hav. injection Hav as <-.
    cbn [users]. split; [done|]. split; [done|]. split; [done|].
    assert (Hno : forall u, In u (users d) -> ilike (u_username u) (Js.trim name) = false)
      by (intros u Hu; apply (List_filter_nil_inv _ _ Hq u Hu)).
    split; [done|]. intros Hlit. split.
    + intros u Hu Hsame. apply in_app_or in Hu as [Hu|[<-|[]]]; [|done].
      apply ilike_literal in Hsame; [|done]. rewrite (Hno u Hu) in Hsame. done.
    + apply Hexists; [done|done|]. eexists. split; [apply in_or_app; right; by left|].
      reflexivity.
Qed.

(* ================================================================== *)
(** * Further properties: what the synchronisation adds *)
(* ================================================================== *)

Section SyncAdds.

Lemma sync_user_adds st k fs :
  exists us rows,
    users (run_db (sync_user st (k, fs))) = users (run_db st) ++ us /\
    (forall u, In u us -> varchar 255 k = Some (u_username u) /\ u_avatar u = "goat") /\
    streaming_history (run_db (sync_user st (k, fs)))
    = streaming_history (run_db st) ++ rows /\
    (forall row, In row rows ->
       exists e, is_valid e = true /\ row = row_of (sh_user_id row) e) /\
    comments (run_db (sync_user st (k, fs))) = comments (run_db st) /\
    comment_likes (run_db (sync_user st (k, fs))) = comment_likes (run_db st).
Proof.
  unfold sync_user.
  destruct (sync_user_id (run_db st) k) as [d1|[d1 id]] eqn:Hid.
  - assert (Hd1 : users d1 = users (run_db st) /\
                  streaming_history d1 = streaming_history (run_db st) /\
                  comments d1 = comments (run_db st) /\
                  comment_likes d1 = comment_likes (run_db st)).
    { unfold sync_user_id in Hid.
      destruct (query_users_ilike (run_db st) k) as [[|u rest]|]; [| |].
      - by apply insert_user_inl in Hid.
      - done.
      - by injection Hid as <-. }
    destruct Hd1 as (Hu & Hh & Hc & Hl).
    exists [], []. cbn [emit run_db]. rewrite !app_nil_r. done.
  - assert (Hd1 : exists us,
              users d1 = users (run_db st) ++ us /\
              (forall u, In u us ->
                 varchar 255 k = Some (u_username u) /\ u_avatar u = "goat") /\
              streaming_history d1 = streaming_history (run_db st) /\
              comments d1 = comments (run_db st) /\
              comment_likes d1 = comment_likes (run_db st)).
    { unfold sync_user_id in Hid.
      destruct (query_users_ilike (run_db st) k) as [[|u rest]|]; [| |done].
      - apply insert_user_inr in Hid as (name' & av' & Hn & Hav & _ & _ & _ & _ & ->).
        rewrite varchar_goat in Hav. injection Hav as <-.
        eexists [_]. cbn [users].
        split; [reflexivity|]. split; [|done]. by intros u [<-|[]].
      - injection Hid as <- <-. exists []. by rewrite app_nil_r. }
    destruct Hd1 as (us & Hu & Hus & Hh & Hc & Hl).
    destruct (0 <? count_history d1 id)%nat.
    + exists us, []. cbn [run_db]. rewrite app_nil_r. done.
    + destruct (process_files_adds id fs {| run_db := d1; run_trace := run_trace st |} 0)
        as (rows & -> & _ & _ & Hrows).
      exists us, rows. cbn [run_db add_history users streaming_history comments comment_likes].
      rewrite Hh. do 2 (split; [done|]). split; [done|]. split; [|done].
      intros row Hrow. destruct (Hrows row Hrow) as (e & He & Hst).
      rewrite (stored_user_id _ _ _ Hst). by eapply stored_valid.
Qed.

Lemma sync_users_add entries : forall st,
  exists us rows,
    users (run_db (sync_users st entries)) = users (run_db st) ++ us /\
    (forall u, In u us ->
       (exists k, In k (map fst entries) /\ varchar 255 k = Some (u_username u)) /\
       u_avatar u = "goat") /\
    streaming_history (run_db (sync_users st entries))
    = streaming_history (run_db st) ++ rows /\
    (forall row, In row rows ->
       exists e, is_valid e = true /\ row = row_of (sh_user_id row) e) /\
    comments (run_db (sync_users st entries)) = comments (run_db st) /\
    comment_likes (run_db (sync_users st entries)) = comment_likes (run_db st).
Proof.
  unfold sync_users.
  induction entries as [|[k fs] entries IH]; intros st; cbn [fold_left].
  - exists [], []. by rewrite !app_nil_r.
  - destruct (sync_user_adds st k fs) as (us1 & rows1 & Hu1 & Hus1 & Hh1 & Hrows1 & Hc1 & Hl1).
    destruct (IH (sync_user st (k, fs))) as (us2 & rows2 & Hu2 & Hus2 & Hh2 & Hrows2 & Hc2 & Hl2).
    exists (us1 ++ us2), (rows1 ++ rows2).
    rewrite Hu2, Hu1, Hh2, Hh1, Hc2, Hc1, Hl2, Hl1, !app_assoc.
    split; [done|]. split.
    { intros u Hu. cbn [map fst]. apply in_app_or in Hu as [Hu|Hu].
      - destruct (Hus1 u Hu) as [Hk ?]. split; [|done]. exists k. split; [by left|done].
      - destruct (Hus2 u Hu) as [(k' & Hk' & Hv) ?]. split; [|done].
        exists k'. split; [by right|done]. }
    split; [done|]. split; [|done].
    intros row Hrow. apply in_app_or in Hrow as [Hrow|Hrow]; eauto.
Qed.

End SyncAdds.

(** X12.  A synchronisation run only appends: the users and the plays of
    the store stay where they are, in front of what the run adds, and the
    comments and likes are not touched.  Every user it creates has the
    avatar ['goat'] and a name read from the name of a file of the
    directory - a name without underscore and without white space at its
    ends.  Every play it adds comes from a record with a track name and a
    positive play time. *)
Theorem sync_only_appends (d : Db) (dir : list File) :
  exists us rows,
    users (run_db (syncAllUsersFromFiles d dir)) = users d ++ us /\
    streaming_history (run_db (syncAllUsersFromFiles d dir)) = streaming_history d ++ rows /\
    comments (run_db (syncAllUsersFromFiles d dir)) = comments d /\
    comment_likes (run_db (syncAllUsersFromFiles d dir)) = comment_likes d /\
    (forall u, In u us ->
       u_avatar u = "goat" /\
       has_char "_" (u_username u) = false /\
       Js.trim (u_username u) = u_username u /\
       exists f, In f dir /\ is_user_history_file (originalname f) = true /\
                 derived_name (originalname f) = Some (u_username u)) /\
    (forall row, In row rows ->
       exists e, is_valid e = true /\ row = row_of (sh_user_id row) e).
Proof.
  unfold syncAllUsersFromFiles.
  destruct (userFilesMap _ []) as [m|] eqn:Hm.
  - destruct (sync_users_add (object_entries m) (start_run d))
      as (us & rows & Hu & Hus & Hh & Hrows & Hc & Hl).
    exists us, rows. do 4 (split; [done|]). split; [|done].
    intros u Hin. destruct (Hus u Hin) as [(k0 & Hkey & Hstored) Hav]. split; [done|].
    apply in_map_iff in Hkey as ([k fs] & Hk & Hentry). cbn [fst] in Hk. subst k0.
    apply (Permutation_in _ (object_entries_perm m)) in Hentry.
    assert (Hok0 : groups_ok []) by (split; [constructor|by intros ? ? []]).
    destruct (userFilesMap_spec _ _ _ Hm Hok0) as ((_ & Hgroups) & Hperm & _).
    destruct (Hgroups _ _ Hentry) as [Hne Hfs].
    destruct fs as [|f fs]; [done|].
    assert (Hd : derived_name (originalname f) = Some k) by (apply Hfs; by left).
    assert (Hname : u_username u = k).
    { destruct (derived_name_clean _ _ Hd) as [_ Htrim].
      rewrite <- Htrim in Hstored. apply varchar_trim in Hstored. by rewrite Hstored. }
    rewrite Hname.
    destruct (derived_name_clean _ _ Hd) as [? ?]. do 2 (split; [done|]).
    exists f. split; [|split; [|done]].
    + assert (Hf : In f (concat (map snd m))).
      { apply in_concat. exists (f :: fs). split; [|by left].
        apply in_map_iff. by exists (k, f :: fs). }
      apply (Permutation_in _ Hperm) in Hf. cbn [concat map app] in Hf.
      apply filter_In in Hf as [Hf _]. by apply filter_In in Hf as [Hf _].
    + assert (Hf : In f (concat (map snd m))).
      { apply in_concat. exists (f :: fs). split; [|by left].
        apply in_map_iff. by exists (k, f :: fs). }
      apply (Permutation_in _ Hperm) in Hf. cbn [concat map app] in Hf.
      apply filter_In in Hf as [Hf _]. by apply filter_In in Hf as [_ Hf].
  - exists [], []. cbn [run_db start_run]. by rewrite !app_nil_r.
Qed.


(* ================================================================== *)
(** * Further properties: comments and likes over the life of a store *)
(* ================================================================== *)

Section Stores.

Lemma likes_consistent_same d d' :
  comments d' = comments d -> comment_likes d' = comment_likes d ->
  likes_consistent d -> likes_consistent d'.
Proof.
  unfold likes_consistent, count_likes, has_comment. intros -> ->. done.
Qed.

Lemma upload_keeps_comments d req :
  comments (run_db (fst (upload d req))) = comments d /\
  comment_likes (run_db (fst (upload d req))) = comment_likes d.
Proof.
  unfold upload.
  destruct (upload_user d (upload_username req)) as [d1|[d1 id]] eqn:Hu.
  - unfold upload_user in Hu.
    destruct (select_users_by_username d (upload_username req)); [|done].
    by apply insert_user_inl in Hu as (_ & _ & ? & ?).
  - destruct (process_files_adds id (files req) (start_run d1) 0) as (rows & Hdb & _).
    destruct (process_files id (files req) (start_run d1) 0) as [st n].
    cbn [fst] in *. rewrite Hdb. cbn [run_db start_run add_history comments comment_likes].
    by apply upload_user_cases in Hu as [[-> _]|(_ & _ & _ & name' & _ & _ & ->)].
Qed.

Lemma upload_not_multipart_keeps_comments d username uuid :
  comments (fst (upload_not_multipart d username uuid)) = comments d /\
  comment_likes (fst (upload_not_multipart d username uuid)) = comment_likes d.
Proof.
  unfold upload_not_multipart.
  destruct (upload_user d _) as [d1|[d1 id]] eqn:Hu; cbn [fst].
  - unfold upload_user in Hu. destruct (select_users_by_username d _); [|done].
    by apply insert_user_inl in Hu as (_ & _ & ? & ?).
  - by apply upload_user_cases in Hu as [[-> _]|(_ & _ & _ & name' & _ & _ & ->)].
Qed.

Lemma signup_keeps_comments d username :
  comments (fst (signup d username)) = comments d /\
  comment_likes (fst (signup d username)) = comment_likes d.
Proof.
  unfold signup. destruct username as [s|]; [|done].
  destruct (truthy (Some s) && _); [|done].
  destruct (query_users_ilike d (Js.trim s)) as [[|u rest]|]; [|done|done].
  destruct (insert_user d (Js.trim s) "goat") as [d1|[d1 id]] eqn:Hins; cbn [fst].
  - by apply insert_user_inl in Hins as (_ & _ & ? & ?).
  - by apply insert_user_inr in Hins as (? & ? & _ & _ & _ & _ & _ & _ & ->).
Qed.

Lemma sync_keeps_comments d dir :
  comments (run_db (syncAllUsersFromFiles d dir)) = comments d /\
  comment_likes (run_db (syncAllUsersFromFiles d dir)) = comment_likes d.
Proof.
  unfold syncAllUsersFromFiles. destruct (userFilesMap _ []) as [m|]; [|done].
  by destruct (sync_users_add (object_entries m) (start_run d))
    as (_ & _ & _ & _ & _ & _ & ? & ?).
Qed.

Lemma start_index_keeps_comments d dir :
  comments (run_db (fst (start_index d dir))) = comments d /\
  comment_likes (run_db (fst (start_index d dir))) = comment_likes d.
Proof.
  unfold start_index.
  destruct (ensureDemoUser_cases d) as [(_ & _ & _ & ->)|[(_ & _ & ->)|(_ & _ & ->)]];
    match goal with
    | |- context [loadDemoData ?x dir] =>
        destruct (loadDemoData_adds x dir) as (rows & -> & _)
    end; done.
Qed.

Lemma has_comment_update d cid x :
  has_comment (update_comment_likes d cid) x = has_comment d x.
Proof.
  unfold has_comment, update_comment_likes. cbn [comments].
  induction (comments d) as [|c cs IH]; [done|]. cbn [map existsb]. rewrite IH.
  by destruct (c_id c =? cid).
Qed.

Lemma update_comment_likes_consistent d cid :
  (forall c, In c (comments d) -> c_id c <> cid -> c_likes c = count_likes d (c_id c)) ->
  (forall l, In l (comment_likes d) -> has_comment d (cl_comment_id l) = true) ->
  NoDup (map (fun l => (cl_comment_id l, cl_user_id l)) (comment_likes d)) ->
  likes_consistent (update_comment_likes d cid).
Proof.
  intros Hcount Href Hnodup. split; [|split].
  - intros c Hc. rewrite count_likes_update.
    unfold update_comment_likes in Hc. cbn [comments] in Hc.
    apply in_map_iff in Hc as (c0 & <- & Hc0).
    destruct (Z.eqb_spec (c_id c0) cid) as [He|He]; cbn [c_id c_likes].
    + by rewrite He.
    + by apply Hcount.
  - intros l Hl. rewrite has_comment_update. by apply Href.
  - done.
Qed.

(** The cases of the like handler. *)
Lemma like_as_cases userId d cid :
  (insert_comment_like d cid userId = None /\ like_as userId d cid = (d, LikeServerError)) \/
  (existsb (fun l => (cl_comment_id l =? cid) && (cl_user_id l =? userId)) (comment_likes d)
   = true /\
   insert_comment_like d cid userId = Some d /\
   fst (like_as userId d cid) = update_comment_likes d cid) \/
  (existsb (fun l => (cl_comment_id l =? cid) && (cl_user_id l =? userId)) (comment_likes d)
   = false /\
   has_comment d cid = true /\ has_user d userId = true /\
   int4 cid = true /\ int4 userId = true /\
   like_as userId d cid
   = (update_comment_likes
        {| users := users d; users_id_seq := users_id_seq d;
           streaming_history := streaming_history d; comments := comments d;
           comment_likes := comment_likes d
                            ++ [{| cl_comment_id := cid; cl_user_id := userId |}] |} cid,
      LikeOk (count_likes d cid + 1))).
Proof.
  unfold like_as. destruct (insert_comment_like d cid userId) as [d1|] eqn:Hins;
    [|left; done].
  right. revert Hins. unfold insert_comment_like.
  destruct (int4 cid && int4 userId) eqn:Hint; [|done].
  apply andb_true_iff in Hint as [Hi1 Hi2].
  destruct (existsb _ (comment_likes d)) eqn:Hex.
  - intros [= <-]. left. split; [done|]. split; [done|].
    by destruct (select_comment_likes (update_comment_likes d cid) cid).
  - destruct (has_comment d cid && has_user d userId) eqn:Hfk; [|done].
    apply andb_true_iff in Hfk as [Hc Hu]. intros [= <-]. right.
    do 5 (split; [done|]).
    rewrite select_comment_likes_update. cbn [comments].
    destruct (List.filter (fun c => c_id c =? cid) (comments d)) as [|c cs] eqn:Hsel.
    + assert (has_comment d cid = false).
      { apply select_comment_likes_nil. unfold select_comment_likes. by rewrite Hsel. }
      congruence.
    + cbn [map]. do 2 f_equal. unfold count_likes. cbn [comment_likes].
      rewrite List.filter_app, length_app. cbn [List.filter cl_comment_id].
      rewrite Z.eqb_refl. cbn [length]. lia.
Qed.

Lemma existsb_pair_false (ls : list CommentLike) cid uid :
  existsb (fun l => (cl_comment_id l =? cid) && (cl_user_id l =? uid)) ls = false ->
  ~ In (cid, uid) (map (fun l => (cl_comment_id l, cl_user_id l)) ls).
Proof.
  intros Hex Hin. apply in_map_iff in Hin as (l & [= <- <-] & Hl).
  assert (existsb (fun l0 => (cl_comment_id l0 =? cl_comment_id l)
                             && (cl_user_id l0 =? cl_user_id l)) ls = true).
  { apply existsb_exists. exists l. by rewrite !Z.eqb_refl. }
  congruence.
Qed.

Lemma like_as_consistent userId d cid :
  likes_consistent d -> likes_consistent (fst (like_as userId d cid)).
Proof.
  intros (Hcount & Href & Hnodup).
  destruct (like_as_cases userId d cid)
    as [[_ ->]|[(_ & _ & ->)|(Hex & Hc & _ & _ & _ & ->)]]; cbn [fst].
  - done.
  - apply update_comment_likes_consistent; [|done|done]. intros c Hin _. by apply Hcount.
  - apply update_comment_likes_consistent; cbn [comments comment_likes].
    + intros c Hin Hne. rewrite (Hcount c Hin). unfold count_likes. cbn [comment_likes].
      rewrite List.filter_app. cbn [List.filter cl_comment_id].
      destruct (Z.eqb_spec cid (c_id c)) as [He|He]; [congruence|]. by rewrite app_nil_r.
    + intros l Hl. apply in_app_or in Hl as [Hl|[<-|[]]]; [by apply Href|done].
    + rewrite map_app. cbn [map cl_comment_id cl_user_id].
      apply NoDup_app. split; [done|]. split.
      * intros p Hp Hq. apply list_elem_of_In in Hp. apply list_elem_of_In in Hq as [Hq|[]].
        subst p. by apply existsb_pair_false in Hex.
      * apply NoDup_singleton.
Qed.

Lemma count_likes_absent d id :
  (forall l, In l (comment_likes d) -> has_comment d (cl_comment_id l) = true) ->
  has_comment d id = false -> count_likes d id = 0.
Proof.
  intros Href Hno. unfold count_likes.
  rewrite (List_filter_none (fun l => cl_comment_id l =? id)); [done|].
  intros l Hl. destruct (Z.eqb_spec (cl_comment_id l) id) as [He|He]; [|done].
  specialize (Href l Hl). congruence.
Qed.

(** The cases of the comment handler. *)
Lemma comment_as_cases userId d id decoded content :
  (comment_as userId d id decoded content = (d, CommentServerError) /\
   match decoded, content with
   | Some artistName, Some _ =>
       int4 id && int4 userId && negb (has_comment d id) && has_user d userId = false \/
       varchar 500 artistName = None
   | _, _ => True
   end) \/
  (exists artistName stored_name text u,
     decoded = Some artistName /\ varchar 500 artistName = Some stored_name /\
     content = Some text /\ has_comment d id = false /\
     In u (users d) /\ u_id u = userId /\ int4 id = true /\ int4 userId = true /\
     comment_as userId d id decoded content
     = ({| users := users d; users_id_seq := users_id_seq d;
           streaming_history := streaming_history d;
           comments := comments d ++ [{| c_id := id; c_user_id := userId;
                                         c_artist_name := stored_name;
                                         c_content := text; c_likes := 0 |}];
           comment_likes := comment_likes d |},
        CommentOk id text 0 (u_username u) (u_avatar u))).
Proof.
  unfold comment_as, insert_comment. destruct decoded as [artistName|]; [|left; done].
  destruct content as [text|]; [|left; done].
  destruct (varchar 500 artistName) as [stored_name|] eqn:Hv; [|left; split; [done|by right]].
  destruct (int4 id && int4 userId && negb (has_comment d id) && has_user d userId) eqn:Hok;
    [|left; split; [done|by left]].
  right. apply andb_true_iff in Hok as [Hok Hhas].
  apply andb_true_iff in Hok as [Hok Hfree]. apply andb_true_iff in Hok as [Hi1 Hi2].
  apply negb_true_iff in Hfree.
  unfold select_users_by_id. cbn [users c_id c_content].
  destruct (List.filter (fun u => u_id u =? userId) (users d)) as [|u rest] eqn:Hsel.
  - apply has_user_elem in Hhas as (u & Hin & Hid).
    assert (In u (List.filter (fun u => u_id u =? userId) (users d))).
    { apply filter_In. split; [done|]. by apply Z.eqb_eq. }
    rewrite Hsel in *. done.
  - apply filter_head_In in Hsel as [Hin Hid]. apply Z.eqb_eq in Hid.
    exists artistName, stored_name, text, u. do 8 (split; [done|]). done.
Qed.

Lemma comment_as_consistent userId d id decoded content :
  likes_consistent d ->
  likes_consistent (fst (comment_as userId d id decoded content)).
Proof.
  intros (Hcount & Href & Hnodup).
  destruct (comment_as_cases userId d id decoded content)
    as [[-> _]|(artistName & stored_name & text & u & _ & _ & _ & Hno & _ & _ & _ & _ & ->)];
    cbn [fst]; [done|].
  assert (Hhas : forall x, has_comment d x = true ->
            has_comment {| users := users d; users_id_seq := users_id_seq d;
                           streaming_history := streaming_history d;
                           comments := comments d ++ [{| c_id := id; c_user_id := userId;
                                                         c_artist_name := stored_name;
                                                         c_content := text; c_likes := 0 |}];
                           comment_likes := comment_likes d |} x = true).
  { intros x Hx. unfold has_comment in *. cbn [comments]. rewrite existsb_app, Hx. done. }
  split; [|split]; cbn [comments comment_likes].
  - intros c Hc. apply in_app_or in Hc as [Hc|[<-|[]]].
    + by apply Hcount.
    + cbn [c_likes c_id]. symmetry. by apply (count_likes_absent d id).
  - intros l Hl. by apply Hhas, Href.
  - done.
Qed.

Lemma step_consistent d d' : step d d' -> likes_consistent d -> likes_consistent d'.
Proof.
  intros [req|username uuid|username|userId id artistName content|userId commentId|dir|dir] Hd.
  - destruct (upload_keeps_comments d req). by eapply likes_consistent_same.
  - destruct (upload_not_multipart_keeps_comments d username uuid).
    by eapply likes_consistent_same.
  - destruct (signup_keeps_comments d username). by eapply likes_consistent_same.
  - by apply comment_as_consistent.
  - by apply like_as_consistent.
  - destruct (sync_keeps_comments d dir). by eapply likes_consistent_same.
  - destruct (start_index_keeps_comments d dir). by eapply likes_consistent_same.
Qed.

End Stores.

(** X13.  In every store that the server reaches from the empty tables
    by uploads, sign-ups, comments, likes, synchronisation runs and
    startups - answered or failed, in any order - the [likes] column of
    every comment is the number of [comment_likes] rows of that comment,
    every like belongs to a stored comment, and no user has liked a
    comment twice. *)
Theorem reachable_stores_count_likes (d : Db) :
  reachable d -> likes_consistent d.
Proof.
  induction 1 as [|d d' _ IH Hstep].
  - split; [by intros c []|]. split; [by intros l []|]. constructor.
  - by eapply step_consistent.
Qed.

Section CommentsAndLikes.

Lemma update_comment_likes_same d cid :
  (forall c, In c (comments d) -> c_likes c = count_likes d (c_id c)) ->
  update_comment_likes d cid = d.
Proof.
  intros Hcount. unfold update_comment_likes. destruct d as [us sq sh cs ls].
  cbn [users users_id_seq streaming_history comments comment_likes] in *.
  f_equal. induction cs as [|c cs IH]; [done|]. cbn [map]. f_equal.
  - destruct (Z.eqb_spec (c_id c) cid) as [He|He]; [|done].
    rewrite <- He, <- (Hcount c) by (by left). by destruct c.
  - apply IH. intros c' Hc'. apply Hcount. by right.
Qed.

Lemma update_comment_likes_others d cid c :
  In c (comments d) -> c_id c <> cid -> In c (comments (update_comment_likes d cid)).
Proof.
  intros Hin Hne. unfold update_comment_likes. cbn [comments].
  apply in_map_iff. exists c. split; [|done].
  by destruct (Z.eqb_spec (c_id c) cid).
Qed.

Lemma update_comment_likes_ids d cid :
  map c_id (comments (update_comment_likes d cid)) = map c_id (comments d).
Proof.
  unfold update_comment_likes. cbn [comments]. rewrite map_map. apply map_ext.
  intros c. by destruct (c_id c =? cid).
Qed.

End CommentsAndLikes.

(** X14.  On a store with right like counts, a like that is answered
    either repeats a like of the same user - the store is then left
    exactly as it was and the answer is the present count - or it is the
    user's first like of the comment: one row is added, the answer is the
    former count plus one, and the other comments keep their rows.  A like
    fails only when an identifier is no [INTEGER] or when the like is
    new and the comment or the user does not exist; the store is then
    unchanged.  Users and plays are never touched. *)
Theorem first_like_adds_one (userId : Z) (d : Db) (commentId : Z) :
  likes_consistent d ->
  let liked := existsb (fun l => (cl_comment_id l =? commentId) && (cl_user_id l =? userId))
                       (comment_likes d) in
  users (fst (like_as userId d commentId)) = users d /\
  streaming_history (fst (like_as userId d commentId)) = streaming_history d /\
  map c_id (comments (fst (like_as userId d commentId))) = map c_id (comments d) /\
  match like_as userId d commentId with
  | (d', LikeOk likes) =>
      (liked = true -> d' = d /\ likes = count_likes d commentId) /\
      (liked = false ->
       likes = count_likes d commentId + 1 /\
       count_likes d' commentId = count_likes d commentId + 1 /\
       comment_likes d'
       = comment_likes d ++ [{| cl_comment_id := commentId; cl_user_id := userId |}] /\
       forall c, In c (comments d) -> c_id c <> commentId -> In c (comments d'))
  | (d', LikeServerError) =>
      d' = d /\
      (int4 commentId && int4 userId = true ->
       liked = false /\ has_comment d commentId && has_user d userId = false)
  end.
Proof.
  intros (Hcount & Href & Hnodup) liked. subst liked.
  destruct (like_as_cases userId d commentId)
    as [[Hins Hlike]|[(Hex & Hins & Hfst)|(Hex & Hc & Hu & Hi1 & Hi2 & Hlike)]].
  - rewrite Hlike. cbn [fst]. do 3 (split; [done|]). split; [done|].
    revert Hins. unfold insert_comment_like.
    destruct (int4 commentId && int4 userId); [|done].
    destruct (existsb _ (comment_likes d)); [done|].
    by destruct (has_comment d commentId && has_user d userId).
  - rewrite update_comment_likes_same in Hfst by done.
    assert (Hhas : has_comment d commentId = true).
    { apply existsb_exists in Hex as (l & Hl & Heq).
      apply andb_true_iff in Heq as [Heq _]. apply Z.eqb_eq in Heq. subst commentId.
      by apply Href. }
    unfold like_as in *. rewrite Hins in *. rewrite update_comment_likes_same in * by done.
    destruct (select_comment_likes d commentId) as [|likes rest] eqn:Hsel.
    + apply select_comment_likes_nil in Hsel. congruence.
    + cbn [fst]. do 3 (split; [done|]). split; [|intros; congruence].
      intros _. split; [done|].
      unfold select_comment_likes in Hsel.
      destruct (List.filter (fun c => c_id c =? commentId) (comments d)) as [|c cs] eqn:Hf;
        [done|].
      injection Hsel as <- _. apply filter_head_In in Hf as [Hin Hid].
      apply Z.eqb_eq in Hid. subst commentId. by apply Hcount.
  - rewrite Hlike. cbn [fst]. split; [done|]. split; [done|].
    split; [by rewrite update_comment_likes_ids|].
    split; [intros; congruence|]. intros _. split; [done|]. split; [|split; [done|]].
    + rewrite count_likes_update. unfold count_likes. cbn [comment_likes].
      rewrite List.filter_app, length_app. cbn [List.filter cl_comment_id].
      rewrite Z.eqb_refl. cbn [length]. lia.
    + intros c Hin Hne. by apply update_comment_likes_others.
Qed.

(** X15.  On a store with right like counts, a comment that is answered
    is stored as the last row of [comments] under the identifier it was
    given, with its text, zero likes and the artist name as the column
    takes it (the name itself when it has at most 500 characters), and is
    answered with the name and avatar of a user who has the commenting
    identifier; no like references it yet, and the first like of any user
    then answers 1.  A comment fails exactly when the artist name of the
    address cannot be decoded or its row is refused - no text, an unknown
    user, a used identifier, an artist name that its column refuses - and
    leaves the store unchanged. *)
Theorem comment_is_stored_unliked (userId : Z) (d : Db) (id : Z) (decoded : option string)
    (content : option string) :
  likes_consistent d ->
  match comment_as userId d id decoded content with
  | (d', CommentOk id' text likes username avatar) =>
      id' = id /\ content = Some text /\ likes = 0 /\
      (exists artistName stored_name,
         decoded = Some artistName /\ varchar 500 artistName = Some stored_name /\
         (fits 500 artistName = true -> stored_name = artistName) /\
         comments d' = comments d ++ [{| c_id := id; c_user_id := userId;
                                         c_artist_name := stored_name;
                                         c_content := text; c_likes := 0 |}]) /\
      int4 id && int4 userId && negb (has_comment d id) && has_user d userId = true /\
      users d' = users d /\ streaming_history d' = streaming_history d /\
      comment_likes d' = comment_likes d /\
      (exists u, In u (users d) /\ u_id u = userId /\
                 u_username u = username /\ u_avatar u = avatar) /\
      count_likes d' id = 0 /\
      (forall liker, has_user d liker = true -> int4 liker = true ->
                     snd (like_as liker d' id) = LikeOk 1)
  | (d', CommentServerError) =>
      d' = d /\
      match decoded, content with
      | Some artistName, Some _ =>
          int4 id && int4 userId && negb (has_comment d id) && has_user d userId = false \/
          varchar 500 artistName = None
      | _, _ => True
      end
  end.
Proof.
  intros (Hcount & Href & Hnodup).
  destruct (comment_as_cases userId d id decoded content)
    as [[-> Hwhy]|(artistName & stored_name & text & u & -> & Hv & -> & Hno & Hin & Hid
                   & Hi1 & Hi2 & ->)].
  - done.
  - do 3 (split; [done|]). split.
    { exists artistName, stored_name. do 2 (split; [done|]). split; [|done].
      intros Hfit. rewrite (varchar_fits _ _ Hfit) in Hv. by injection Hv. }
    split.
    { rewrite Hi1, Hi2, Hno. cbn [andb negb]. apply has_user_elem. by exists u. }
    do 3 (split; [done|]). split; [by exists u|].
    set (d' := {| users := users d; users_id_seq := users_id_seq d;
                  streaming_history := streaming_history d;
                  comments := comments d ++ [{| c_id := id; c_user_id := userId;
                                                c_artist_name := stored_name;
                                                c_content := text; c_likes := 0 |}];
                  comment_likes := comment_likes d |}).
    assert (Hzero : count_likes d' id = 0) by (by apply (count_likes_absent d id)).
    split; [done|]. intros liker Hliker Hint.
    destruct (like_as_cases liker d' id)
      as [[Hins _]|[(Hex & _)|(_ & _ & _ & _ & _ & ->)]].
    + unfold insert_comment_like in Hins. rewrite Hi1, Hint in Hins. cbn [andb] in Hins.
      destruct (existsb _ (comment_likes d')); [done|].
      assert (Hc : has_comment d' id = true).
      { unfold has_comment, d'. cbn [comments]. rewrite existsb_app. cbn [existsb c_id].
        by rewrite Z.eqb_refl, orb_true_r. }
      assert (Hu : has_user d' liker = true) by done.
      by rewrite Hc, Hu in Hins.
    + apply existsb_exists in Hex as (l & Hl & Heq).
      apply andb_true_iff in Heq as [Heq _]. apply Z.eqb_eq in Heq.
      specialize (Href l Hl). congruence.
    + cbn [snd]. by rewrite Hzero.
Qed.

(* ================================================================== *)
(** * Further properties: the top lists of the profile *)
(* ================================================================== *)

Section TopLists.

Context {K : Type} `{EqDecision K}.

#[local] Instance top_desc_trans : Transitive (@top_desc K).
Proof.
  intros a b c. unfold top_desc.
  destruct (top_total a), (top_total b), (top_total c); try done. lia.
Qed.

#[local] Instance top_desc_total : Total (@top_desc K).
Proof.
  intros a b. unfold top_desc.
  destruct (top_total a), (top_total b); try tauto. lia.
Qed.

Lemma group_by_elem (key : StreamRow -> option K) rows g :
  In g (group_by key rows) <->
  g = group_of key (top_key g) rows /\ exists row, In row rows /\ key row = Some (top_key g).
Proof.
  unfold group_by. rewrite in_map_iff. split.
  - intros (k & <- & Hk). split; [done|]. cbn [top_key].
    apply list_elem_of_In, elem_of_remove_dups, list_elem_of_omap in Hk as (row & Hrow & Hkey).
    exists row. split; [by apply list_elem_of_In|done].
  - intros (Hg & row & Hrow & Hkey). exists (top_key g). split; [done|].
    apply list_elem_of_In, elem_of_remove_dups, list_elem_of_omap.
    exists row. split; [by apply list_elem_of_In|done].
Qed.

Lemma group_by_keys (key : StreamRow -> option K) rows :
  map top_key (group_by key rows) = remove_dups (omap key rows).
Proof.
  unfold group_by. rewrite map_map. cbn [top_key]. apply map_id.
Qed.

Lemma rows_of_key_nonempty (key : StreamRow -> option K) rows row k :
  In row rows -> key row = Some k -> (1 <= length (rows_of_key key k rows))%nat.
Proof.
  intros Hrow Hkey.
  assert (Hin : In row (rows_of_key key k rows)).
  { apply filter_In. split; [done|]. by apply bool_decide_eq_true. }
  destruct (rows_of_key key k rows); [done|]. cbn [length]. lia.
Qed.

Lemma top_ten_spec (key : StreamRow -> option K) (rows : list StreamRow) :
  (length (top_ten key rows) <= 10)%nat /\
  NoDup (map top_key (top_ten key rows)) /\
  (forall g, In g (top_ten key rows) ->
     g = group_of key (top_key g) rows /\ (1 <= top_plays g)%nat) /\
  (forall i j a b, (i < j)%nat ->
     top_ten key rows !! i = Some a -> top_ten key rows !! j = Some b -> top_desc a b) /\
  (forall row k, In row rows -> key row = Some k ->
     ~ In k (map top_key (top_ten key rows)) ->
     length (top_ten key rows) = 10%nat /\
     forall a, In a (top_ten key rows) -> top_desc a (group_of key k rows)).
Proof.
  unfold top_ten.
  set (sorted := merge_sort top_desc (group_by key rows)).
  assert (Hsorted : StronglySorted top_desc sorted)
    by (apply StronglySorted_merge_sort; apply _).
  assert (Hperm : sorted ≡ₚ group_by key rows) by apply merge_sort_Permutation.
  assert (Hsub : forall g, In g (take 10 sorted) -> In g (group_by key rows)).
  { intros g Hg. apply list_elem_of_In, subseteq_take in Hg.
    rewrite Hperm in Hg. by apply list_elem_of_In. }
  split; [rewrite length_take; lia|]. split; [|split; [|split]].
  - rewrite <- firstn_map. eapply sublist_NoDup; [|apply sublist_take].
    rewrite Hperm, group_by_keys. apply NoDup_remove_dups.
  - intros g Hg. apply Hsub, group_by_elem in Hg as (Hg & row & Hrow & Hkey).
    split; [done|]. rewrite Hg. cbn [top_plays group_of]. by eapply rows_of_key_nonempty.
  - intros i j a b Hlt Hi Hj.
    apply lookup_take_Some in Hi as [Hi _]. apply lookup_take_Some in Hj as [Hj _].
    by eapply (StronglySorted_lookup_lt top_desc sorted i j).
  - intros row k Hrow Hkey Hnot.
    assert (Hg : In (group_of key k rows) (group_by key rows)).
    { apply group_by_elem. cbn [top_key group_of]. split; [done|]. by exists row. }
    apply list_elem_of_In in Hg. rewrite <- Hperm in Hg.
    apply list_elem_of_lookup in Hg as [j Hj].
    assert (Hj10 : (10 <= j)%nat).
    { destruct (Nat.le_gt_cases 10 j) as [|Hlt]; [done|]. exfalso. apply Hnot.
      apply in_map_iff. exists (group_of key k rows). split; [done|].
      apply list_elem_of_In, list_elem_of_lookup. exists j. by rewrite lookup_take_lt. }
    apply lookup_lt_Some in Hj as Hlen. split; [rewrite length_take; lia|].
    intros a Ha. apply list_elem_of_In, list_elem_of_lookup in Ha as [i Hi].
    apply lookup_take_Some in Hi as [Hi Hi10].
    eapply (StronglySorted_lookup_lt top_desc sorted i j); [done|done|done|lia].
Qed.

(** The order of the query, read on the totals of the groups. *)
Lemma top_desc_totals (key : StreamRow -> option K) rows (a b : TopRow K) :
  a = group_of key (top_key a) rows -> b = group_of key (top_key b) rows ->
  top_desc a b ->
  desc (sum_ms (rows_of_key key (top_key a) rows)) (sum_ms (rows_of_key key (top_key b) rows)).
Proof.
  intros Ha Hb. pose proof (f_equal top_total Ha) as Hta.
  pose proof (f_equal top_total Hb) as Htb. cbn [group_of top_total] in Hta, Htb.
  unfold top_desc, desc. by rewrite <- Hta, <- Htb.
Qed.

End TopLists.

(** X16.  In a profile response each of the two top lists has at most
    ten entries, no artist (no pair of track and artist) stands in it
    twice, and every entry is a group of the user's plays: [plays] is the
    number of the user's plays with that artist (that track and artist),
    at least one, and [minutes] is their total play time divided by 60000
    and rounded as the handler does it, on floating-point numbers.  The
    entries stand in descending order of their total play time, and a
    group that is left out is left out of a full list whose entries all
    have at least its total. *)
Theorem top_lists_rank_the_groups (d : Db) (param : option string)
    (artists : list TopArtist) (songs : list TopSong) :
  profile_top_lists d param = Some (artists, songs) ->
  exists user rest,
    profile_user_rows d param = Some (user :: rest) /\
    (length artists <= 10)%nat /\ (length songs <= 10)%nat /\
    NoDup (map ta_name artists) /\
    NoDup (map (fun s => (so_name s, so_artist s)) songs) /\
    (forall a, In a artists ->
       let plays := rows_of_key artist_key (ta_name a) (user_history d (u_id user)) in
       ta_plays a = length plays /\ (1 <= ta_plays a)%nat /\
       ta_minutes a = option_map (fun total => Js.round_div total 60000) (sum_ms plays)) /\
    (forall s, In s songs ->
       let plays := rows_of_key song_key (so_name s, so_artist s)
                                (user_history d (u_id user)) in
       so_plays s = length plays /\ (1 <= so_plays s)%nat /\
       so_minutes s = option_map (fun total => Js.round_div total 60000) (sum_ms plays)) /\
    (forall i j a b, (i < j)%nat -> artists !! i = Some a -> artists !! j = Some b ->
       desc (sum_ms (rows_of_key artist_key (ta_name a) (user_history d (u_id user))))
            (sum_ms (rows_of_key artist_key (ta_name b) (user_history d (u_id user))))) /\
    (forall i j a b, (i < j)%nat -> songs !! i = Some a -> songs !! j = Some b ->
       desc (sum_ms (rows_of_key song_key (so_name a, so_artist a)
                                 (user_history d (u_id user))))
            (sum_ms (rows_of_key song_key (so_name b, so_artist b)
                                 (user_history d (u_id user))))) /\
    (forall row name,
       In row (user_history d (u_id user)) -> sh_artist_name row = Some name ->
       ~ In name (map ta_name artists) ->
       length artists = 10%nat /\
       forall a, In a artists ->
         desc (sum_ms (rows_of_key artist_key (ta_name a) (user_history d (u_id user))))
              (sum_ms (rows_of_key artist_key name (user_history d (u_id user))))) /\
    (forall row track,
       In row (user_history d (u_id user)) -> sh_track_name row = Some track ->
       ~ In (track, sh_artist_name row) (map (fun s => (so_name s, so_artist s)) songs) ->
       length songs = 10%nat /\
       forall s, In s songs ->
         desc (sum_ms (rows_of_key song_key (so_name s, so_artist s)
                                   (user_history d (u_id user))))
              (sum_ms (rows_of_key song_key (track, sh_artist_name row)
                                   (user_history d (u_id user))))).
Proof.
  unfold profile_top_lists.
  destruct (profile_user_rows d param) as [[|user rest]|]; [done| |done].
  intros [= <- <-]. exists user, rest. split; [done|].
  unfold topArtistsQuery, topSongsQuery.
  set (rows := user_history d (u_id user)).
  destruct (top_ten_spec artist_key rows) as (Hlen1 & Hnd1 & Hel1 & Hs1 & Hout1).
  destruct (top_ten_spec song_key rows) as (Hlen2 & Hnd2 & Hel2 & Hs2 & Hout2).
  assert (Helem : forall {K' : Type} (l : list (TopRow K')) i g,
            l !! i = Some g -> In g l).
  { intros K' l i g Hg. by eapply list_elem_of_In, list_elem_of_lookup_2. }
  assert (Hpair : forall g : TopRow (string * option string),
            (fst (top_key g), snd (top_key g)) = top_key g).
  { intros g. by destruct (top_key g). }
  split; [by rewrite length_map|]. split; [by rewrite length_map|].
  split; [by rewrite map_map|]. split.
  { rewrite map_map. cbn [so_name so_artist].
    erewrite map_ext; [exact Hnd2|]. intros g. cbn beta. by destruct (top_key g). }
  split.
  { intros a Ha. apply in_map_iff in Ha as (g & <- & Hg). cbn [ta_name ta_plays ta_minutes].
    destruct (Hel1 g Hg) as [Heq Hpos].
    pose proof (f_equal top_plays Heq) as Hp. pose proof (f_equal top_total Heq) as Ht.
    cbn [group_of top_plays top_total] in Hp, Ht. cbv zeta. unfold to_minutes.
    by rewrite <- Ht. }
  split.
  { intros s Hs. apply in_map_iff in Hs as (g & <- & Hg).
    cbn [so_name so_artist so_plays so_minutes].
    destruct (Hel2 g Hg) as [Heq Hpos]. rewrite Hpair.
    pose proof (f_equal top_plays Heq) as Hp. pose proof (f_equal top_total Heq) as Ht.
    cbn [group_of top_plays top_total] in Hp, Ht. cbv zeta. unfold to_minutes.
    by rewrite <- Ht. }
  split.
  { intros i j a b Hlt. rewrite !lookup_map.
    destruct (top_ten artist_key rows !! i) as [ga|] eqn:Hi; [|done].
    destruct (top_ten artist_key rows !! j) as [gb|] eqn:Hj; [|done].
    intros [= <-] [= <-]. cbn [ta_name].
    apply top_desc_totals.
    - by apply Hel1, (Helem _ _ i).
    - by apply Hel1, (Helem _ _ j).
    - by eapply Hs1. }
  split.
  { intros i j a b Hlt. rewrite !lookup_map.
    destruct (top_ten song_key rows !! i) as [ga|] eqn:Hi; [|done].
    destruct (top_ten song_key rows !! j) as [gb|] eqn:Hj; [|done].
    intros [= <-] [= <-]. cbn [so_name so_artist]. rewrite !Hpair.
    apply top_desc_totals.
    - by apply Hel2, (Helem _ _ i).
    - by apply Hel2, (Helem _ _ j).
    - by eapply Hs2. }
  split.
  { intros row name Hrow Hname Hnot. rewrite map_map in Hnot. cbn [ta_name] in Hnot.
    destruct (Hout1 row name Hrow Hname Hnot) as [Hfull Hall].
    split; [by rewrite length_map|].
    intros a Ha. apply in_map_iff in Ha as (g & <- & Hg). cbn [ta_name].
    apply (top_desc_totals artist_key rows g (group_of artist_key name rows)).
    - by apply Hel1.
    - reflexivity.
    - by apply Hall. }
  { intros row track Hrow Htrack Hnot. rewrite map_map in Hnot. cbn [so_name so_artist] in Hnot.
    assert (Hkey : song_key row = Some (track, sh_artist_name row))
      by (unfold song_key; by rewrite Htrack).
    assert (Hnot' : ~ In (track, sh_artist_name row) (map top_key (top_ten song_key rows))).
    { intros Hin. apply Hnot. erewrite map_ext; [exact Hin|].
      intros g. cbn beta. by destruct (top_key g). }
    destruct (Hout2 row _ Hrow Hkey Hnot') as [Hfull Hall].
    split; [by rewrite length_map|].
    intros s Hs. apply in_map_iff in Hs as (g & <- & Hg). cbn [so_name so_artist].
    rewrite Hpair.
    apply (top_desc_totals song_key rows g
             (group_of song_key (track, sh_artist_name row) rows)).
    - by apply Hel2.
    - reflexivity.
    - by apply Hall. }
Qed.

(* ================================================================== *)
(** * Further properties: the age label of a comment *)
(* ================================================================== *)

(** X17.  The age label of a comment whose date lies [diff] milliseconds
    back is ['just now'] exactly below one hour - also for a date in the
    future -, [h] hours exactly when [diff] lies in the [h]-th hour with
    [1 <= h < 24], and [n] days exactly when [diff] lies in the [n]-th
    span of 24 hours with [1 <= n]: the two roundings give whole days. *)
Theorem timeAgo_intervals (diff : Z) :
  (Client.timeAgo diff = Client.JustNow <-> diff < 3600000) /\
  (forall h, Client.timeAgo diff = Client.HoursAgo h <->
             1 <= h < 24 /\ 3600000 * h <= diff < 3600000 * (h + 1)) /\
  (forall n, Client.timeAgo diff = Client.DaysAgo n <->
             1 <= n /\ 86400000 * n <= diff < 86400000 * (n + 1)).
Proof.
  unfold Client.timeAgo. change (1000 * 60 * 60) with 3600000.
  pose proof (Z.mul_div_le diff 3600000 ltac:(lia)) as Hlo.
  pose proof (Z.mul_succ_div_gt diff 3600000 ltac:(lia)) as Hhi.
  pose proof (Z.mul_div_le (diff / 3600000) 24 ltac:(lia)) as Hlo'.
  pose proof (Z.mul_succ_div_gt (diff / 3600000) 24 ltac:(lia)) as Hhi'.
  set (hours := diff / 3600000) in *. set (days := hours / 24) in *.
  destruct (Z.ltb_spec hours 1) as [H1|H1]; [|destruct (Z.ltb_spec hours 24) as [H24|H24]].
  - split; [split; [lia|done]|]. split; intros x; (split; [done|lia]).
  - split; [split; [done|lia]|]. split; intros x.
    + split; [intros [= <-]; lia|]. intros [? ?]. f_equal. lia.
    + split; [done|]. lia.
  - split; [split; [done|lia]|]. split; intros x.
    + split; [done|lia].
    + split; [intros [= <-]; lia|]. intros [? ?]. f_equal. lia.
Qed.

(* ================================================================== *)
(** * Further properties: who stands on an artist's leaderboard *)
(* ================================================================== *)

Section Listed.

Lemma artist_queries_raise_dangling d artistName :
  artist_queries_raise d artistName = true ->
  dangling (lower artistName) = true /\
  ((exists r a, In r (streaming_history d) /\ sh_artist_name r = Some a /\
                ilike_raises a artistName = true) \/
   (exists c, In c (comments d) /\ ilike_raises (c_artist_name c) artistName = true)).
Proof.
  unfold artist_queries_raise. intros H. apply orb_true_iff in H as [H|H].
  - apply existsb_exists in H as (r & Hr & Hm).
    destruct (sh_artist_name r) as [a|] eqn:Ha; [|done]. split.
    + unfold ilike_raises in Hm. by eapply like_raises_dangling.
    + left. by exists r, a.
  - apply existsb_exists in H as (c & Hc & Hm). split.
    + unfold ilike_raises in Hm. by eapply like_raises_dangling.
    + right. by exists c.
Qed.

Lemma ilike_dangling a pattern : dangling (lower pattern) = true -> ilike a pattern = false.
Proof.
  intros Hd. destruct (ilike a pattern) eqn:Hm; [|done].
  unfold ilike in Hm. apply like_not_dangling in Hm. congruence.
Qed.

Lemma leaderboard_none d artistName :
  (forall r a, In r (streaming_history d) -> sh_artist_name r = Some a ->
               ilike a artistName = false) ->
  leaderboard d artistName = [].
Proof.
  intros Hnone. unfold leaderboard, leaderboardQuery, artist_groups.
  rewrite omap_none; [done|].
  intros u _. unfold artist_rows. rewrite List_filter_none; [done|].
  intros r Hr. destruct (sh_artist_name r) as [a|] eqn:Ha; [|by rewrite andb_false_r].
  by rewrite (Hnone r a Hr Ha), andb_false_r.
Qed.

End Listed.

(** X18.  The artist page answers with the server error exactly when the
    artist name of the address cannot be decoded, or is a pattern that
    ends in a lone backslash and raises the engine's error at the artist
    name of a play or of a comment.  Otherwise it answers with the
    leaderboard, and every entry of it is a user of the store who has at
    least one play whose artist name matches: it carries the user's
    identifier, name and avatar, the minutes of these plays (their total
    divided by 60000 and rounded on floating-point numbers), the number of
    their different track names, and the mark of the demo user exactly
    for identifier 1.  With pairwise different user identifiers no user
    stands on the board twice, and when no play matches the artist name -
    as for every name that ends in a lone backslash - the board is
    empty. *)
Theorem leaderboard_lists_listeners (d : Db) (decoded : option string) :
  match get_artist d decoded with
  | ArtistOk board =>
      exists artistName,
        decoded = Some artistName /\ artist_queries_raise d artistName = false /\
        board = leaderboard d artistName /\
        (forall e, In e board ->
           exists u, In u (users d) /\
             userId e = u_id u /\ lb_username e = u_username u /\ lb_avatar e = u_avatar u /\
             artist_rows d artistName (u_id u) <> [] /\
             minutes e = option_map (fun total => Js.round_div total 60000)
                                    (sum_ms (artist_rows d artistName (u_id u))) /\
             songCount e = count_distinct_tracks (artist_rows d artistName (u_id u)) /\
             isCurrentUser e = (u_id u =? DEMO_USER_ID)) /\
        (NoDup (map u_id (users d)) -> NoDup (map userId board)) /\
        ((forall r a, In r (streaming_history d) -> sh_artist_name r = Some a ->
                      ilike a artistName = false) ->
         board = []) /\
        (dangling (lower artistName) = true -> board = [])
  | ArtistServerError =>
      decoded = None \/
      exists artistName,
        decoded = Some artistName /\ dangling (lower artistName) = true /\
        ((exists r a, In r (streaming_history d) /\ sh_artist_name r = Some a /\
                      ilike_raises a artistName = true) \/
         (exists c, In c (comments d) /\ ilike_raises (c_artist_name c) artistName = true))
  end.
Proof.
  unfold get_artist. destruct decoded as [artistName|]; [|by left].
  destruct (artist_queries_raise d artistName) eqn:Hraise.
  - right. exists artistName. split; [done|]. by apply artist_queries_raise_dangling.
  - exists artistName. do 3 (split; [done|]). split; [|split; [|split]].
    + intros e He. apply list_elem_of_In, list_elem_of_lookup in He as [i Hi].
      apply leaderboard_lookup in Hi
        as (_ & _ & g & _ & Hg & Hid & Hname & Hav & Hmin & Hcount & Hcur).
      apply artist_groups_inv in Hg as (Hu & Hrows & Htotal & Hsongs).
      exists (at_user g). rewrite Hmin, Hcount, Htotal, Hsongs. done.
    + intros Hnodup. rewrite leaderboard_ids.
      unfold leaderboardQuery. rewrite <- firstn_map.
      eapply sublist_NoDup; [|apply sublist_take].
      rewrite merge_sort_Permutation.
      eapply sublist_NoDup; [exact Hnodup|apply artist_groups_ids].
    + apply leaderboard_none.
    + intros Hd. apply leaderboard_none. intros r a _ _. by apply ilike_dangling.
Qed.

(* ================================================================== *)
(** * Further properties: the export files of other users at startup *)
(* ================================================================== *)

Section StartupFiles.

Lemma mapM_elem {A B} (f : A -> option B) (l : list A) (k : list B) x :
  mapM f l = Some k -> In x l -> exists y, f x = Some y /\ In y k.
Proof.
  intros Hm Hx. apply mapM_Some in Hm.
  apply list_elem_of_In, list_elem_of_lookup in Hx as [i Hi].
  destruct (Forall2_lookup_l _ _ _ _ _ Hm Hi) as (y & Hy & Hf).
  exists y. split; [done|]. by eapply list_elem_of_In, list_elem_of_lookup_2.
Qed.

End StartupFiles.

(** X19.  The directory filter of [loadDemoData] accepts every file that
    the synchronisation takes as a user's export
    ([User_<name>_Streaming_History_Audio...json]).  On a fresh database
    the startup of [index.ts] therefore stores the plays of such a file
    under the demo user: every row that the file loop persists for it is
    what the engine made of a valid record of the file, carries the demo
    user's identifier and is in the store afterwards.  The file succeeds
    exactly when it can be read and the engine takes each of its valid
    records; the rows of all of them are then in the store. *)
Theorem startup_loads_user_files_as_demo (dir : list File) (f : File) :
  In f dir -> is_user_history_file (originalname f) = true ->
  is_history_file (originalname f) = true /\
  (forall row, In row (persisted_rows true DEMO_USER_ID f) ->
     sh_user_id row = DEMO_USER_ID /\
     (exists e, In e (valid_of f) /\ stored DEMO_USER_ID e = Some row) /\
     In row (streaming_history (run_db (fst (start_index empty_db dir))))) /\
  (file_succeeds true DEMO_USER_ID f = true <->
   readable f = true /\
   forall e, In e (valid_of f) -> is_Some (stored DEMO_USER_ID e)) /\
  (file_succeeds true DEMO_USER_ID f = true ->
   forall e, In e (valid_of f) ->
     exists row, stored DEMO_USER_ID e = Some row /\
       In row (streaming_history (run_db (fst (start_index empty_db dir))))).
Proof.
  intros Hf Huser.
  assert (Hdemo : is_history_file (originalname f) = true).
  { unfold is_user_history_file in Huser. unfold is_history_file.
    apply andb_true_iff in Huser as [Huser ->]. apply andb_true_iff in Huser as [_ ->].
    done. }
  assert (Hrows : forall row, In row (persisted_rows true DEMO_USER_ID f) ->
            In row (streaming_history (run_db (fst (start_index empty_db dir))))).
  { intros row Hrow. unfold start_index. change (ensureDemoUser empty_db) with (Some demo_db).
    unfold loadDemoData. change (0 <? count_history demo_db DEMO_USER_ID)%nat with false.
    cbv iota. rewrite process_files_spec.
    cbn [fst run_db start_run]. change (has_user demo_db DEMO_USER_ID) with true.
    cbn [streaming_history add_history demo_db app].
    apply in_concat. exists (persisted_rows true DEMO_USER_ID f). split; [|done].
    apply in_map_iff. exists f. split; [done|]. apply filter_In. done. }
  split; [done|]. split; [|split].
  - intros row Hrow. pose proof Hrow as Hin.
    apply persisted_rows_valid in Hrow as (_ & e & He & Hst).
    split; [by eapply stored_user_id|]. split; [by exists e|by apply Hrows].
  - unfold file_succeeds, file_statements. rewrite andb_true_iff, all_accepted_iff.
    split; intros [Hr Hall]; (split; [done|]).
    + intros e He. destruct Hall as [Hnil|[_ Hall]]; [by rewrite Hnil in He|by apply Hall].
    + right. done.
  - intros Hok e He. destruct (persisted_rows_all true DEMO_USER_ID f Hok) as [Hm _].
    destruct (mapM_elem _ _ _ e Hm He) as (row & Hst & Hin).
    exists row. split; [done|]. by apply Hrows.
Qed.

End Properties.

(* ================================================================== *)
(** * The statements at sample inputs *)
(* ================================================================== *)

(** The samples are run on [sample_engine]. *)
#[local] Existing Instance sample_engine.

Example sample_engine_reads :
  timestamp_in "2024-03-01T10:00:00Z" = true /\
  timestamp_in "2024-02-30T10:00:00Z" = false /\
  timestamp_in "not a date" = false /\
  integer_in " 42 " = Some 42 /\
  integer_in "-7" = Some (-7) /\
  integer_in "4x" = None /\
  integer_in "99999999999" = None.
Proof. repeat split. Qed.

Example varchar_examples :
  varchar 3 "abc" = Some "abc" /\
  varchar 3 "abc  " = Some "abc" /\
  varchar 3 "abcd" = None /\
  varchar 3 "ab c " = None.
Proof. repeat split. Qed.

(** [Math.round] of the quotient of two floating-point numbers: halves go
    up, and a total above [2 ^ 53] is first rounded to a floating-point
    number. *)
Example round_div_examples :
  Js.round_div 3000 60000 = 0 /\
  Js.round_div 30000 60000 = 1 /\
  Js.round_div 89999 60000 = 1 /\
  Js.round_div 90000 60000 = 2 /\
  Js.round_div 9007199254829999 60000 = 150119987581 /\
  (2 * 9007199254829999 + 60000) / (2 * 60000) = 150119987580.
Proof. repeat split; vm_compute; reflexivity. Qed.

(** A backslash at the end of a pattern raises when the match comes to
    it, and not before. *)
Example like_examples :
  like "mod%" "moderat" = true /\
  like "m_derat" "moderat" = true /\
  like "100\%" "100%" = true /\
  like "100\%" "1000" = false /\
  like_raises "mod\" "moderat" = true /\
  like_raises "mod\" "apparat" = false /\
  like_raises "mod\" "mod" = false /\
  like_raises "%\" "moderat" = true /\
  like_raises "%\" "" = false /\
  ilike "Moderat" "MODERAT" = true.
Proof. repeat split. Qed.

(** The artist page at a name that cannot be decoded, at a name that
    raises, and at a name that ends in a backslash where nothing is
    compared with it. *)
Example get_artist_examples :
  get_artist listeners_db None = ArtistServerError /\
  get_artist listeners_db (Some "mod\") = ArtistServerError /\
  get_artist listeners_db (Some "app\") = ArtistOk [] /\
  get_artist empty_db (Some "mod\") = ArtistOk [].
Proof. repeat split. Qed.

(** The first upload of a new user after [ensureDemoUser] on a fresh store:
    the demo user was inserted with an explicit identifier, the sequence
    still hands out 1, and the insert of the new user is refused. *)
Example first_upload_after_demo_user :
  ensureDemoUser empty_db
  = Some {| users := [{| u_id := 1; u_username := "David Stouck"; u_avatar := "goat" |}];
            users_id_seq := 0; streaming_history := [];
            comments := []; comment_likes := [] |} /\
  snd (upload (default empty_db (ensureDemoUser empty_db)) (upload_as "Nova" [mixed_file]))
  = UploadServerError.
Proof. split; reflexivity. Qed.

(** A name of 256 characters whose last character is a space is stored
    without it: the first upload succeeds, the second one does not find
    the name it sent and is refused for the name it would store. *)
Example upload_of_a_padded_name :
  String.length (String.append (string_of_list_ascii (repeat "a"%char 255)) " ") = 256%nat /\
  (exists st,
     upload empty_db
       (upload_as (String.append (string_of_list_ascii (repeat "a"%char 255)) " ") [])
     = (st, UploadOk 1 0) /\
     map u_username (users (run_db st)) = [string_of_list_ascii (repeat "a"%char 255)] /\
     snd (upload (run_db st)
            (upload_as (String.append (string_of_list_ascii (repeat "a"%char 255)) " ") []))
     = UploadServerError).
Proof.
  split; [vm_compute; reflexivity|]. eexists. split; [vm_compute; reflexivity|].
  split; vm_compute; reflexivity.
Qed.

Example like_twice :
  snd (like_comment commented_db 7) = LikeOk 1 /\
  snd (like_comment (fst (like_comment commented_db 7)) 7) = LikeOk 1 /\
  snd (like_as 2 (fst (like_comment commented_db 7)) 7) = LikeOk 2 /\
  like_comment commented_db 8 = (commented_db, LikeServerError).
Proof. repeat split. Qed.

Example match_user_file_examples :
  Js.match_user_file "User_Mira_Lane_Streaming_History_Audio_2024.json" = Some "Mira_Lane" /\
  Js.trim (Js.replace_underscores "_Mira_Lane_") = "Mira Lane" /\
  Js.match_user_file "Streaming_History_Audio_2024.json" = None /\
  Js.match_user_file "User__Streaming_History_Audio.json" = None.
Proof. repeat split. Qed.

Example is_valid_examples :
  map is_valid [play "Intruder" 1000; play "" 4000; play "Ghostmother" 0;
                play "Milk" (-5); play_without_ts]
  = [true; false; false; false; true] /\
  validRecords [Some (play "Intruder" 1000); None] = None.
Proof. split; reflexivity. Qed.

Example batches_of_501 :
  map (@length nat) (batches (repeat 0%nat 501)) = [500; 1]%nat /\
  map (@length nat) (batches (repeat 0%nat 1000)) = [500; 500]%nat /\
  batches (@nil nat) = [].
Proof. repeat split; vm_compute; reflexivity. Qed.

(** A run of the synchronisation: "Nova" has stream events and is
    skipped, "Mira Lane" is created and receives her file. *)
Example sync_of_export_dir :
  map u_username (users (run_db (syncAllUsersFromFiles listeners_db export_dir)))
  = ["Nova"; "Idris"; "Mira Lane"] /\
  map sh_user_id (streaming_history (run_db (syncAllUsersFromFiles listeners_db export_dir)))
  = [1; 2; 2; 3].
Proof. split; vm_compute; reflexivity. Qed.

Example leaderboard_of_listeners :
  map (fun e => (rank e, lb_username e)) (leaderboard listeners_db "MODERAT")
  = [(1%nat, "Idris"); (2%nat, "Nova")].
Proof. reflexivity. Qed.

Example object_entries_order :
  map fst (object_entries [("b", []); ("10", []); ("a", []); ("9", []); ("01", [])])
  = ["9"; "10"; "b"; "a"; "01"].
Proof. reflexivity. Qed.

Example inherited_name_stops_the_sync :
  syncAllUsersFromFiles empty_db
    [json_file "User_Nova_Streaming_History_Audio_2024.json" [play "Running" 2000];
     json_file "User_constructor_Streaming_History_Audio_2024.json" [play "Running" 2000]]
  = start_run empty_db.
Proof. reflexivity. Qed.

(** C1, the claim as stated, at a file whose only record is valid and
    has no timestamp (no engine takes such a row for [ts TIMESTAMP NOT
    NULL]): the record is sent, the statement is refused, nothing is
    persisted and the file's error is reported. *)
Lemma valid_record_is_not_persisted :
  is_valid play_without_ts = true /\
  valid_of refused_file = [play_without_ts] /\
  process_files 1 [refused_file] (start_run nova_db) 0
  = ({| run_db := nova_db;
        run_trace := [InsertStatement [values_of 1 play_without_ts];
                      FileErrorLogged "refused.json"] |}, 0%nat).
Proof. repeat split. Qed.

(** C2, the claim as stated, at 1001 validated records of which the
    first is refused by the store: one statement is sent, not three. *)
Lemma refused_batch_ends_the_loop :
  forallb is_valid refused_at_once = true /\
  length refused_at_once = 1001%nat /\
  ceil_div (length refused_at_once) BATCH_SIZE = 3%nat /\
  length (run_trace (fst (fst (insert_batches (length refused_at_once) 0 refused_at_once 1
                                 (start_run nova_db) 0))))
  = 1%nat /\
  snd (insert_batches (length refused_at_once) 0 refused_at_once 1 (start_run nova_db) 0)
  = false.
Proof. repeat split; vm_compute; reflexivity. Qed.

(** C7, the claim as stated, at an upload of two files, the first with
    501 valid records of which the last is refused by the store, the
    second with two valid records: the first file fails (its error is
    logged, its second statement inserts nothing), the second one
    succeeds with its two records, and yet the response reports 502
    records, the 500 of the failed file's first batch included. *)
Lemma partial_batches_are_counted :
  snd (upload empty_db (upload_as "Nova" [long_file; mixed_file])) = UploadOk 1 502 /\
  length (streaming_history
            (run_db (fst (upload empty_db (upload_as "Nova" [long_file; mixed_file])))))
  = 502%nat /\
  file_succeeds true 1 long_file = false /\
  file_succeeds true 1 mixed_file = true /\
  existsb (fun ev => match ev with
                     | FileErrorLogged name => String.eqb name "long.json"
                     | _ => false
                     end)
          (run_trace (fst (upload empty_db (upload_as "Nova" [long_file; mixed_file]))))
  = true /\
  imported_from_succeeded true 1 [long_file; mixed_file] = 2%nat.
Proof. repeat split; vm_compute; reflexivity. Qed.

(** C8, the claim as stated, at two valid entries that carry the same
    track name: two records are imported and the profile reports one
    song. *)
Lemma same_track_twice_is_one_song :
  snd (upload empty_db
         (upload_as "Nova"
            [json_file "history.json"
               [play "Rusty Nails" 1000; play "Rusty Nails" 2000; play "Rusty Nails" 0]]))
  = UploadOk 1 2 /\
  get_user
    (run_db (fst (upload empty_db
                    (upload_as "Nova"
                       [json_file "history.json"
                          [play "Rusty Nails" 1000; play "Rusty Nails" 2000;
                           play "Rusty Nails" 0]]))))
    (Some "Nova")
  = ProfileOk {| u_id := 1; u_username := "Nova"; u_avatar := "goat" |}
              {| totalMinutes := 0; totalSongs := 1 |}.
Proof. split; vm_compute; reflexivity. Qed.

(** C10, the claim as stated, at two requests.  On the store that the
    startup of [index.ts] leaves on empty tables, an upload as "Nova" of
    a file that does not parse is answered with the server error and no
    user is created.  On empty tables, an upload as "Nova" that is not
    multipart creates the user and is answered with the server error. *)
Lemma upload_is_not_always_a_success :
  run_db (fst (start_index empty_db [])) = demo_db /\
  upload demo_db (upload_as "Nova" [unreadable_file])
  = (start_run {| users := users demo_db; users_id_seq := 1; streaming_history := [];
                  comments := []; comment_likes := [] |}, UploadServerError) /\
  upload_not_multipart empty_db (Some "Nova") "1b9d6bcd-bbfd-4b2d"
  = (nova_db, UploadServerError).
Proof. repeat split. Qed.

Lemma leaderboard_ranks_by_total_witness :
  (5000 + 1000 > 3000) /\
  get_artist listeners_db (Some "moderat") = ArtistOk (leaderboard listeners_db "moderat") /\
  length (leaderboard listeners_db "moderat") = 2%nat /\
  exists i j e1 e2, (i < j)%nat /\
    leaderboard listeners_db "moderat" !! i = Some e1 /\ userId e1 = 2 /\
    leaderboard listeners_db "moderat" !! j = Some e2 /\ userId e2 = 1.
Proof.
  split; [lia|].
  destruct (leaderboard_ranks_by_total listeners_db "moderat"
              {| u_id := 2; u_username := "Idris"; u_avatar := "goat" |}
              {| u_id := 1; u_username := "Nova"; u_avatar := "goat" |}
              6000 3000)
    as (Hget & Hlen & _ & _ & _ & _ & _ & Hboth & _).
  - right. by left.
  - by left.
  - reflexivity.
  - reflexivity.
  - lia.
  - split; [exact Hget|]. split; [exact Hlen|]. apply Hboth. vm_compute. lia.
Defined.

Lemma bulk_sync_skips_users_with_history_witness :
  (0 < count_history listeners_db 1)%nat /\
  user_history (run_db (syncAllUsersFromFiles listeners_db export_dir)) 1
  = user_history listeners_db 1.
Proof.
  assert (H : (0 < count_history listeners_db 1)%nat) by (cbn; lia).
  split; [exact H|].
  exact (proj1 (bulk_sync_skips_users_with_history listeners_db export_dir 1 H)).
Defined.

Lemma file_errors_are_isolated_witness :
  upload_user empty_db "Nova" = inr (nova_db, 1) /\
  snd (upload empty_db (upload_as "Nova" [unreadable_file; long_file; mixed_file; refused_file]))
  = UploadOk 1 502.
Proof.
  split; [reflexivity|].
  destruct (file_errors_are_isolated empty_db
              (upload_as "Nova" [unreadable_file; long_file; mixed_file; refused_file])
              nova_db 1 eq_refl) as [H _].
  rewrite H. vm_compute. reflexivity.
Defined.

Lemma nova_scenario_witness :
  [Some (play "Intruder" 1000); Some (play "Ghostmother" 0); Some (play "Milk" 2000)]
    ≡ₚ [Some (play "Intruder" 1000); Some (play "Milk" 2000); Some (play "Ghostmother" 0)] /\
  stored_as_is (play "Intruder" 1000) /\ stored_as_is (play "Milk" 2000) /\
  exists st,
    upload empty_db
      (upload_as "Nova"
         [json_file "history.json"
            [play "Intruder" 1000; play "Ghostmother" 0; play "Milk" 2000]])
    = (st, UploadOk 1 2) /\
    get_user (run_db st) (Some "Nova")
    = ProfileOk {| u_id := 1; u_username := "Nova"; u_avatar := "goat" |}
                {| totalMinutes := 0; totalSongs := 2 |}.
Proof.
  assert (Hperm : [Some (play "Intruder" 1000); Some (play "Ghostmother" 0);
                   Some (play "Milk" 2000)]
                  ≡ₚ [Some (play "Intruder" 1000); Some (play "Milk" 2000);
                      Some (play "Ghostmother" 0)])
    by apply perm_skip, perm_swap.
  assert (Ha : stored_as_is (play "Intruder" 1000)) by (intros userId; reflexivity).
  assert (Hb : stored_as_is (play "Milk" 2000)) by (intros userId; reflexivity).
  split; [exact Hperm|]. split; [exact Ha|]. split; [exact Hb|].
  eapply (nova_scenario empty_db _ _ _ _ _ _ "Intruder" "Milk");
    first [ exact Hperm | exact Ha | exact Hb | reflexivity | discriminate | by intros u [] ].
Defined.

Lemma total_songs_counts_distinct_names_witness :
  get_user listeners_db (Some "idris")
  = ProfileOk {| u_id := 2; u_username := "Idris"; u_avatar := "goat" |}
              {| totalMinutes := 0; totalSongs := 2 |} /\
  exists stats',
    get_user (add_history listeners_db [row_of 2 (play "Milk" 240000)]) (Some "idris")
    = ProfileOk {| u_id := 2; u_username := "Idris"; u_avatar := "goat" |} stats' /\
    totalSongs stats' = 2%nat.
Proof.
  split; [reflexivity|].
  destruct (total_songs_counts_distinct_names listeners_db (Some "idris")
              {| u_id := 2; u_username := "Idris"; u_avatar := "goat" |}
              {| totalMinutes := 0; totalSongs := 2 |} eq_refl)
    as (_ & _ & Hdup).
  destruct (Hdup (row_of 2 (play "Milk" 240000)) "Milk" eq_refl eq_refl) as [_ Hstats].
  - exists (row_of 2 (play "Milk" 1000)). split; [|split; reflexivity].
    right. right. by left.
  - exact Hstats.
Defined.

(* ================================================================== *)
(** * The further properties at sample inputs *)
(* ================================================================== *)

Lemma upload_touches_only_its_user_witness :
  snd (upload listeners_db (upload_as "Nova" [mixed_file])) = UploadOk 1 2 /\
  user_history (run_db (fst (upload listeners_db (upload_as "Nova" [mixed_file])))) 2
  = user_history listeners_db 2 /\
  count_history (run_db (fst (upload listeners_db (upload_as "Nova" [mixed_file])))) 1
  = 3%nat.
Proof.
  split; [reflexivity|].
  assert (Hup : upload listeners_db (upload_as "Nova" [mixed_file])
                = (fst (upload listeners_db (upload_as "Nova" [mixed_file])), UploadOk 1 2))
    by (vm_compute; reflexivity).
  destruct (upload_touches_only_its_user listeners_db (upload_as "Nova" [mixed_file])
              (fst (upload listeners_db (upload_as "Nova" [mixed_file]))) 1 2 Hup)
    as (_ & _ & _ & _ & Hothers & Hcount).
  split; [apply Hothers; discriminate | exact Hcount].
Defined.

Lemma repeated_upload_duplicates_witness :
  snd (upload empty_db (upload_as "Nova" [mixed_file])) = UploadOk 1 2 /\
  exists st2,
    upload (run_db (fst (upload empty_db (upload_as "Nova" [mixed_file]))))
           {| body_username := Some "Nova"; uuid := "9c858901-8a57-4791";
              files := [mixed_file] |}
    = (st2, UploadOk 1 2) /\
    length (streaming_history (run_db st2)) = 4%nat.
Proof.
  split; [reflexivity|].
  assert (Hup : upload empty_db (upload_as "Nova" [mixed_file])
                = (fst (upload empty_db (upload_as "Nova" [mixed_file])), UploadOk 1 2))
    by (vm_compute; reflexivity).
  destruct (repeated_upload_duplicates empty_db (upload_as "Nova" [mixed_file])
              {| body_username := Some "Nova"; uuid := "9c858901-8a57-4791";
                 files := [mixed_file] |}
              (fst (upload empty_db (upload_as "Nova" [mixed_file]))) 1 2
              Hup eq_refl eq_refl eq_refl eq_refl)
    as (st2 & rows & Hup2 & Hlen & _ & Hrows & _).
  exists st2. split; [exact Hup2|].
  rewrite Hrows, !length_app, Hlen. reflexivity.
Defined.

Lemma first_new_user_after_startup_fails_witness :
  upload_username (upload_as "Nova" []) <> DEMO_USERNAME /\
  fits 255 (upload_username (upload_as "Nova" [])) = true /\
  exists d1,
    upload (run_db (fst (start_index empty_db export_dir))) (upload_as "Nova" [])
    = (start_run d1, UploadServerError) /\
    exists st n, upload d1 (upload_as "Nova" []) = (st, UploadOk 2 n).
Proof.
  assert (Hname : upload_username (upload_as "Nova" []) <> DEMO_USERNAME) by discriminate.
  split; [exact Hname|]. split; [reflexivity|].
  exact (first_new_user_after_startup_fails export_dir (upload_as "Nova" []) Hname eq_refl).
Defined.

Lemma search_finds_names_containing_the_query_witness :
  is_literal "OV" = true /\
  search_users listeners_db (Some "OV")
  = [{| u_id := 1; u_username := "Nova"; u_avatar := "goat" |}].
Proof.
  split; [reflexivity|].
  rewrite (proj1 (search_finds_names_containing_the_query listeners_db "OV" eq_refl)).
  reflexivity.
Defined.

Lemma percent_name_is_the_first_user_witness :
  users listeners_db
  = {| u_id := 1; u_username := "Nova"; u_avatar := "goat" |}
    :: [{| u_id := 2; u_username := "Idris"; u_avatar := "goat" |}] /\
  sync_user_id listeners_db "%" = inr (listeners_db, 1).
Proof.
  split; [reflexivity|].
  exact (proj1 (proj2 (percent_name_is_the_first_user listeners_db _ _ unreadable_file
                         eq_refl))).
Defined.

Lemma reachable_stores_count_likes_witness :
  reachable
    (fst (like_as 1
            (fst (comment_as 1 (fst (signup empty_db (Some "Nova"))) 7 (Some "Moderat")
                             (Some "Berlin, 2013")))
            7)) /\
  comments
    (fst (like_as 1
            (fst (comment_as 1 (fst (signup empty_db (Some "Nova"))) 7 (Some "Moderat")
                             (Some "Berlin, 2013")))
            7))
  = [{| c_id := 7; c_user_id := 1; c_artist_name := "Moderat";
        c_content := "Berlin, 2013"; c_likes := 1 |}] /\
  likes_consistent
    (fst (like_as 1
            (fst (comment_as 1 (fst (signup empty_db (Some "Nova"))) 7 (Some "Moderat")
                             (Some "Berlin, 2013")))
            7)).
Proof.
  assert (H : reachable
                (fst (like_as 1
                        (fst (comment_as 1 (fst (signup empty_db (Some "Nova"))) 7
                                         (Some "Moderat") (Some "Berlin, 2013")))
                        7))).
  { eapply reachable_step; [|apply step_like].
    eapply reachable_step; [|apply step_comment].
    eapply reachable_step; [apply reachable_init|apply step_signup]. }
  split; [exact H|]. split; [reflexivity|].
  exact (reachable_stores_count_likes _ H).
Defined.

Lemma first_like_adds_one_witness :
  likes_consistent commented_db /\
  like_as 1 commented_db 7
  = ({| users := users commented_db; users_id_seq := 2;
        streaming_history := streaming_history commented_db;
        comments := [{| c_id := 7; c_user_id := 2; c_artist_name := "Moderat";
                        c_content := "Berlin, 2013"; c_likes := 1 |}];
        comment_likes := [{| cl_comment_id := 7; cl_user_id := 1 |}] |}, LikeOk 1) /\
  map c_id (comments (fst (like_as 1 commented_db 7))) = map c_id (comments commented_db).
Proof.
  assert (H : likes_consistent commented_db).
  { split; [|split].
    - intros c [<-|[]]. reflexivity.
    - intros l [].
    - constructor. }
  split; [exact H|]. split; [reflexivity|].
  exact (proj1 (proj2 (proj2 (first_like_adds_one 1 commented_db 7 H)))).
Defined.

Lemma comment_is_stored_unliked_witness :
  likes_consistent nova_db /\
  match comment_as 1 nova_db 1 (Some "Moderat") (Some "Berlin, 2013") with
  | (d', CommentOk id' text likes username avatar) =>
      id' = 1 /\ likes = 0 /\ snd (like_as 1 d' 1) = LikeOk 1
  | (_, CommentServerError) => False
  end.
Proof.
  assert (H : likes_consistent nova_db).
  { split; [|split].
    - intros c [].
    - intros l [].
    - constructor. }
  split; [exact H|].
  pose proof (comment_is_stored_unliked 1 nova_db 1 (Some "Moderat") (Some "Berlin, 2013") H)
    as Hm.
  destruct (comment_as 1 nova_db 1 (Some "Moderat") (Some "Berlin, 2013"))
    as [d' [id' text likes username avatar|]] eqn:E.
  - destruct Hm as (Hid & _ & Hlikes & _ & _ & _ & _ & _ & _ & _ & Hfirst).
    split; [exact Hid|]. split; [exact Hlikes|]. apply Hfirst; reflexivity.
  - vm_compute in E. discriminate E.
Defined.

Lemma top_lists_rank_the_groups_witness :
  exists artists songs,
    profile_top_lists listeners_db (Some "idris") = Some (artists, songs) /\
    map ta_name artists = ["Moderat"] /\
    map so_name songs = ["Intruder"; "Milk"] /\
    NoDup (map (fun s => (so_name s, so_artist s)) songs).
Proof.
  destruct (profile_top_lists listeners_db (Some "idris")) as [[artists songs]|] eqn:E.
  - exists artists, songs. split; [reflexivity|].
    destruct (top_lists_rank_the_groups listeners_db (Some "idris") artists songs E)
      as (_ & _ & _ & _ & _ & _ & Hsongs & _).
    vm_compute in E. injection E as <- <-.
    split; [reflexivity|]. split; [reflexivity|]. exact Hsongs.
  - vm_compute in E. discriminate E.
Defined.

Lemma startup_loads_user_files_as_demo_witness :
  is_user_history_file "User_Mira_Lane_Streaming_History_Audio_2024.json" = true /\
  In (row_of 1 (play "Running" 2000))
     (streaming_history (run_db (fst (start_index empty_db export_dir)))).
Proof.
  split; [reflexivity|].
  destruct (startup_loads_user_files_as_demo export_dir
              (json_file "User_Mira_Lane_Streaming_History_Audio_2024.json"
                         [play "Running" 2000]))
    as (_ & _ & _ & Hall).
  - right. left. reflexivity.
  - reflexivity.
  - destruct (Hall eq_refl (play "Running" 2000)) as (row & Hst & Hin).
    + left. reflexivity.
    + vm_compute in Hst. injection Hst as <-. exact Hin.
Defined.
